(** * Assessment session pipeline: a shallow embedding

    This development models the assessment backend's session pipeline
    (ClaudeAIService, RealTimeInsightService, RealTimeInsightEngine,
    SkillAssessmentEngine, AssessmentServiceLite), the resilience
    utilities of [services/errorHandler.ts] (RateLimiter, RetryHandler,
    CircuitBreaker) and the request validators of ValidationService.

    Conventions.
    - An [async] function that may reject is a function into [Res]: [Ok v]
      for a fulfilled promise, [Throw e] for a rejected one; [try]/[catch]
      is a [match] on that outcome.  Operations run one after the other
      (every [await] completes before the next operation starts).
    - Whatever lies outside the process (the Anthropic endpoint, the
      Supabase client, [Date.now], [Math.random], [JSON.parse]) is read from
      an explicit environment argument, so that theorems quantify over every
      behaviour of those collaborators.
    - JavaScript numbers that carry JSON payload values are rationals [Q],
      with [None] standing for [NaN]; counters and millisecond clocks are
      integers [Z]. *)

From Stdlib Require Import ZArith QArith Qround Lia Lqa Ascii String.
From stdpp Require Import base option list strings gmap pretty.

Local Open Scope Z_scope.
Set Warnings "-register-all".

(** ** Outcomes of fallible calls *)

Inductive Res (E A : Type) : Type :=
| Ok (a : A)
| Throw (e : E).
Arguments Ok {E A} a.
Arguments Throw {E A} e.

Definition is_ok {E A} (r : Res E A) : bool :=
  match r with Ok _ => true | Throw _ => false end.

#[global] Instance res_ret {E} : MRet (Res E) := fun A a => Ok a.
#[global] Instance res_bind {E} : MBind (Res E) := fun A B k r =>
  match r with
  | Ok a => k a
  | Throw e => Throw e
  end.

(** [try_catch body handler]: run [body]; on a throw run [handler]. *)
Definition try_catch {E A} (body : Res E A) (handler : E -> Res E A) : Res E A :=
  match body with
  | Ok a => Ok a
  | Throw e => handler e
  end.

(** ** Error taxonomy of [services/errorHandler.ts] *)

Module Errors.

(** The class a thrown value was constructed from.  [PlainError] is the
    built-in [Error] (and its built-in subclasses such as [TypeError]). *)
Inductive ErrorClass : Set :=
| PlainError
| AssessmentError
| ValidationError
| AuthenticationError
| AuthorizationError
| NotFoundError
| RateLimitError
| ExternalServiceError
| DatabaseError
| ConfigurationError.

Record JsError : Set := mkError {
  err_class : ErrorClass;
  err_message : string
}.

(** [error instanceof C] for the three classes [withRetry] tests.  Each of
    them is a direct subclass of [AssessmentError] with no subclass of its
    own, so the test holds exactly for values built by that class. *)
Definition instanceof_ValidationError (error : JsError) : bool :=
  match err_class error with ValidationError => true | _ => false end.

Definition instanceof_AuthenticationError (error : JsError) : bool :=
  match err_class error with AuthenticationError => true | _ => false end.

Definition instanceof_AuthorizationError (error : JsError) : bool :=
  match err_class error with AuthorizationError => true | _ => false end.

End Errors.

(** ** RetryHandler.withRetry *)

Module Retry.
Import Errors.

(** What a run of [withRetry] does, in order: invocations of the operation
    and [setTimeout] sleeps. *)
Inductive event : Set :=
| EvInvoke (attempt : nat)
| EvSleep (ms : Z).

(** [Throw None] is [throw lastError] with [lastError] never assigned. *)
Record run (T : Type) : Type := mkRun {
  outcome : Res (option JsError) T;
  trace : list event
}.
Arguments mkRun {T} outcome trace.
Arguments outcome {T} r.
Arguments trace {T} r.

(** The errors after which the loop breaks without sleeping. *)
Definition non_retryable (error : JsError) : bool :=
  instanceof_ValidationError error
  || instanceof_AuthenticationError error
  || instanceof_AuthorizationError error.

Section WithRetry.
Context {T : Type}.
(** [operation n] is the outcome of the invocation made in loop iteration
    [attempt = n]: the closure may answer differently at each invocation. *)
Variable operation : nat -> Res JsError T.
Variables (maxRetries delayMs backoffMultiplier : Z).

(** The [for] loop, with [remaining] iterations left before the test
    [attempt < maxRetries] fails. *)
Fixpoint loop (remaining attempt : nat) (lastError : option JsError) : run T :=
  match remaining with
  | O => mkRun (Throw lastError) []
  | S remaining' =>
      match operation attempt with
      | Ok v => mkRun (Ok v) [EvInvoke attempt]
      | Throw error =>
          if Z.of_nat attempt =? maxRetries - 1 then
            mkRun (Throw (Some error)) [EvInvoke attempt]
          else if non_retryable error then
            mkRun (Throw (Some error)) [EvInvoke attempt]
          else
            let delay := delayMs * backoffMultiplier ^ Z.of_nat attempt in
            let r := loop remaining' (S attempt) (Some error) in
            mkRun (outcome r) (EvInvoke attempt :: EvSleep delay :: trace r)
      end
  end.

Definition withRetry : run T := loop (Z.to_nat maxRetries) 0 None.

End WithRetry.

Fixpoint count_invocations (tr : list event) : nat :=
  match tr with
  | [] => O
  | EvInvoke _ :: tr' => S (count_invocations tr')
  | EvSleep _ :: tr' => count_invocations tr'
  end.

Fixpoint sleeps (tr : list event) : list Z :=
  match tr with
  | [] => []
  | EvInvoke _ :: tr' => sleeps tr'
  | EvSleep ms :: tr' => ms :: sleeps tr'
  end.

Definition invocations {T} (r : run T) : nat := count_invocations (trace r).
Definition delays {T} (r : run T) : list Z := sleeps (trace r).



End Retry.

(** ** CircuitBreaker.execute *)

Module Breaker.
Import Errors.

Inductive circuit : Set := closed | open | half_open.

(** One value of the static [states] map. *)
Record entry : Set := mkEntry {
  state : circuit;
  failureCount : Z;
  lastFailureTime : Z;
  successCount : Z
}.

Record options : Set := mkOptions {
  failureThreshold : Z;
  recoveryTimeout : Z;
  successThreshold : Z
}.

Definition default_options : options := mkOptions 5 60000 3.

(** The literal used when the key has no entry yet. *)
Definition fresh : entry := mkEntry closed 0 0 0.

(** What one call meets: the clock read by the open check, the outcome the
    operation has if it is invoked, and the clock read in the [catch]. *)
Record call (T : Type) : Type := mkCall {
  now_at_entry : Z;
  operation : Res JsError T;
  now_at_failure : Z
}.
Arguments mkCall {T} now_at_entry operation now_at_failure.
Arguments now_at_entry {T} c.
Arguments operation {T} c.
Arguments now_at_failure {T} c.

Record result (T : Type) : Type := mkResult {
  states_after : gmap string entry;
  returned : Res JsError T;
  invoked : bool
}.
Arguments mkResult {T} states_after returned invoked.
Arguments states_after {T} r.
Arguments returned {T} r.
Arguments invoked {T} r.

Definition circuit_open_error : JsError := mkError PlainError "Circuit breaker is open".

(** The open check: [None] when the call is refused, otherwise the entry
    as it stands when the operation is invoked. *)
Definition gate (opts : options) (now : Z) (st : entry) : option entry :=
  match state st with
  | open =>
      if now - lastFailureTime st >? recoveryTimeout opts
      then Some (mkEntry half_open (failureCount st) (lastFailureTime st) 0)
      else None
  | _ => Some st
  end.

Definition on_success (opts : options) (st : entry) : entry :=
  let st1 := mkEntry (state st) 0 (lastFailureTime st) (successCount st + 1) in
  match state st1 with
  | half_open =>
      if successCount st1 >=? successThreshold opts
      then mkEntry closed (failureCount st1) (lastFailureTime st1) (successCount st1)
      else st1
  | _ => st1
  end.

Definition on_failure (opts : options) (now : Z) (st : entry) : entry :=
  let st1 := mkEntry (state st) (failureCount st + 1) now (successCount st) in
  if failureCount st1 >=? failureThreshold opts
  then mkEntry open (failureCount st1) (lastFailureTime st1) (successCount st1)
  else st1.

Definition execute {T} (states : gmap string entry) (key : string)
    (c : call T) (opts : options) : result T :=
  let st := default fresh (states !! key) in
  match gate opts (now_at_entry c) st with
  | None => mkResult states (Throw circuit_open_error) false
  | Some st1 =>
      match operation c with
      | Ok v => mkResult (<[key := on_success opts st1]> states) (Ok v) true
      | Throw error =>
          mkResult (<[key := on_failure opts (now_at_failure c) st1]> states)
                   (Throw error) true
      end
  end.

(** A sequence of calls on one key, each starting after the previous one
    has settled. *)
Fixpoint execute_all {T} (states : gmap string entry) (key : string)
    (calls : list (call T)) (opts : options) : gmap string entry * list (result T) :=
  match calls with
  | [] => (states, [])
  | c :: calls' =>
      let r := execute states key c opts in
      let rest := execute_all (states_after r) key calls' opts in
      (rest.1, r :: rest.2)
  end.

(** The entry a key currently has, as [execute] would read it. *)
Definition current (states : gmap string entry) (key : string) : entry :=
  default fresh (states !! key).

(** What holds of every entry the breaker itself has written under one
    set of options: counters are not negative, and an open circuit has
    reached the failure threshold. *)
Definition well_formed (opts : options) (st : entry) : Prop :=
  0 <= failureCount st
  /\ 0 <= successCount st
  /\ (state st = open -> failureThreshold opts <= failureCount st).

Definition invoked_and_failed {T} (r : result T) : Prop :=
  invoked r = true /\ is_ok (returned r) = false.

Definition invoked_and_succeeded {T} (r : result T) : Prop :=
  invoked r = true /\ is_ok (returned r) = true.

End Breaker.

(** ** JavaScript values read from a JSON payload *)

Module JS.
Import Errors.

Inductive json : Type :=
| JNull
| JBool (b : bool)
| JNum (q : Q)
| JStr (s : string)
| JArr (items : list json)
| JObj (props : list (string * json)).

(** A property read: [None] is [undefined]. *)
Definition value : Type := option json.

(** A number as arithmetic sees it: [None] is [NaN]. *)
Definition jsnum : Type := option Q.

Definition num (z : Z) : jsnum := Some (inject_Z z).

(** ToBoolean. *)
Definition truthy (v : value) : bool :=
  match v with
  | None => false
  | Some JNull => false
  | Some (JBool b) => b
  | Some (JNum q) => negb (Qeq_bool q 0)
  | Some (JStr s) => negb (String.eqb s "")
  | Some (JArr _) => true
  | Some (JObj _) => true
  end.

(** [v || d] with a default [d] that is a JSON value. *)
Definition or_default (v : value) (d : json) : json :=
  match v with
  | Some j => if truthy v then j else d
  | None => d
  end.

Definition type_error (msg : string) : JsError := mkError PlainError msg.

Fixpoint assoc (k : string) (props : list (string * json)) : value :=
  match props with
  | [] => None
  | (k', v) :: props' => if String.eqb k k' then Some v else assoc k props'
  end.

(** [o.k]: reading a property of [null] throws; primitives and arrays have
    none of the properties read here. *)
Definition get (o : json) (k : string) : Res JsError value :=
  match o with
  | JNull => Throw (type_error "Cannot read properties of null")
  | JObj props => Ok (assoc k props)
  | _ => Ok None
  end.

(** [o?.k] where [o] is itself the result of a property read. *)
Definition get_opt (o : value) (k : string) : value :=
  match o with
  | Some (JObj props) => assoc k props
  | _ => None
  end.

(** ToNumber.  The conversion of strings, arrays and objects is the
    runtime's and is taken as the argument [other]. *)
Definition ToNumber (other : json -> jsnum) (j : json) : jsnum :=
  match j with
  | JNull => Some 0%Q
  | JBool b => Some (if b then 1%Q else 0%Q)
  | JNum q => Some q
  | _ => other j
  end.

Definition Math_max (a b : jsnum) : jsnum :=
  match a, b with
  | Some x, Some y => Some (if Qle_bool x y then y else x)
  | _, _ => None
  end.

Definition Math_min (a b : jsnum) : jsnum :=
  match a, b with
  | Some x, Some y => Some (if Qle_bool x y then x else y)
  | _, _ => None
  end.

(** [a < b] on numbers: false when either side is [NaN]. *)
Definition lt (a b : jsnum) : bool :=
  match a, b with
  | Some x, Some y => negb (Qle_bool y x)
  | _, _ => false
  end.

(** [Math.min(hi, Math.max(lo, q))] on an actual number. *)
Definition clamped (lo hi : Z) (q : Q) : jsnum :=
  Math_min (num hi) (Math_max (num lo) (Some q)).

Definition in_range (lo hi : Z) (n : jsnum) : Prop :=
  match n with
  | Some q => (inject_Z lo <= q)%Q /\ (q <= inject_Z hi)%Q
  | None => False
  end.

(** The match of [/\{[\s\S]*\}/]: from the first opening brace that has a
    closing brace after it to the last closing brace. *)
Fixpoint from_first_open (s : string) : option string :=
  match s with
  | EmptyString => None
  | String c s' => if Ascii.eqb c "{"%char then Some s' else from_first_open s'
  end.

Fixpoint upto_last_close (s : string) : option string :=
  match s with
  | EmptyString => None
  | String c s' =>
      match upto_last_close s' with
      | Some p => Some (String c p)
      | None => if Ascii.eqb c "}"%char then Some (String c EmptyString) else None
      end
  end.

Definition match_object (response : string) : option string :=
  match from_first_open response with
  | Some rest =>
      match upto_last_close rest with
      | Some p => Some (String "{"%char p)
      | None => None
      end
  | None => None
  end.

(** The runtime services the parsers rely on. *)
Record Runtime : Type := mkRuntime {
  JSON_parse : string -> option json;      (* [None]: SyntaxError *)
  ToNumber_other : json -> jsnum
}.

End JS.

(** ** Shared data types ([services/types.ts] and the service interfaces) *)

Module Types.
Import JS.

Inductive ResponseType : Set := multiple_choice | scale | text.

Record AssessmentResponse : Type := mkResponse {
  questionId : string;
  questionText : string;
  response : Q + string;
  responseType : ResponseType;
  timestamp : Z
}.

(** The type [1 | 2 | 3]. *)
Inductive BatchNumber : Set := Batch1 | Batch2 | Batch3.

#[global] Instance BatchNumber_eq_dec : EqDecision BatchNumber.
Proof. solve_decision. Defined.

(** The text fields hold whatever the payload held: no type check is made
    on them before they are stored. *)
Record Insight : Type := mkInsight {
  id : string;
  sessionId : string;
  batchNumber : BatchNumber;
  questionRange : string;
  insight : value;
  challengeIdentified : value;
  businessImpact : json;
  confidence : jsnum;
  generatedAt : string
}.

Record UserInfo : Set := mkUserInfo {
  email : string;
  company : string;
  productName : string;
  productDescription : string;
  businessModel : string
}.

End Types.

(** ** ClaudeAIService *)

Module Claude.
Import Errors JS.

Record InsightUserInfo : Set := mkInsightUserInfo {
  company : string;
  productName : string;
  businessModel : string
}.

Record AssessmentInsightRequest : Type := mkInsightRequest {
  responses : list Types.AssessmentResponse;
  batchNumber : Types.BatchNumber;
  previousInsights : option (list Types.Insight);
  userInfo : InsightUserInfo
}.

Record FinalUserInfo : Set := mkFinalUserInfo {
  f_company : string;
  f_productName : string;
  f_businessModel : string;
  f_productDescription : string
}.

Record FinalAssessmentRequest : Type := mkFinalRequest {
  f_responses : list Types.AssessmentResponse;
  f_insights : list Types.Insight;
  f_userInfo : FinalUserInfo
}.

Record AIInsightResponse : Type := mkAIInsight {
  challengeIdentified : value;
  insight : value;
  businessImpact : json;
  confidence : jsnum;
  reasoning : json
}.

Record SkillLevels : Type := mkSkillLevels {
  customerAnalysis : jsnum;
  businessCommunication : jsnum;
  revenueStrategy : jsnum;
  valueArticulation : jsnum;
  strategicThinking : jsnum
}.

Record AIAssessmentResponse : Type := mkAIAssessment {
  overallScore : jsnum;
  performanceLevel : json;
  skillLevels : SkillLevels;
  challenges : json;
  recommendations : json;
  focusArea : json;
  revenueOpportunity : json;
  roiMultiplier : jsnum;
  nextSteps : json;
  a_confidence : jsnum
}.

(** What [fetch] resolved to: the [ok] flag, and what
    [(await response.json()).content[0].text] evaluates to, which is a
    throw, a string, or some other value ([None]). *)
Record FetchResponse : Type := mkFetchResponse {
  ok : bool;
  status_line : string;
  content_text : Res JsError (option string)
}.

Record ClaudeAPIOptions : Set := mkOptions {
  model : string;
  max_tokens : Z;
  temperature : Q
}.

Definition insight_options : ClaudeAPIOptions :=
  mkOptions "claude-3-5-sonnet-20241022" 800 (7 # 10).

Definition final_options : ClaudeAPIOptions :=
  mkOptions "claude-3-5-sonnet-20241022" 2000 (6 # 10).

(** The service instance together with everything one call reads from
    outside.  The two prompt builders are string templates over the typed
    request; their text plays no part below and is taken as given.  [fetch]
    is the POST to the messages endpoint with the given prompt and
    options. *)
Record Env : Type := mkEnv {
  anthropicApiKey : option string;
  buildInsightPrompt : AssessmentInsightRequest -> string;
  buildFinalAssessmentPrompt : FinalAssessmentRequest -> string;
  fetch : string -> ClaudeAPIOptions -> Res JsError FetchResponse;
  Math_random : Q;                       (* one draw, in [0, 1) *)
  runtime : Runtime
}.

(** [!!this.anthropicApiKey], computed by the constructor. *)
Definition isConfigured (env : Env) : bool :=
  match anthropicApiKey env with
  | Some key => negb (String.eqb key "")
  | None => false
  end.

(** The request body fields with their [||] defaults. *)
Definition with_defaults (options : ClaudeAPIOptions) : ClaudeAPIOptions :=
  mkOptions (if String.eqb (model options) "" then "claude-3-5-sonnet-20241022"
             else model options)
            (if max_tokens options =? 0 then 2000 else max_tokens options)
            (if Qeq_bool (temperature options) 0 then 7 # 10 else temperature options).

Definition callClaudeAPI (env : Env) (prompt : string) (options : ClaudeAPIOptions)
    : Res JsError (option string) :=
  if negb (isConfigured env) then
    Throw (mkError PlainError "Anthropic API key not configured")
  else
    response ← fetch env prompt (with_defaults options);
    if negb (ok response) then
      Throw (mkError PlainError ("Claude API error: " ++ status_line response))
    else content_text response.

Definition fallback_challenges : list string :=
  [ "Technical Translation Challenge";
    "Buyer Conversations Challenge";
    "Competitive Positioning Challenge" ].

(** [challenges[Math.floor(Math.random() * challenges.length)]]. *)
Definition randomChallenge (random : Q) : value :=
  let i := Qfloor (random * 3) in
  if i <? 0 then None else JStr <$> (fallback_challenges !! Z.to_nat i).

Definition getFallbackInsight (random : Q) (request : AssessmentInsightRequest)
    : AIInsightResponse :=
  {| challengeIdentified := randomChallenge random;
     insight := Some (JStr "Based on your responses, you show strong technical understanding but may benefit from focusing on buyer-centric conversations to improve deal outcomes.");
     businessImpact := JStr "Potential revenue impact from improved sales conversations";
     confidence := num 70;
     reasoning := JStr "Fallback analysis based on standard assessment patterns" |}.

Definition empty_insight_request : AssessmentInsightRequest :=
  mkInsightRequest [] Types.Batch1 None (mkInsightUserInfo "" "" "").

(** [Math.min(hi, Math.max(lo, v || d))]. *)
Definition clamp_or (rt : Runtime) (lo hi : jsnum) (v : value) (d : json) : jsnum :=
  Math_min hi (Math_max lo (ToNumber (ToNumber_other rt) (or_default v d))).

(** The text matched by the pattern and parsed, or the error thrown on the
    way; a response that is not a string has no [match] method. *)
Definition extract_json (rt : Runtime) (response : option string) : Res JsError json :=
  text ← match response with
         | Some t => Ok t
         | None => Throw (type_error "response.match is not a function")
         end;
  jsonMatch ← match match_object text with
              | Some m => Ok m
              | None => Throw (mkError PlainError "No JSON found in response")
              end;
  match JSON_parse rt jsonMatch with
  | Some parsed => Ok parsed
  | None => Throw (mkError PlainError "Unexpected token in JSON")
  end.

(** The [try] block of [parseInsightResponse]. *)
Definition parseInsightResponse_try (rt : Runtime) (response : option string)
    : Res JsError AIInsightResponse :=
  parsed ← extract_json rt response;
  challenge ← get parsed "challengeIdentified";
  text ← get parsed "insight";
  if negb (truthy challenge) || negb (truthy text) then
    Throw (mkError PlainError "Invalid insight response structure")
  else
    impact ← get parsed "businessImpact";
    conf ← get parsed "confidence";
    reason ← get parsed "reasoning";
    Ok {| challengeIdentified := challenge;
          insight := text;
          businessImpact := or_default impact (JStr "Revenue impact");
          confidence := clamp_or rt (num 60) (num 95) conf (JNum 75);
          reasoning := or_default reason (JStr "AI analysis based on assessment responses") |}.

Definition parseInsightResponse (env : Env) (response : option string)
    : AIInsightResponse :=
  match parseInsightResponse_try (runtime env) response with
  | Ok parsed => parsed
  | Throw _ => getFallbackInsight (Math_random env) empty_insight_request
  end.

Definition generateInsight (env : Env) (request : AssessmentInsightRequest)
    : Res JsError AIInsightResponse :=
  if negb (isConfigured env) then
    Ok (getFallbackInsight (Math_random env) request)
  else
    try_catch
      (let prompt := buildInsightPrompt env request in
       aiResponse ← callClaudeAPI env prompt insight_options;
       Ok (parseInsightResponse env aiResponse))
      (fun _ => Ok (getFallbackInsight (Math_random env) request)).

Definition fallback_challenge_list : json :=
  JArr [ JObj [ ("name", JStr "Technical Translation Challenge");
                ("description", JStr "Difficulty translating technical capabilities into business value");
                ("priority", JStr "high");
                ("impact", JNum 7);
                ("businessConsequence", JStr "Heavy discounting to win customers") ] ].

Definition fallback_recommendation_list : json :=
  JArr [ JObj [ ("category", JStr "Technical Translation");
                ("title", JStr "Develop Buyer-Specific Messaging");
                ("description", JStr "Create frameworks to translate technical features into business value propositions");
                ("priority", JStr "high");
                ("expectedOutcome", JStr "40% higher close rates through value-focused presentations");
                ("timeframe", JStr "3-6 months");
                ("tools", JArr [ JStr "Technical Translation Framework";
                                 JStr "Value Proposition Builder";
                                 JStr "ROI Calculator" ]) ] ].

Definition getFallbackAssessment (request : FinalAssessmentRequest) : AIAssessmentResponse :=
  {| overallScore := num 70;
     performanceLevel := JStr "Competent";
     skillLevels := mkSkillLevels (num 7) (num 6) (num 8) (num 7) (num 6);
     challenges := fallback_challenge_list;
     recommendations := fallback_recommendation_list;
     focusArea := JStr "technical_translation";
     revenueOpportunity := JNum 500000;
     roiMultiplier := num 3;
     nextSteps := JArr [ JStr "Review detailed assessment results";
                         JStr "Access your 3 revenue intelligence tools";
                         JStr "Implement systematic improvement approach" ];
     a_confidence := num 75 |}.

Definition empty_final_request : FinalAssessmentRequest :=
  mkFinalRequest [] [] (mkFinalUserInfo "" "" "" "").

(** The [try] block of [parseFinalAssessmentResponse]. *)
Definition parseFinalAssessmentResponse_try (rt : Runtime) (response : option string)
    : Res JsError AIAssessmentResponse :=
  parsed ← extract_json rt response;
  score ← get parsed "overallScore";
  level ← get parsed "performanceLevel";
  skills ← get parsed "skillLevels";
  chall ← get parsed "challenges";
  recs ← get parsed "recommendations";
  focus ← get parsed "focusArea";
  revenue ← get parsed "revenueOpportunity";
  roi ← get parsed "roiMultiplier";
  steps ← get parsed "nextSteps";
  conf ← get parsed "confidence";
  Ok {| overallScore := clamp_or rt (num 0) (num 100) score (JNum 70);
        performanceLevel := or_default level (JStr "Competent");
        skillLevels :=
          mkSkillLevels
            (clamp_or rt (num 0) (num 10) (get_opt skills "customerAnalysis") (JNum 7))
            (clamp_or rt (num 0) (num 10) (get_opt skills "businessCommunication") (JNum 6))
            (clamp_or rt (num 0) (num 10) (get_opt skills "revenueStrategy") (JNum 8))
            (clamp_or rt (num 0) (num 10) (get_opt skills "valueArticulation") (JNum 7))
            (clamp_or rt (num 0) (num 10) (get_opt skills "strategicThinking") (JNum 6));
        challenges := or_default chall (JArr []);
        recommendations := or_default recs (JArr []);
        focusArea := or_default focus (JStr "customer_analysis");
        revenueOpportunity := or_default revenue (JNum 500000);
        roiMultiplier :=
          Math_max (num 2) (ToNumber (ToNumber_other rt) (or_default roi (JNum 3)));
        nextSteps := or_default steps (JArr [ JStr "Review assessment results";
                                               JStr "Implement recommendations" ]);
        a_confidence := clamp_or rt (num 70) (num 95) conf (JNum 80) |}.

Definition parseFinalAssessmentResponse (env : Env) (response : option string)
    : AIAssessmentResponse :=
  match parseFinalAssessmentResponse_try (runtime env) response with
  | Ok parsed => parsed
  | Throw _ => getFallbackAssessment empty_final_request
  end.

Definition generateFinalAssessment (env : Env) (request : FinalAssessmentRequest)
    : Res JsError AIAssessmentResponse :=
  if negb (isConfigured env) then
    Ok (getFallbackAssessment request)
  else
    try_catch
      (let prompt := buildFinalAssessmentPrompt env request in
       aiResponse ← callClaudeAPI env prompt final_options;
       Ok (parseFinalAssessmentResponse env aiResponse))
      (fun _ => Ok (getFallbackAssessment request)).

End Claude.

(** ** RealTimeInsightService.parseAIResponse *)

Module InsightService.
Import Errors JS.

(** The fields of the returned payload that callers read. *)
Record ParsedInsight : Type := mkParsed {
  challengeIdentified : value;
  insight : value;
  businessImpact : value;
  confidence : jsnum;
  reasoning : value
}.

(** [typeof v === 'number'], giving the number. *)
Definition as_number (v : value) : option Q :=
  match v with
  | Some (JNum q) => Some q
  | _ => None
  end.

Definition parseAIResponse (rt : Runtime) (aiText : string) : Res JsError ParsedInsight :=
  parsed ← Claude.extract_json rt (Some aiText);
  challenge ← get parsed "challengeIdentified";
  text ← get parsed "insight";
  impact ← get parsed "businessImpact";
  conf ← get parsed "confidence";
  reason ← get parsed "reasoning";
  match as_number conf with
  | Some c =>
      if negb (truthy challenge) || negb (truthy text) || negb (truthy impact)
         || negb (truthy reason)
      then Throw (mkError PlainError "AI response missing required fields")
      else
        let clamped :=
          if lt (Some c) (num 70) || lt (num 95) (Some c)
          then Math_max (num 70) (Math_min (num 95) (Some c))
          else Some c in
        Ok (mkParsed challenge text impact clamped reason)
  | None => Throw (mkError PlainError "AI response missing required fields")
  end.

End InsightService.

(** ** SupabaseAssessmentService *)

Module Supabase.
Import Errors.

(** The client as one call meets it.  [createAssessmentSession] and
    [storeAssessmentResponse] are called by AssessmentServiceLite but are
    not among the methods the service class defines in the sources at
    hand; the outcome of calling them is therefore part of the environment
    (a call to a method that does not exist throws a TypeError, which is a
    [Throw] here). *)
Record Db : Type := mkDb {
  isEnabled : bool;
  update_query : Res JsError unit;
  insert_query : Res JsError unit;
  createAssessmentSession : Res JsError unit;
  storeAssessmentResponse : Res JsError unit
}.

Record CallResult : Set := mkCallResult {
  success : bool;
  error : option string
}.

(** The query runs inside the method's own [try]; every failure is turned
    into a result with [success = false]. *)
Definition updateAssessmentStatus (db : Db) : CallResult :=
  if negb (isEnabled db) then mkCallResult false (Some "supabase_not_configured")
  else match update_query db with
       | Ok _ => mkCallResult true None
       | Throw e => mkCallResult false (Some (err_message e))
       end.

Definition storeCompletedAssessment (db : Db) : CallResult :=
  if negb (isEnabled db) then mkCallResult false (Some "supabase_not_configured")
  else match insert_query db with
       | Ok _ => mkCallResult true None
       | Throw e => mkCallResult false (Some (err_message e))
       end.

End Supabase.

(** ** RealTimeInsightEngine *)

Module InsightEngine.
Import Errors JS Types.

Record BatchAnalysis : Type := mkBatch {
  responses : list AssessmentResponse;
  previousInsights : option (list Insight);
  b_sessionId : string;
  b_userInfo : option UserInfo
}.

Record Env : Type := mkEnv {
  ai : Claude.Env;
  db : Supabase.Db;
  now_iso : string                       (* [new Date().toISOString()] *)
}.

(** [s || d] on strings. *)
Definition str_or (s d : string) : string := if String.eqb s "" then d else s.

(** [userInfo?.field || 'Unknown ...'] for the three fields. *)
Definition insight_user_info (u : option UserInfo) : Claude.InsightUserInfo :=
  Claude.mkInsightUserInfo
    (str_or (from_option company "" u) "Unknown Company")
    (str_or (from_option productName "" u) "Unknown Product")
    (str_or (from_option businessModel "" u) "Unknown Model").

(** The body of [storeInsight] is one [try] whose [catch] only logs. *)
Definition storeInsight (env : Env) (i : Insight) : Res JsError unit :=
  try_catch (let _ := Supabase.updateAssessmentStatus (db env) in Ok tt)
            (fun _ => Ok tt).

Definition insightData (sessionId suffix range now : string) (b : BatchNumber)
    (aiInsight : Claude.AIInsightResponse) : Insight :=
  {| id := "insight_" ++ sessionId ++ suffix;
     sessionId := sessionId;
     batchNumber := b;
     questionRange := range;
     insight := Claude.insight aiInsight;
     challengeIdentified := Claude.challengeIdentified aiInsight;
     businessImpact := Claude.businessImpact aiInsight;
     confidence := Claude.confidence aiInsight;
     generatedAt := now |}.

Definition analyzeBatch1 (env : Env) (batch : BatchAnalysis) : Res JsError Insight :=
  aiInsight ← Claude.generateInsight (ai env)
    (Claude.mkInsightRequest (responses batch) Batch1 None
       (insight_user_info (b_userInfo batch)));
  let data := insightData (b_sessionId batch) "_1" "1-4" (now_iso env) Batch1 aiInsight in
  _ ← storeInsight env data;
  Ok data.

Definition analyzeBatch2 (env : Env) (batch : BatchAnalysis) : Res JsError Insight :=
  aiInsight ← Claude.generateInsight (ai env)
    (Claude.mkInsightRequest (responses batch) Batch2 (previousInsights batch)
       (insight_user_info (b_userInfo batch)));
  let data := insightData (b_sessionId batch) "_2" "5-9" (now_iso env) Batch2 aiInsight in
  _ ← storeInsight env data;
  Ok data.

Definition analyzeBatch3 (env : Env) (batch : BatchAnalysis) : Res JsError Insight :=
  aiInsight ← Claude.generateInsight (ai env)
    (Claude.mkInsightRequest (responses batch) Batch3 (previousInsights batch)
       (insight_user_info (b_userInfo batch)));
  let data := insightData (b_sessionId batch) "_3" "10-12" (now_iso env) Batch3 aiInsight in
  _ ← storeInsight env data;
  Ok data.

End InsightEngine.

(** ** SkillAssessmentEngine.generateFinalResults *)

Module SkillEngine.
Import Errors JS Types.

Record AssessmentData : Type := mkData {
  d_sessionId : string;
  d_responses : list AssessmentResponse;
  d_insights : list Insight;
  d_userInfo : UserInfo
}.

(** The [description] string of the level, a template over the two fields
    below, is left out. *)
Record CompetencyLevel : Type := mkLevel {
  level : json;
  score : jsnum
}.

Inductive LeadPriority : Set := lead_high | lead_medium | lead_low.
Inductive ImpactTimeline : Set := short_term | medium_term | long_term.

Record AssessmentResults : Type := mkResults {
  overallScore : jsnum;
  performanceLevel : CompetencyLevel;
  skillLevels : Claude.SkillLevels;
  challenges : json;
  recommendations : json;
  focusArea : json;
  revenueOpportunity : json;
  roiMultiplier : jsnum;
  isHighPriority : bool;
  leadPriority : LeadPriority;
  impactTimeline : ImpactTimeline;
  nextSteps : json;
  confidence : jsnum
}.

(** [items.some(c => c.priority === p)], left to right. *)
Fixpoint some_priority_items (p : string) (items : list json) : Res JsError bool :=
  match items with
  | [] => Ok false
  | c :: rest =>
      v ← get c "priority";
      match v with
      | Some (JStr s) => if String.eqb s p then Ok true else some_priority_items p rest
      | _ => some_priority_items p rest
      end
  end.

(** [challenges.some(...)]: only an array has the method. *)
Definition some_priority (p : string) (challenges : json) : Res JsError bool :=
  match challenges with
  | JArr items => some_priority_items p items
  | _ => Throw (type_error "challenges.some is not a function")
  end.

Definition determineLeadPriority (competencyLevel : CompetencyLevel) (challenges : json)
    : Res JsError LeadPriority :=
  critical ← (if lt (score competencyLevel) (num 40) then Ok true
              else some_priority "critical" challenges);
  if (critical : bool) then Ok lead_high
  else
    high ← (if lt (score competencyLevel) (num 60) then Ok true
            else some_priority "high" challenges);
    if (high : bool) then Ok lead_medium else Ok lead_low.

Definition determineImpactTimeline (competencyLevel : CompetencyLevel) : ImpactTimeline :=
  if lt (score competencyLevel) (num 40) then long_term
  else if lt (score competencyLevel) (num 70) then medium_term
  else short_term.

(** The body of [storeResults] is one [try] whose [catch] only logs. *)
Definition storeResults (db : Supabase.Db) (results : AssessmentResults) : Res JsError unit :=
  try_catch (let _ := Supabase.storeCompletedAssessment db in Ok tt)
            (fun _ => Ok tt).

Definition generateFinalResults (env : InsightEngine.Env) (assessmentData : AssessmentData)
    : Res JsError AssessmentResults :=
  let u := d_userInfo assessmentData in
  aiAssessment ← Claude.generateFinalAssessment (InsightEngine.ai env)
    (Claude.mkFinalRequest (d_responses assessmentData) (d_insights assessmentData)
       (Claude.mkFinalUserInfo (company u) (productName u) (businessModel u)
          (productDescription u)));
  let competencyLevel :=
    mkLevel (Claude.performanceLevel aiAssessment) (Claude.overallScore aiAssessment) in
  lead ← determineLeadPriority competencyLevel (Claude.challenges aiAssessment);
  let results :=
    {| overallScore := Claude.overallScore aiAssessment;
       performanceLevel := competencyLevel;
       skillLevels := Claude.skillLevels aiAssessment;
       challenges := Claude.challenges aiAssessment;
       recommendations := Claude.recommendations aiAssessment;
       focusArea := Claude.focusArea aiAssessment;
       revenueOpportunity := Claude.revenueOpportunity aiAssessment;
       roiMultiplier := Claude.roiMultiplier aiAssessment;
       isHighPriority := lt (Claude.overallScore aiAssessment) (num 60);
       leadPriority := lead;
       impactTimeline := determineImpactTimeline competencyLevel;
       nextSteps := Claude.nextSteps aiAssessment;
       confidence := Claude.a_confidence aiAssessment |} in
  _ ← storeResults (InsightEngine.db env) results;
  Ok results.

End SkillEngine.

(** ** AssessmentServiceLite *)

Module Lite.
Import Errors JS Types.

Inductive SessionStatus : Set :=
| in_progress
| completed
| insight_generated
| results_generated.

Record AssessmentSession : Type := mkSession {
  s_sessionId : string;
  s_userInfo : UserInfo;
  s_responses : list AssessmentResponse;
  s_insights : list Insight;
  s_status : SessionStatus;
  s_startedAt : string;
  s_completedAt : option string
}.

(** What one operation reads from outside: the collaborators of the
    engines, and the identifier [startAssessment] builds from the clock and
    [Math.random]. *)
Record Env : Type := mkEnv {
  engine : InsightEngine.Env;
  generated_sessionId : string
}.

Record StartResult : Set := mkStartResult {
  r_sessionId : string;
  r_success : bool;
  r_error : option string
}.

Record AddResult : Type := mkAddResult {
  add_success : bool;
  add_error : option string;
  (* the call made to realTimeInsightEngine, if any: which of
     analyzeBatch1/2/3, and its argument *)
  add_generator_call : option (BatchNumber * InsightEngine.BatchAnalysis)
}.

Record CompleteResult : Type := mkCompleteResult {
  c_success : bool;
  c_results : option SkillEngine.AssessmentResults;
  c_error : option string
}.

Definition startAssessment (env : Env) (activeSessions : gmap string AssessmentSession)
    (userInfo : UserInfo) : gmap string AssessmentSession * StartResult :=
  let sessionId := generated_sessionId env in
  let session :=
    mkSession sessionId userInfo [] [] in_progress
              (InsightEngine.now_iso (engine env)) None in
  let sessions := <[sessionId := session]> activeSessions in
  match Supabase.createAssessmentSession (InsightEngine.db (engine env)) with
  | Ok _ => (sessions, mkStartResult sessionId true None)
  | Throw e => (sessions, mkStartResult "" false (Some (err_message e)))
  end.

(** [l.slice(start, end)]. *)
Definition slice {A} (l : list A) (start end_ : nat) : list A :=
  take (end_ - start) (drop start l).

Definition set_insight (session : AssessmentSession) (i : Insight) : AssessmentSession :=
  mkSession (s_sessionId session) (s_userInfo session) (s_responses session)
            (s_insights session ++ [i]) insight_generated
            (s_startedAt session) (s_completedAt session).

Definition generateInsight (env : Env) (session : AssessmentSession)
    (batchNumber : BatchNumber) (questionRange : string)
    : AssessmentSession * option (BatchNumber * InsightEngine.BatchAnalysis) :=
  let startIndex := match batchNumber with Batch1 => 0 | Batch2 => 4 | Batch3 => 9 end%nat in
  let endIndex := match batchNumber with Batch1 => 4 | Batch2 => 9 | Batch3 => 12 end%nat in
  let batchResponses := slice (s_responses session) startIndex endIndex in
  let batch :=
    match batchNumber with
    | Batch1 =>
        InsightEngine.mkBatch batchResponses None (s_sessionId session)
                              (Some (s_userInfo session))
    | _ =>
        InsightEngine.mkBatch batchResponses (Some (s_insights session))
                              (s_sessionId session) (Some (s_userInfo session))
    end in
  let analysed :=
    match batchNumber with
    | Batch1 => InsightEngine.analyzeBatch1 (engine env) batch
    | Batch2 => InsightEngine.analyzeBatch2 (engine env) batch
    | Batch3 => InsightEngine.analyzeBatch3 (engine env) batch
    end in
  match analysed with
  | Ok i =>
      let _ := Supabase.updateAssessmentStatus (InsightEngine.db (engine env)) in
      (set_insight session i, Some (batchNumber, batch))
  | Throw _ => (session, Some (batchNumber, batch))
  end.

(** [insights.some(i => i.batchNumber === b)]. *)
Definition has_batch (b : BatchNumber) (insights : list Insight) : bool :=
  existsb (fun i => bool_decide (batchNumber i = b)) insights.

Definition checkForInsightGeneration (env : Env) (session : AssessmentSession)
    : AssessmentSession * option (BatchNumber * InsightEngine.BatchAnalysis) :=
  let responseCount := length (s_responses session) in
  if (responseCount =? 4)%nat && negb (has_batch Batch1 (s_insights session)) then
    generateInsight env session Batch1 "1-4"
  else if (responseCount =? 9)%nat && negb (has_batch Batch2 (s_insights session)) then
    generateInsight env session Batch2 "5-9"
  else if (responseCount =? 12)%nat && negb (has_batch Batch3 (s_insights session)) then
    generateInsight env session Batch3 "10-12"
  else (session, None).

Definition push_response (session : AssessmentSession) (r : AssessmentResponse)
    : AssessmentSession :=
  mkSession (s_sessionId session) (s_userInfo session) (s_responses session ++ [r])
            (s_insights session) (s_status session)
            (s_startedAt session) (s_completedAt session).

Definition addResponse (env : Env) (activeSessions : gmap string AssessmentSession)
    (sessionId : string) (response : AssessmentResponse)
    : gmap string AssessmentSession * AddResult :=
  match activeSessions !! sessionId with
  | None => (activeSessions, mkAddResult false (Some "Session not found") None)
  | Some session =>
      let session1 := push_response session response in
      match Supabase.storeAssessmentResponse (InsightEngine.db (engine env)) with
      | Throw e =>
          (<[sessionId := session1]> activeSessions,
           mkAddResult false (Some (err_message e)) None)
      | Ok _ =>
          let checked := checkForInsightGeneration env session1 in
          (<[sessionId := checked.1]> activeSessions,
           mkAddResult true None checked.2)
      end
  end.

Definition set_completed (session : AssessmentSession) (now : string) : AssessmentSession :=
  mkSession (s_sessionId session) (s_userInfo session) (s_responses session)
            (s_insights session) completed (s_startedAt session) (Some now).

Definition completeAssessment (env : Env) (activeSessions : gmap string AssessmentSession)
    (sessionId : string) : gmap string AssessmentSession * CompleteResult :=
  match activeSessions !! sessionId with
  | None => (activeSessions, mkCompleteResult false None (Some "Session not found"))
  | Some session =>
      if (length (s_responses session) <? 12)%nat then
        (activeSessions,
         mkCompleteResult false None (Some "Assessment not complete - need 12 responses"))
      else
        match SkillEngine.generateFinalResults (engine env)
                (SkillEngine.mkData (s_sessionId session) (s_responses session)
                                    (s_insights session) (s_userInfo session)) with
        | Throw e => (activeSessions, mkCompleteResult false None (Some (err_message e)))
        | Ok results =>
            let session1 := set_completed session (InsightEngine.now_iso (engine env)) in
            let _ := Supabase.updateAssessmentStatus (InsightEngine.db (engine env)) in
            (<[sessionId := session1]> activeSessions,
             mkCompleteResult true (Some results) None)
        end
  end.

(** The three caller-facing operations, each with the environment it runs
    in. *)
Inductive operation : Type :=
| StartAssessment (env : Env) (userInfo : UserInfo)
| AddResponse (env : Env) (sessionId : string) (response : AssessmentResponse)
| CompleteAssessment (env : Env) (sessionId : string).

Definition step (activeSessions : gmap string AssessmentSession) (o : operation)
    : gmap string AssessmentSession :=
  match o with
  | StartAssessment env userInfo => (startAssessment env activeSessions userInfo).1
  | AddResponse env sessionId response => (addResponse env activeSessions sessionId response).1
  | CompleteAssessment env sessionId => (completeAssessment env activeSessions sessionId).1
  end.

(** The session map after a sequence of operations on a new service. *)
Definition run (ops : list operation) : gmap string AssessmentSession :=
  fold_left step ops ∅.

Definition reachable (activeSessions : gmap string AssessmentSession) : Prop :=
  exists ops, activeSessions = run ops.

(** The response count at which the insight of a batch is generated. *)
Definition milestone (b : BatchNumber) : nat :=
  match b with Batch1 => 4 | Batch2 => 9 | Batch3 => 12 end.

(** What the operations maintain of every stored session: no two insights
    carry the same batch number, an insight is present only once the
    response count has reached the milestone of its batch, and every
    insight names the session it belongs to. *)
Definition insights_consistent (session : AssessmentSession) : Prop :=
  NoDup (batchNumber <$> s_insights session)
  /\ Forall (fun i => (milestone (batchNumber i) <= length (s_responses session))%nat)
            (s_insights session)
  /\ Forall (fun i => sessionId i = s_sessionId session) (s_insights session).

(** A session is stored under its own identifier. *)
Definition stored_consistent (key : string) (session : AssessmentSession) : Prop :=
  s_sessionId session = key /\ insights_consistent session.

(** The argument [generateInsight] builds for the engine. *)
Definition batch_of (session : AssessmentSession) (b : BatchNumber)
    : InsightEngine.BatchAnalysis :=
  InsightEngine.mkBatch
    (slice (s_responses session)
           (match b with Batch1 => 0 | Batch2 => 4 | Batch3 => 9 end)%nat
           (milestone b))
    (match b with Batch1 => None | _ => Some (s_insights session) end)
    (s_sessionId session) (Some (s_userInfo session)).

End Lite.

(** ** RateLimiter *)

Module Limiter.

(** One value of the static [limits] map. *)
Record window : Set := mkWindow {
  count : Z;
  resetTime : Z
}.

(** [!limit || now > limit.resetTime]. *)
Definition expired (limits : gmap string window) (key : string) (now : Z) : bool :=
  match limits !! key with
  | None => true
  | Some limit => now >? resetTime limit
  end.

(** [RateLimiter.checkLimit(key, maxRequests, windowMs)] at clock [now]. *)
Definition checkLimit (limits : gmap string window) (key : string)
    (maxRequests windowMs now : Z) : gmap string window * bool :=
  match limits !! key with
  | None => (<[key := mkWindow 1 (now + windowMs)]> limits, true)
  | Some limit =>
      if now >? resetTime limit then
        (<[key := mkWindow 1 (now + windowMs)]> limits, true)
      else if count limit >=? maxRequests then (limits, false)
      else (<[key := mkWindow (count limit + 1) (resetTime limit)]> limits, true)
  end.




Definition clearLimits (limits : gmap string window) : gmap string window := ∅.

(** Calls of [checkLimit] on one key at the given clock readings, one after
    the other. *)
Fixpoint checkLimit_all (limits : gmap string window) (key : string)
    (maxRequests windowMs : Z) (clock : list Z) : gmap string window * list bool :=
  match clock with
  | [] => (limits, [])
  | now :: clock' =>
      let r := checkLimit limits key maxRequests windowMs now in
      let rest := checkLimit_all r.1 key maxRequests windowMs clock' in
      (rest.1, r.2 :: rest.2)
  end.

End Limiter.

(** ** Runs of withRetry *)

Module RetryRun.
Import Errors.



End RetryRun.

(** ** CircuitBreaker instances *)

Module BreakerInstance.

(** An object built by [new CircuitBreaker(...)]: the constructor stores the
    options and always sets [key] to ['default']. *)
Record instance : Set := mkInstance {
  key : string;
  options : Breaker.options
}.

Definition new (failureThreshold recoveryTimeout successThreshold : Z) : instance :=
  mkInstance "default" (Breaker.mkOptions failureThreshold recoveryTimeout successThreshold).

(** The instance method delegates to the static one, on the static map. *)
Definition execute {T} (this : instance) (states : gmap string Breaker.entry)
    (c : Breaker.call T) : Breaker.result T :=
  Breaker.execute states (key this) c (options this).

(** Whether, from a failure count of [run], no [threshold] failures in a
    row occur in the outcomes the calls have. *)
Fixpoint failures_stay_below {T} (threshold run : Z) (calls : list (Breaker.call T)) : bool :=
  match calls with
  | [] => true
  | c :: calls' =>
      if is_ok (Breaker.operation c) then failures_stay_below threshold 0 calls'
      else (run + 1 <? threshold) && failures_stay_below threshold (run + 1) calls'
  end.

End BreakerInstance.

(** ** Reading numbers out of a payload *)

Module Payload.
Import JS.

(** Whether ToNumber settles the value without consulting the runtime:
    anything but a string, an array or an object. *)
Definition primitive (v : value) : bool :=
  match v with
  | Some (JStr _) | Some (JArr _) | Some (JObj _) => false
  | _ => true
  end.

(** [o.k] for an [o] that is not [null]. *)
Definition field (o : json) (k : string) : value :=
  match o with
  | JObj props => assoc k props
  | _ => None
  end.

(** The numeric fields of a final-assessment payload are all primitive. *)
Definition numeric_fields_primitive (parsed : json) : Prop :=
  Forall (fun k => primitive (field parsed k) = true)
         ["overallScore"; "roiMultiplier"; "confidence"]
  /\ Forall (fun k => primitive (get_opt (field parsed "skillLevels") k) = true)
            ["customerAnalysis"; "businessCommunication"; "revenueStrategy";
             "valueArticulation"; "strategicThinking"].

(** [n >= lo] on numbers: false for [NaN]. *)
Definition at_least (lo : Z) (n : jsnum) : Prop :=
  match n with
  | Some q => (inject_Z lo <= q)%Q
  | None => False
  end.

Fixpoint contains (c : ascii) (s : string) : bool :=
  match s with
  | EmptyString => false
  | String c' s' => Ascii.eqb c c' || contains c s'
  end.

End Payload.

(** ** AssessmentServiceLite: queries and maintenance *)

Module LiteQueries.
Import Errors JS Types Lite.

(** [this.activeSessions.get(sessionId) || null]. *)
Definition getSession (activeSessions : gmap string AssessmentSession) (sessionId : string)
    : option AssessmentSession :=
  activeSessions !! sessionId.

Definition getSessionInsights (activeSessions : gmap string AssessmentSession)
    (sessionId : string) : list Insight :=
  match activeSessions !! sessionId with
  | Some session => s_insights session
  | None => []
  end.

Record Progress : Set := mkProgress {
  totalQuestions : Z;
  answeredQuestions : Z;
  progressPercentage : Z;
  currentBatch : Z;
  insightsGenerated : Z
}.

(** [Math.round]: the nearest integer, halves upwards. *)
Definition Math_round (q : Q) : Z := Qfloor (q + (1 # 2)).

Definition Math_ceil (q : Q) : Z := Qceiling q.

(** The quotients are taken exactly.  The source takes them in double
    precision; for the length of an array the two agree, the exact value
    of [n / 12 * 100] being a multiple of one third and so never near a
    half. *)
Definition getAssessmentProgress (activeSessions : gmap string AssessmentSession)
    (sessionId : string) : Progress :=
  match activeSessions !! sessionId with
  | None => mkProgress 12 0 0 1 0
  | Some session =>
      let answeredQuestions := Z.of_nat (length (s_responses session)) in
      let progressPercentage := Math_round (inject_Z answeredQuestions / 12 * 100) in
      let currentBatch := Z.min 3 (Math_ceil (inject_Z answeredQuestions / 4)) in
      let insightsGenerated := Z.of_nat (length (s_insights session)) in
      mkProgress 12 answeredQuestions progressPercentage currentBatch insightsGenerated
  end.

(** What [cleanupCompletedSessions] reads from outside: the clock, and the
    time value of a date string ([None] for an invalid date). *)
Record Clock : Type := mkClock {
  now_ms : Z;
  Date_time : string -> option Z
}.

(** The test under which a session is deleted: completed, with a
    completion date that is a non-empty string and lies more than an hour
    back. *)
Definition stale (clock : Clock) (session : AssessmentSession) : bool :=
  match s_status session, s_completedAt session with
  | completed, Some completedAt =>
      negb (String.eqb completedAt "")
      && match Date_time clock completedAt with
         | Some t => t <? now_ms clock - 60 * 60 * 1000
         | None => false
         end
  | _, _ => false
  end.

Definition cleanupCompletedSessions (clock : Clock)
    (activeSessions : gmap string AssessmentSession) : gmap string AssessmentSession :=
  filter (fun entry => stale clock entry.2 = false) activeSessions.

(** The status of a session agrees with what the session holds. *)
Definition status_consistent (session : AssessmentSession) : Prop :=
  match s_status session with
  | in_progress => s_insights session = [] /\ s_completedAt session = None
  | insight_generated => s_insights session <> [] /\ s_completedAt session = None
  | completed => (12 <= length (s_responses session))%nat /\ s_completedAt session <> None
  | results_generated => False
  end.

(** The batches whose milestone a response count has reached, in order. *)
Definition batches_due (n : nat) : list BatchNumber :=
  (if (4 <=? n)%nat then [Batch1] else [])
  ++ (if (9 <=? n)%nat then [Batch2] else [])
  ++ (if (12 <=? n)%nat then [Batch3] else []).

(** The insights of a session are those of the milestones reached. *)
Definition due (session : AssessmentSession) : Prop :=
  batchNumber <$> s_insights session = batches_due (length (s_responses session)).

(** The response write of the operation returns normally. *)
Definition write_succeeds (o : operation) : Prop :=
  match o with
  | AddResponse env _ _ =>
      Supabase.storeAssessmentResponse (InsightEngine.db (engine env)) = Ok tt
  | _ => True
  end.

(** The operation starts a session under the identifier [key], replacing
    whatever was stored there. *)
Definition restarts (key : string) (o : operation) : bool :=
  match o with
  | StartAssessment env _ => String.eqb (generated_sessionId env) key
  | _ => false
  end.

End LiteQueries.

(** ** SkillAssessmentEngine: the request it sends *)

Module SkillRequest.
Import JS Types.

(** The argument [generateFinalResults] builds for the AI service. *)
Definition final_request (assessmentData : SkillEngine.AssessmentData)
    : Claude.FinalAssessmentRequest :=
  let u := SkillEngine.d_userInfo assessmentData in
  Claude.mkFinalRequest (SkillEngine.d_responses assessmentData)
    (SkillEngine.d_insights assessmentData)
    (Claude.mkFinalUserInfo (company u) (productName u) (businessModel u)
       (productDescription u)).


End SkillRequest.

(** ** RealTimeInsightService *)

Module RealTime.
Import Errors JS Types.

(** What a rejected promise or a [throw] inside [callClaudeAPI] carries,
    as far as the [catch] tells them apart: [error.name === 'AbortError'],
    or any other thrown value. *)
Inductive Thrown : Set :=
| AbortError
| Other (e : JsError).

(** What [fetch] resolved to: the [ok] flag, the status as the template
    prints it, and the outcomes of reading the body as text and as JSON. *)
Record Response : Type := mkResponse {
  ok : bool;
  status : string;
  text : Res Thrown string;
  json_body : Res Thrown json
}.

Record UserInfo : Set := mkUserInfo {
  company : string;
  productName : string;
  businessModel : string
}.

Record InsightData : Type := mkInsightData {
  id : string;
  sessionId : string;
  batchNumber : BatchNumber;
  questionRange : string;
  insight : value;
  challengeIdentified : value;
  businessImpact : value;
  confidence : jsnum;
  generatedAt : string
}.

Record Batch : Type := mkBatch {
  responses : list AssessmentResponse;
  b_sessionId : string;
  b_userInfo : option UserInfo;
  previousInsights : option (list InsightData)
}.

(** The service instance together with what one call reads from outside.
    The prompt is a string template over its four arguments; its text
    plays no part below and is taken as given.  [fetch] is the POST to the
    messages endpoint with the given prompt, under the 30 second abort
    timer. *)
Record Env : Type := mkEnv {
  apiKey : option string;
  buildPrompt : list AssessmentResponse -> BatchNumber -> UserInfo
                -> option (list InsightData) -> string;
  fetch : string -> Res Thrown Response;
  runtime : Runtime;
  now_iso : string
}.

Definition isAIConfigured (env : Env) : bool :=
  match apiKey env with
  | Some key => negb (String.eqb key "") && negb (String.eqb key "sk-ant-api03-placeholder")
  | None => false
  end.

(** [v[0]]: the first element of an array, the first character of a
    string, the property named 0 of an object. *)
Definition first (v : json) : value :=
  match v with
  | JArr items => head items
  | JStr (String c _) => Some (JStr (String c EmptyString))
  | JObj props => assoc "0" props
  | _ => None
  end.

Definition lift {A} (r : Res JsError A) : Res Thrown A :=
  match r with
  | Ok a => Ok a
  | Throw e => Throw (Other e)
  end.

(** The [try] block of [callClaudeAPI]; the value returned is whatever
    truthy value [result.content[0].text] holds. *)
Definition callClaudeAPI_try (env : Env) (prompt : string) : Res Thrown json :=
  response ← fetch env prompt;
  if negb (ok response) then
    errorText ← text response;
    Throw (Other (mkError PlainError
                    ("ClaudeAI API error (" ++ status response ++ "): " ++ errorText)))
  else
    result ← json_body response;
    content ← lift (get result "content");
    let invalid := Throw (Other (mkError PlainError "Invalid response from ClaudeAI API")) in
    match content with
    | Some c =>
        if negb (truthy content) then invalid
        else match first c with
             | Some c0 =>
                 if negb (truthy (Some c0)) then invalid
                 else
                   t ← lift (get c0 "text");
                   match t with
                   | Some aiText => if truthy t then Ok aiText else invalid
                   | None => invalid
                   end
             | None => invalid
             end
    | None => invalid
    end.

Definition callClaudeAPI (env : Env) (prompt : string) : Res JsError json :=
  if negb (isAIConfigured env) then
    Throw (mkError PlainError "ClaudeAI API key not configured")
  else
    match callClaudeAPI_try env prompt with
    | Ok aiText => Ok aiText
    | Throw AbortError =>
        Throw (mkError PlainError "Anthropic API call timed out after 30 seconds")
    | Throw (Other error) => Throw error
    end.

(** [parseAIResponse] on what [callClaudeAPI] returned: only a string has
    the [match] method. *)
Definition parseAIResponse (env : Env) (aiText : json)
    : Res JsError InsightService.ParsedInsight :=
  match aiText with
  | JStr s => InsightService.parseAIResponse (runtime env) s
  | _ => Throw (type_error "aiText.match is not a function")
  end.

Definition unknown_user : UserInfo :=
  mkUserInfo "Unknown Company" "Unknown Product" "Unknown Model".

Definition insightData (env : Env) (batch : Batch) (suffix range : string)
    (b : BatchNumber) (aiInsight : InsightService.ParsedInsight) : InsightData :=
  {| id := "insight_" ++ b_sessionId batch ++ suffix;
     sessionId := b_sessionId batch;
     batchNumber := b;
     questionRange := range;
     insight := InsightService.insight aiInsight;
     challengeIdentified := InsightService.challengeIdentified aiInsight;
     businessImpact := InsightService.businessImpact aiInsight;
     confidence := InsightService.confidence aiInsight;
     generatedAt := now_iso env |}.

Definition analyzeBatch1 (env : Env) (batch : Batch) : Res JsError InsightData :=
  let prompt :=
    buildPrompt env (responses batch) Batch1
                (default unknown_user (b_userInfo batch)) None in
  aiText ← callClaudeAPI env prompt;
  aiInsight ← parseAIResponse env aiText;
  Ok (insightData env batch "_1" "1-4" Batch1 aiInsight).

Definition analyzeBatch2 (env : Env) (batch : Batch) : Res JsError InsightData :=
  let prompt :=
    buildPrompt env (responses batch) Batch2
                (default unknown_user (b_userInfo batch)) (previousInsights batch) in
  aiText ← callClaudeAPI env prompt;
  aiInsight ← parseAIResponse env aiText;
  Ok (insightData env batch "_2" "5-9" Batch2 aiInsight).

Definition analyzeBatch3 (env : Env) (batch : Batch) : Res JsError InsightData :=
  let prompt :=
    buildPrompt env (responses batch) Batch3
                (default unknown_user (b_userInfo batch)) (previousInsights batch) in
  aiText ← callClaudeAPI env prompt;
  aiInsight ← parseAIResponse env aiText;
  Ok (insightData env batch "_3" "10-14" Batch3 aiInsight).

(** The method the insight controller calls for a batch, and the prompt
    that method sends. *)
Definition analyzeBatch (b : BatchNumber) : Env -> Batch -> Res JsError InsightData :=
  match b with
  | Batch1 => analyzeBatch1
  | Batch2 => analyzeBatch2
  | Batch3 => analyzeBatch3
  end.

Definition prompt_of (b : BatchNumber) (env : Env) (batch : Batch) : string :=
  buildPrompt env (responses batch) b (default unknown_user (b_userInfo batch))
              (match b with Batch1 => None | _ => previousInsights batch end).

Definition range_of (b : BatchNumber) : string :=
  match b with Batch1 => "1-4" | Batch2 => "5-9" | Batch3 => "10-14" end.

End RealTime.

(** ** ValidationService *)

Module Validation.
Import JS.

(** A JS string, as its UTF-16 code units. *)
Definition jsstring : Type := list Z.

(** A value for which [typeof] is ['number']. *)
Inductive number : Set :=
| Finite (q : Q)
| NaN
| PosInfinity
| NegInfinity.

Inductive Result (A : Type) : Type :=
| Success (data : A)
| Failure (errors : list string).

Arguments Success {A} data.
Arguments Failure {A} errors.

(** What a validator or [validate] throws: the [ValidationError] of the
    middleware, or the built-in [TypeError]. *)
Inductive Thrown : Set :=
| ValidationError (message : string)
| TypeError (message : string).

(** The receiver of a method call: [None] when the method is called as a
    plain function, where [this] is [undefined]. *)
Definition receiver : Set := option unit.

(** [this.m]: the property read throws on [undefined]. *)
Definition this_method (this : receiver) (m : string) : Res Thrown unit :=
  match this with
  | Some _ => Ok tt
  | None =>
      Throw (TypeError ("Cannot read properties of undefined (reading '" +:+ m +:+ "')"))
  end.

(** The character class [[a-zA-Z0-9_-]]. *)
Definition id_char (u : Z) : bool :=
  (97 <=? u) && (u <=? 122) || (65 <=? u) && (u <=? 90) || (48 <=? u) && (u <=? 57)
  || (u =? 95) || (u =? 45).

(** White space and line terminators, the code units [trim] removes. *)
Definition is_space (u : Z) : bool :=
  (9 <=? u) && (u <=? 13) || (u =? 32) || (u =? 160) || (u =? 5760)
  || (8192 <=? u) && (u <=? 8202) || (u =? 8232) || (u =? 8233) || (u =? 8239)
  || (u =? 8287) || (u =? 12288) || (u =? 65279).

Fixpoint trimStart (s : jsstring) : jsstring :=
  match s with
  | [] => []
  | u :: s' => if is_space u then trimStart s' else s
  end.

Fixpoint trimEnd (s : jsstring) : jsstring :=
  match s with
  | [] => []
  | u :: s' =>
      match trimEnd s' with
      | [] => if is_space u then [] else [u]
      | t => u :: t
      end
  end.

Definition trim (s : jsstring) : jsstring := trimEnd (trimStart s).

(** The argument is a string or not ([None]); a string is falsy when
    empty. *)
Definition validateSessionId (sessionId : option jsstring) : Result jsstring :=
  match sessionId with
  | None | Some [] => Failure ["Session ID is required and must be a string"]
  | Some s =>
      if (Z.of_nat (length s) <? 10) || (100 <? Z.of_nat (length s)) then
        Failure ["Session ID must be between 10 and 100 characters"]
      else if negb (forallb id_char s) then
        Failure ["Session ID can only contain letters, numbers, hyphens, and underscores"]
      else Success s
  end.

(** [toISOString] gives [new Date(s).toISOString()], or [None] for an
    invalid date. *)
Definition validateISODate (toISOString : jsstring -> option jsstring)
    (dateString : option jsstring) : Result jsstring :=
  match dateString with
  | None | Some [] => Failure ["Date is required and must be a string"]
  | Some s =>
      match toISOString s with
      | None => Failure ["Invalid date format. Expected ISO 8601 format"]
      | Some iso =>
          if bool_decide (iso = s) then Success s
          else Failure ["Date must be in ISO 8601 format (YYYY-MM-DDTHH:mm:ss.sssZ)"]
      end
  end.

Definition is_integer (q : Q) : bool := Qeq_bool q (inject_Z (Qfloor q)).

(** The argument is a number or not ([None]). *)
Definition validateScore (score : option number) (fieldName : string) : Result number :=
  match score with
  | None => Failure [fieldName +:+ " must be a number"]
  | Some NaN => Failure [fieldName +:+ " must be an integer"]
  | Some PosInfinity | Some NegInfinity => Failure [fieldName +:+ " must be between 0 and 100"]
  | Some (Finite q) =>
      if negb (Qle_bool 0%Q q) || negb (Qle_bool q 100%Q) then
        Failure [fieldName +:+ " must be between 0 and 100"]
      else if negb (is_integer q) then Failure [fieldName +:+ " must be an integer"]
      else Success (Finite q)
  end.

Definition validateString (value : option jsstring) (fieldName : string)
    (minLength maxLength : Z) : Result jsstring :=
  match value with
  | None | Some [] => Failure [fieldName +:+ " is required and must be a string"]
  | Some s =>
      let trimmed := trim s in
      if Z.of_nat (length trimmed) <? minLength then
        Failure [fieldName +:+ " must be at least " +:+ pretty minLength +:+ " characters long"]
      else if maxLength <? Z.of_nat (length trimmed) then
        Failure [fieldName +:+ " must be less than " +:+ pretty maxLength +:+ " characters long"]
      else Success trimmed
  end.

(** [result.success ? [] : result.errors || []]. *)
Definition errors_of {A} (r : Result A) : list string :=
  match r with
  | Success _ => []
  | Failure errors => errors
  end.

(** The fields a validator reads off its argument; reading them off
    [null], [undefined] (through [?.]) or a primitive gives [undefined]
    throughout. *)
Record StartInput : Type := mkStartInput {
  sessionId : option jsstring;
  startTime : option jsstring
}.

Record StartData : Type := mkStartData {
  d_sessionId : jsstring;
  d_startTime : jsstring
}.

Definition validateAssessmentStart (toISOString : jsstring -> option jsstring)
    (this : receiver) (data : StartInput) : Res Thrown (Result StartData) :=
  _ ← this_method this "validateSessionId";
  let sessionIdResult := validateSessionId (sessionId data) in
  let startTimeResult := validateISODate toISOString (startTime data) in
  match sessionIdResult, startTimeResult with
  | Success s, Success t => Ok (Success (mkStartData s t))
  | _, _ => Ok (Failure (errors_of sessionIdResult ++ errors_of startTimeResult))
  end.

Record ResultsInput : Type := mkResultsInput {
  buyerScore : option number;
  techScore : option number;
  overallScore : option number;
  qualification : option jsstring
}.

Record ResultsData : Type := mkResultsData {
  d_buyerScore : number;
  d_techScore : number;
  d_overallScore : number;
  d_qualification : jsstring
}.

(** The argument is [None] when it is falsy. *)
Definition validateAssessmentResults (this : receiver) (results : option ResultsInput)
    : Res Thrown (Result ResultsData) :=
  match results with
  | None => Ok (Failure ["Assessment results are required"])
  | Some r =>
      _ ← this_method this "validateScore";
      let buyerScoreResult := validateScore (buyerScore r) "Buyer Score" in
      let techScoreResult := validateScore (techScore r) "Tech Score" in
      let overallScoreResult := validateScore (overallScore r) "Overall Score" in
      let qualificationResult := validateString (qualification r) "Qualification" 1 100 in
      match buyerScoreResult, techScoreResult, overallScoreResult, qualificationResult with
      | Success b, Success t, Success o, Success q => Ok (Success (mkResultsData b t o q))
      | _, _, _, _ =>
          Ok (Failure (errors_of buyerScoreResult ++ errors_of techScoreResult
                       ++ errors_of overallScoreResult ++ errors_of qualificationResult))
      end
  end.

(** [errors.join(', ')]. *)
Fixpoint join (errors : list string) : string :=
  match errors with
  | [] => ""
  | [e] => e
  | e :: rest => e +:+ ", " +:+ join rest
  end.

Definition validate {A B} (data : A) (validator : A -> Res Thrown (Result B))
    : Res Thrown B :=
  result ← validator data;
  match result with
  | Success d => Ok d
  | Failure errors => Throw (ValidationError ("Validation failed: " +:+ join errors))
  end.

(** An integer score within the bounds. *)
Definition valid_score (n : number) : Prop :=
  match n with
  | Finite q => exists z : Z, (q == inject_Z z)%Q /\ 0 <= z <= 100
  | _ => False
  end.

(** No white space at either end. *)
Definition trimmed (s : jsstring) : Prop :=
  match s with
  | [] => True
  | u :: _ => is_space u = false /\ (exists v, last s = Some v /\ is_space v = false)
  end.

End Validation.

(** ** Concrete inputs used in examples *)

Module Samples.
Import Errors JS Types.

Definition external_error : JsError :=
  mkError ExternalServiceError "External service error: unreachable".

Definition validation_error : JsError :=
  mkError ValidationError "Session ID is required".

Definition failing_call (now : Z) : Breaker.call unit :=
  Breaker.mkCall now (Throw external_error) now.

Definition succeeding_call (now : Z) : Breaker.call unit :=
  Breaker.mkCall now (Ok tt) now.

(** Five failures in a row, then a successful probe after the recovery
    timeout. *)
Definition opened_then_probed : list (Breaker.call unit) :=
  [ failing_call 1; failing_call 2; failing_call 3; failing_call 4; failing_call 5;
    succeeding_call 70000 ].

(** A configured service whose endpoint answers with a fixed payload. *)
Definition answering (payload : json) (random : Q) : Claude.Env :=
  Claude.mkEnv (Some "sk-ant-key")
    (fun _ => "insight prompt") (fun _ => "final assessment prompt")
    (fun _ _ => Ok (Claude.mkFetchResponse true "200 OK" (Ok (Some "{}"))))
    random
    (mkRuntime (fun _ => Some payload) (fun _ => None)).

(** A configured service whose endpoint cannot be reached. *)
Definition unreachable (random : Q) : Claude.Env :=
  Claude.mkEnv (Some "sk-ant-key")
    (fun _ => "insight prompt") (fun _ => "final assessment prompt")
    (fun _ _ => Throw external_error)
    random
    (mkRuntime (fun _ => None) (fun _ => None)).

(** A service without credential. *)
Definition unconfigured (random : Q) : Claude.Env :=
  Claude.mkEnv None
    (fun _ => "insight prompt") (fun _ => "final assessment prompt")
    (fun _ _ => Throw external_error)
    random
    (mkRuntime (fun _ => None) (fun _ => None)).

Definition insight_payload (confidence : Q) : json :=
  JObj [ ("challengeIdentified", JStr "Buyer Conversations Challenge");
         ("insight", JStr "Deals stall after the technical demo.");
         ("businessImpact", JStr "Losing deals to competitors");
         ("confidence", JNum confidence);
         ("reasoning", JStr "Low scores on buyer questions") ].


Definition acme : Claude.InsightUserInfo :=
  Claude.mkInsightUserInfo "Acme" "Rocket" "B2B SaaS".


Definition first_batch_request : Claude.AssessmentInsightRequest :=
  Claude.mkInsightRequest [] Batch1 None acme.

Definition db_ok : Supabase.Db :=
  Supabase.mkDb true (Ok tt) (Ok tt) (Ok tt) (Ok tt).


Definition session_key : string := "session_1761350400000_k3x9q2m1z".

(** Everything works but the AI endpoint, which cannot be reached. *)
Definition ai_outage : Lite.Env :=
  Lite.mkEnv
    (InsightEngine.mkEnv (unreachable (1 # 2)) db_ok "2025-10-25T00:00:00.000Z")
    session_key.


Definition founder : UserInfo :=
  mkUserInfo "founder@acme.test" "Acme" "Rocket" "Launch tooling" "B2B SaaS".

Definition answer (n : Z) : AssessmentResponse :=
  mkResponse "q" "How well do you know your buyer?" (inl (inject_Z n)) scale 0.

Definition add (n : Z) : Lite.operation := Lite.AddResponse ai_outage session_key (answer n).

Definition three_answers : list Lite.operation :=
  [ Lite.StartAssessment ai_outage founder; add 1; add 2; add 3 ].

Definition twelve_answers : list Lite.operation :=
  three_answers ++ [ add 4; add 5; add 1; add 2; add 3; add 4; add 5; add 1; add 2 ].

End Samples.

(** ** Further concrete inputs *)

Module Cases.
Import Errors JS Types.



Definition flaky : list (Breaker.call unit) :=
  [ Samples.failing_call 1; Samples.failing_call 2; Samples.failing_call 3;
    Samples.failing_call 4; Samples.succeeding_call 5;
    Samples.failing_call 6; Samples.failing_call 7; Samples.failing_call 8;
    Samples.failing_call 9; Samples.succeeding_call 10 ].

(** Twelve answers and then the completion of the session. *)
Definition completed_run : list Lite.operation :=
  Samples.twelve_answers ++ [ Lite.CompleteAssessment Samples.ai_outage Samples.session_key ].

(** A payload whose numbers all lie outside their ranges. *)
Definition overreaching_payload : json :=
  JObj [ ("overallScore", JNum 150);
         ("skillLevels", JObj [ ("customerAnalysis", JNum 12);
                                ("businessCommunication", JNum (-1));
                                ("revenueStrategy", JBool true) ]);
         ("roiMultiplier", JNum 1);
         ("confidence", JNum 10) ].

(** A payload whose challenges are a text and not a list. *)
Definition challenges_as_text : json :=
  JObj [ ("overallScore", JNum 80); ("challenges", JStr "none") ].

(** A payload with a low score and one critical challenge. *)
Definition struggling_payload : json :=
  JObj [ ("overallScore", JNum 30);
         ("challenges", JArr [ JObj [ ("name", JStr "Buyer Conversations");
                                      ("priority", JStr "critical") ] ]) ].

Definition engine_answering (payload : json) : InsightEngine.Env :=
  InsightEngine.mkEnv (Samples.answering payload 0) Samples.db_ok "2025-10-25T00:00:00.000Z".

Definition twelve_responses : SkillEngine.AssessmentData :=
  SkillEngine.mkData Samples.session_key (repeat (Samples.answer 3) 12) [] Samples.founder.

(** The body of an answer of the messages endpoint that carries [text]. *)
Definition message_body (text : string) : json :=
  JObj [ ("content", JArr [ JObj [ ("type", JStr "text"); ("text", JStr text) ] ]) ].

(** A configured insight service whose endpoint answers with a text that
    parses to [payload]. *)
Definition service_answering (payload : json) : RealTime.Env :=
  RealTime.mkEnv (Some "sk-ant-key") (fun _ _ _ _ => "prompt")
    (fun _ => Ok (RealTime.mkResponse true "200" (Ok "body") (Ok (message_body "{}"))))
    (mkRuntime (fun _ => Some payload) (fun _ => None))
    "2025-10-25T00:00:00.000Z".

(** The insight service with the placeholder credential. *)
Definition service_with_placeholder : RealTime.Env :=
  RealTime.mkEnv (Some "sk-ant-api03-placeholder") (fun _ _ _ _ => "prompt")
    (fun _ => Ok (RealTime.mkResponse true "200" (Ok "body") (Ok (message_body "{}"))))
    (mkRuntime (fun _ => Some (Samples.insight_payload 85)) (fun _ => None))
    "2025-10-25T00:00:00.000Z".

Definition first_batch : RealTime.Batch :=
  RealTime.mkBatch [ Samples.answer 1; Samples.answer 2; Samples.answer 3; Samples.answer 4 ]
                   Samples.session_key None None.

(** The code units of [  Acme ], with spaces around. *)
Definition padded_company : Validation.jsstring := [32; 32; 65; 99; 109; 101; 32].

Definition submitted_results : Validation.ResultsInput :=
  Validation.mkResultsInput (Some (Validation.Finite 55)) (Some (Validation.Finite 40))
    (Some (Validation.Finite 48)) (Some [32; 72; 111; 116; 32]).

End Cases.

(** * Properties *)

(** ** RetryHandler *)

Section RetryFacts.
Import Errors Retry.
Context {T : Type}.
Variable operation : nat -> Res JsError T.
Variables (maxRetries delayMs backoffMultiplier : Z).





Lemma loop_first_non_retryable (e : JsError) (remaining : nat) (lastError : option JsError) :
  operation 0%nat = Throw e ->
  non_retryable e = true ->
  loop operation maxRetries delayMs backoffMultiplier (S remaining) 0 lastError
  = mkRun (Throw (Some e)) [EvInvoke 0].
Proof.
  intros Hop Hnon. cbn [loop]. rewrite Hop, Hnon.
  now destruct (Z.of_nat 0 =? maxRetries - 1).
Qed.

End RetryFacts.



Example withRetry_second_attempt_succeeds :
  Retry.withRetry
    (fun n => if Nat.eqb n 0 then Throw Samples.external_error else Ok n) 3 1000 2
  = Retry.mkRun (Ok 1%nat) [Retry.EvInvoke 0; Retry.EvSleep 1000; Retry.EvInvoke 1].
Proof. reflexivity. Qed.

Example withRetry_no_attempts :
  Retry.withRetry (fun _ : nat => @Throw Errors.JsError unit Samples.external_error) 0 1000 2
  = Retry.mkRun (Throw None) [].
Proof. reflexivity. Qed.




(** C8.  When the first invocation raises a Validation, Authentication or
    Authorization error and [maxRetries >= 1], the operation is invoked
    exactly once, no sleep is made, and that same error is re-raised. *)
Theorem withRetry_non_retryable_once
    (T : Type) (operation : nat -> Res Errors.JsError T) (e : Errors.JsError)
    (maxRetries delayMs backoffMultiplier : Z) :
  1 <= maxRetries ->
  operation 0%nat = Throw e ->
  Errors.err_class e = Errors.ValidationError
  \/ Errors.err_class e = Errors.AuthenticationError
  \/ Errors.err_class e = Errors.AuthorizationError ->
  let r := Retry.withRetry operation maxRetries delayMs backoffMultiplier in
  Retry.trace r = [Retry.EvInvoke 0]
  /\ Retry.invocations r = 1%nat
  /\ Retry.delays r = []
  /\ Retry.outcome r = Throw (Some e).
Proof.
  intros Hmax Hop Hclass r.
  assert (Hnon : Retry.non_retryable e = true).
  { unfold Retry.non_retryable, Errors.instanceof_ValidationError,
      Errors.instanceof_AuthenticationError, Errors.instanceof_AuthorizationError.
    destruct Hclass as [-> | [-> | ->]]; reflexivity. }
  subst r. unfold Retry.withRetry.
  replace (Z.to_nat maxRetries) with (S (Z.to_nat (maxRetries - 1))) by lia.
  rewrite (loop_first_non_retryable operation maxRetries delayMs backoffMultiplier e _ _ Hop Hnon).
  repeat split.
Qed.

Lemma withRetry_non_retryable_once_witness :
  1 <= 3
  /\ Retry.invocations
       (Retry.withRetry (fun _ : nat => @Throw Errors.JsError unit Samples.validation_error) 3 1000 2) = 1%nat
  /\ Retry.outcome
       (Retry.withRetry (fun _ : nat => @Throw Errors.JsError unit Samples.validation_error) 3 1000 2)
     = Throw (Some Samples.validation_error).
Proof.
  pose proof (withRetry_non_retryable_once unit
                (fun _ => Throw Samples.validation_error) Samples.validation_error 3 1000 2
                ltac:(lia) eq_refl (or_introl eq_refl)) as (_ & Hn & _ & Ho).
  split; [lia|]. split; [exact Hn | exact Ho].
Defined.

(** ** CircuitBreaker *)

Lemma gtb_false (n m : Z) : n <= m -> (n >? m) = false.
Proof. intros H. rewrite Z.gtb_ltb. now apply Z.ltb_ge. Qed.

Lemma gtb_true (n m : Z) : m < n -> (n >? m) = true.
Proof. intros H. rewrite Z.gtb_ltb. now apply Z.ltb_lt. Qed.

Lemma geb_true (n m : Z) : m <= n -> (n >=? m) = true.
Proof. intros H. rewrite Z.geb_leb. now apply Z.leb_le. Qed.

Lemma geb_false (n m : Z) : n < m -> (n >=? m) = false.
Proof. intros H. rewrite Z.geb_leb. now apply Z.leb_gt. Qed.

Section BreakerFacts.
Import Errors Breaker.
Context {T : Type}.
Variable opts : options.
Variable key : string.

Lemma current_insert (states : gmap string entry) (st : entry) :
  current (<[key := st]> states) key = st.
Proof. unfold current. now rewrite lookup_insert_eq. Qed.

Lemma gate_passes (now : Z) (st : entry) :
  state st <> open -> gate opts now st = Some st.
Proof. unfold gate. destruct (state st); congruence. Qed.

Lemma gate_counts (now : Z) (st st1 : entry) :
  gate opts now st = Some st1 ->
  failureCount st1 = failureCount st /\ state st1 <> open.
Proof.
  unfold gate. destruct (state st) eqn:Hs.
  - intros [= <-]. split; congruence.
  - destruct (_ >? _); [|discriminate]. intros [= <-]. split; [reflexivity|discriminate].
  - intros [= <-]. split; congruence.
Qed.

Lemma on_failure_spec (now : Z) (st : entry) :
  failureCount (on_failure opts now st) = failureCount st + 1
  /\ lastFailureTime (on_failure opts now st) = now
  /\ successCount (on_failure opts now st) = successCount st
  /\ state (on_failure opts now st)
     = if failureCount st + 1 >=? failureThreshold opts then open else state st.
Proof. unfold on_failure. cbn. destruct (_ >=? _); cbn; auto. Qed.

Lemma on_success_spec (st : entry) :
  failureCount (on_success opts st) = 0
  /\ successCount (on_success opts st) = successCount st + 1
  /\ state (on_success opts st)
     = match state st with
       | half_open => if successCount st + 1 >=? successThreshold opts
                      then closed else half_open
       | s => s
       end.
Proof. unfold on_success. cbn. destruct (state st); cbn; auto. destruct (_ >=? _); cbn; auto. Qed.

(** A call met by an open circuit whose timeout has not run out is
    refused: nothing is invoked and nothing is written. *)
Lemma execute_refused (states : gmap string entry) (c : call T) :
  state (current states key) = open ->
  now_at_entry c - lastFailureTime (current states key) <= recoveryTimeout opts ->
  execute states key c opts = mkResult states (Throw circuit_open_error) false.
Proof.
  intros Hopen Hwait. unfold execute, gate. fold (current states key). rewrite Hopen.
  now rewrite gtb_false by lia.
Qed.

Lemma execute_failed (states : gmap string entry) (c : call T) :
  invoked_and_failed (execute states key c opts) ->
  exists st1,
    gate opts (now_at_entry c) (current states key) = Some st1
    /\ states_after (execute states key c opts)
       = <[key := on_failure opts (now_at_failure c) st1]> states.
Proof.
  unfold invoked_and_failed, execute. fold (current states key).
  destruct (gate opts (now_at_entry c) (current states key)) as [st1|]; cbn.
  - destruct (operation c); cbn; intros [_ H]; [discriminate|]. now exists st1.
  - intros [H _]. discriminate.
Qed.

Lemma execute_succeeds (states : gmap string entry) (c : call T) :
  state (current states key) <> open ->
  is_ok (operation c) = true ->
  invoked_and_succeeded (execute states key c opts)
  /\ states_after (execute states key c opts)
     = <[key := on_success opts (current states key)]> states.
Proof.
  intros Hs Hok. unfold execute. fold (current states key).
  rewrite (gate_passes _ _ Hs).
  destruct (operation c); [|discriminate]. cbn. repeat split.
Qed.

(** After a run of calls that were all invoked and all failed, the failure
    count has grown by their number, the time of the last one is recorded,
    and the circuit is open as soon as the threshold is reached. *)
Lemma failures_accumulate (calls : list (call T)) :
  forall (states : gmap string entry) (c : call T),
    Forall invoked_and_failed (execute_all states key (calls ++ [c]) opts).2 ->
    let st := current (execute_all states key (calls ++ [c]) opts).1 key in
    failureCount st = failureCount (current states key) + Z.of_nat (length calls) + 1
    /\ lastFailureTime st = now_at_failure c
    /\ (failureThreshold opts <= failureCount st -> state st = open).
Proof.
  induction calls as [|c0 calls IH]; intros states c Hall; cbn in Hall |- *.
  - apply Forall_cons in Hall as [Hc _].
    destruct (execute_failed _ _ Hc) as (st1 & Hgate & ->).
    rewrite current_insert.
    destruct (on_failure_spec (now_at_failure c) st1) as (Hfc & Hlast & _ & Hstate).
    destruct (gate_counts _ _ _ Hgate) as [Hsame _].
    rewrite Hfc, Hlast, Hstate, Hsame. repeat split; [lia|].
    intros Hthr. now rewrite geb_true by lia.
  - apply Forall_cons in Hall as [Hc Hrest].
    destruct (execute_failed _ _ Hc) as (st1 & Hgate & Hafter).
    specialize (IH _ c Hrest). cbn in IH.
    destruct IH as (Hfc & Hlast & Hstate).
    split; [|split; assumption].
    rewrite Hfc, Hafter, current_insert.
    destruct (on_failure_spec (now_at_failure c0) st1) as (Hfc1 & _).
    destruct (gate_counts _ _ _ Hgate) as [Hsame _].
    rewrite Hfc1, Hsame. lia.
Qed.

(** Successes never open a circuit, and they close a half-open one once
    the success count reaches the threshold. *)
Lemma successes_close (calls : list (call T)) :
  forall (states : gmap string entry),
    Forall (fun c => is_ok (operation c) = true) calls ->
    state (current states key) <> open ->
    let run := execute_all states key calls opts in
    Forall invoked_and_succeeded run.2
    /\ (state (current states key) = closed -> state (current run.1 key) = closed)
    /\ (state (current states key) = half_open ->
        calls <> [] ->
        successThreshold opts <= successCount (current states key) + Z.of_nat (length calls) ->
        state (current run.1 key) = closed).
Proof.
  induction calls as [|c calls IH]; intros states Hall Hs; cbn.
  - repeat split; [constructor | auto | congruence].
  - apply Forall_cons in Hall as [Hc Hrest].
    destruct (execute_succeeds states c Hs Hc) as [Hinv Hafter].
    destruct (on_success_spec (current states key)) as (_ & Hsc & Hstate).
    assert (Hs' : state (current (states_after (execute states key c opts)) key) <> open).
    { rewrite Hafter, current_insert, Hstate.
      destruct (state (current states key)); [discriminate|congruence|].
      destruct (_ >=? _); discriminate. }
    destruct (IH _ Hrest Hs') as (Hall' & Hclosed & Hhalf).
    split; [constructor; assumption|]. split.
    + intros Hc0. apply Hclosed. rewrite Hafter, current_insert, Hstate. now rewrite Hc0.
    + intros Hh _ Hthr.
      destruct (Z.geb_spec (successCount (current states key) + 1) (successThreshold opts))
        as [Hreach|Hnot].
      * apply Hclosed. now rewrite Hafter, current_insert, Hstate, Hh.
      * apply Hhalf.
        -- now rewrite Hafter, current_insert, Hstate, Hh.
        -- intros ->. cbn in Hthr. lia.
        -- rewrite Hafter, current_insert, Hsc. cbn [length] in Hthr. lia.
Qed.

(** The invariant [well_formed] holds of every entry [execute] writes. *)
Lemma execute_well_formed (states : gmap string entry) (c : call T) :
  well_formed opts (current states key) ->
  well_formed opts (current (states_after (execute states key c opts)) key).
Proof.
  intros (Hf & Hsucc & Hopen). unfold execute. fold (current states key).
  destruct (gate opts (now_at_entry c) (current states key)) as [st1|] eqn:Hgate; cbn.
  - assert (Hst1 : 0 <= failureCount st1 /\ 0 <= successCount st1).
    { unfold gate in Hgate. destruct (state (current states key)).
      - injection Hgate as <-. auto.
      - destruct (_ >? _); [|discriminate]. injection Hgate as <-. cbn. split; [auto|lia].
      - injection Hgate as <-. auto. }
    destruct Hst1 as [Hf1 Hs1].
    destruct (gate_counts _ _ _ Hgate) as [_ Hnot].
    destruct (operation c); cbn; rewrite current_insert.
    + destruct (on_success_spec st1) as (Hfc & Hsc & Hstate).
      unfold well_formed. rewrite Hfc, Hsc, Hstate. repeat split; try lia.
      destruct (state st1); [discriminate|congruence|]. destruct (_ >=? _); discriminate.
    + destruct (on_failure_spec (now_at_failure c) st1) as (Hfc & _ & Hsc & Hstate).
      unfold well_formed. rewrite Hfc, Hsc, Hstate. repeat split; try lia.
      destruct (Z.geb_spec (failureCount st1 + 1) (failureThreshold opts)); [lia|congruence].
  - repeat split; assumption.
Qed.

(** Every entry written by calls made under one set of options on a new
    breaker is well formed. *)
Lemma execute_all_well_formed (calls : list (call T)) :
  forall states : gmap string entry,
    well_formed opts (current states key) ->
    well_formed opts (current (execute_all states key calls opts).1 key).
Proof.
  induction calls as [|c calls IH]; intros states Hwf; cbn; [exact Hwf|].
  apply IH. now apply execute_well_formed.
Qed.

End BreakerFacts.

(** C5 (as amended).  For an entry the breaker has written under the
    options in force:
    - once [failureThreshold] (or more) calls in a row have been invoked
      and have failed, the circuit is open with the time of the last
      failure recorded; a following call is refused without invoking the
      operation and without changing anything as long as no more than
      [recoveryTimeout] has passed since that failure, and is admitted
      once more than that has passed;
    - from half-open, [successThreshold] (or more) successes in a row
      close the circuit;
    - a failure while half-open reopens the circuit exactly when the
      incremented failure count reaches [failureThreshold]; otherwise the
      circuit stays half-open;
    - that is always so for a call admitted from the open state after the
      timeout: if it fails the circuit is open again. *)
Theorem circuit_breaker_transitions
    (T : Type) (opts : Breaker.options) (key : string)
    (states : gmap string Breaker.entry) :
  Breaker.well_formed opts (Breaker.current states key) ->
  (forall (calls : list (Breaker.call T)) (c : Breaker.call T),
      Breaker.failureThreshold opts <= Z.of_nat (length (calls ++ [c])) ->
      Forall Breaker.invoked_and_failed
             (Breaker.execute_all states key (calls ++ [c]) opts).2 ->
      let states' := (Breaker.execute_all states key (calls ++ [c]) opts).1 in
      Breaker.state (Breaker.current states' key) = Breaker.open
      /\ Breaker.lastFailureTime (Breaker.current states' key) = Breaker.now_at_failure c
      /\ forall next : Breaker.call T,
          (Breaker.now_at_entry next - Breaker.now_at_failure c
             <= Breaker.recoveryTimeout opts ->
           Breaker.execute states' key next opts
           = Breaker.mkResult states' (Throw Breaker.circuit_open_error) false)
          /\ (Breaker.recoveryTimeout opts
                < Breaker.now_at_entry next - Breaker.now_at_failure c ->
              Breaker.invoked (Breaker.execute states' key next opts) = true))
  /\ (Breaker.state (Breaker.current states key) = Breaker.half_open ->
      forall calls : list (Breaker.call T),
        calls <> [] ->
        Breaker.successThreshold opts <= Z.of_nat (length calls) ->
        Forall (fun c => is_ok (Breaker.operation c) = true) calls ->
        Forall Breaker.invoked_and_succeeded (Breaker.execute_all states key calls opts).2
        /\ Breaker.state (Breaker.current (Breaker.execute_all states key calls opts).1 key)
           = Breaker.closed)
  /\ (Breaker.state (Breaker.current states key) = Breaker.half_open ->
      forall (c : Breaker.call T) (e : Errors.JsError),
        Breaker.operation c = Throw e ->
        let r := Breaker.execute states key c opts in
        Breaker.invoked r = true
        /\ Breaker.returned r = Throw e
        /\ Breaker.state (Breaker.current (Breaker.states_after r) key)
           = if Breaker.failureCount (Breaker.current states key) + 1
                >=? Breaker.failureThreshold opts
             then Breaker.open else Breaker.half_open)
  /\ (Breaker.state (Breaker.current states key) = Breaker.open ->
      forall (c : Breaker.call T) (e : Errors.JsError),
        Breaker.recoveryTimeout opts
          < Breaker.now_at_entry c - Breaker.lastFailureTime (Breaker.current states key) ->
        Breaker.operation c = Throw e ->
        let r := Breaker.execute states key c opts in
        Breaker.invoked r = true
        /\ Breaker.returned r = Throw e
        /\ Breaker.state (Breaker.current (Breaker.states_after r) key) = Breaker.open
        /\ Breaker.lastFailureTime (Breaker.current (Breaker.states_after r) key)
           = Breaker.now_at_failure c).
Proof.
  intros (Hf & Hsucc & Hopen). repeat apply conj.
  - intros calls c Hlen Hall states'.
    destruct (failures_accumulate opts key calls states c Hall) as (Hfc & Hlast & Hstate).
    fold states' in Hfc, Hlast, Hstate.
    assert (Hst : Breaker.state (Breaker.current states' key) = Breaker.open).
    { apply Hstate. rewrite Hfc. rewrite length_app in Hlen. cbn in Hlen. lia. }
    split; [exact Hst|]. split; [exact Hlast|].
    intros next. split.
    + intros Hwait. apply execute_refused; [exact Hst|]. now rewrite Hlast.
    + intros Hgone. unfold Breaker.execute, Breaker.gate.
      fold (Breaker.current states' key). rewrite Hst, Hlast.
      rewrite gtb_true by lia. now destruct (Breaker.operation next).
  - intros Hhalf calls Hne Hlen Hall.
    destruct (successes_close opts key calls states Hall) as (Hinv & _ & Hclose).
    { rewrite Hhalf. discriminate. }
    split; [exact Hinv|]. apply Hclose; [assumption|assumption|lia].
  - intros Hhalf c e Hop r. subst r. unfold Breaker.execute.
    fold (Breaker.current states key).
    rewrite gate_passes by (rewrite Hhalf; discriminate).
    rewrite Hop. cbn. rewrite current_insert.
    destruct (on_failure_spec opts (Breaker.now_at_failure c) (Breaker.current states key))
      as (_ & _ & _ & Hstate).
    now rewrite Hstate, Hhalf.
  - intros Hst c e Hgone Hop r. subst r. unfold Breaker.execute, Breaker.gate.
    fold (Breaker.current states key). rewrite Hst.
    rewrite gtb_true by lia. rewrite Hop. cbn. rewrite current_insert.
    unfold Breaker.on_failure. cbn.
    rewrite geb_true by (specialize (Hopen Hst); lia).
    repeat split.
Qed.

Lemma circuit_breaker_transitions_witness :
  Breaker.well_formed Breaker.default_options (Breaker.current ∅ "ai-insight")
  /\ let opened :=
       (Breaker.execute_all ∅ "ai-insight"
          (Samples.failing_call <$> [1; 2; 3; 4; 5]) Breaker.default_options).1 in
     Breaker.state (Breaker.current opened "ai-insight") = Breaker.open
     /\ Breaker.invoked
          (Breaker.execute opened "ai-insight" (Samples.succeeding_call 60005)
                           Breaker.default_options) = false
     /\ Breaker.invoked
          (Breaker.execute opened "ai-insight" (Samples.succeeding_call 60006)
                           Breaker.default_options) = true.
Proof.
  assert (Hwf : Breaker.well_formed Breaker.default_options (Breaker.current ∅ "ai-insight")).
  { vm_compute. repeat split; intros H; discriminate H. }
  split; [exact Hwf|].
  destruct (circuit_breaker_transitions unit Breaker.default_options "ai-insight" ∅ Hwf)
    as (Hopen & _).
  specialize (Hopen (Samples.failing_call <$> [1; 2; 3; 4]) (Samples.failing_call 5)).
  destruct Hopen as (Hst & _ & Hnext).
  { now vm_compute. }
  { vm_compute. repeat (constructor; [split; reflexivity|]). constructor. }
  split; [exact Hst|]. split.
  - destruct (Hnext (Samples.succeeding_call 60005)) as [Hrefused _].
    change (Samples.failing_call <$> [1; 2; 3; 4; 5])
      with ((Samples.failing_call <$> [1; 2; 3; 4]) ++ [Samples.failing_call 5]).
    rewrite Hrefused; [reflexivity | cbn; lia].
  - destruct (Hnext (Samples.succeeding_call 60006)) as [_ Hadmitted].
    apply Hadmitted. cbn. lia.
Defined.

(** C5 as stated fails in its last part.  Under the default options, after
    five failures have opened the circuit and one probe after the timeout
    has succeeded, the circuit is half-open with a failure count of 0; a
    failure of the next call is recorded but the circuit stays half-open
    (the count, now 1, is below the threshold 5). *)
Lemma half_open_failure_counterexample :
  let states :=
    (Breaker.execute_all ∅ "ai-insight" Samples.opened_then_probed
                         Breaker.default_options).1 in
  let r := Breaker.execute states "ai-insight" (Samples.failing_call 70001)
                           Breaker.default_options in
  Breaker.state (Breaker.current states "ai-insight") = Breaker.half_open
  /\ Breaker.invoked r = true
  /\ is_ok (Breaker.returned r) = false
  /\ Breaker.state (Breaker.current (Breaker.states_after r) "ai-insight")
     = Breaker.half_open.
Proof. vm_compute. repeat split. Qed.

(** ** Numbers and clamping *)

Section NumberFacts.
Import JS.

Lemma Qle_bool_false (x y : Q) : Qle_bool x y = false -> (y < x)%Q.
Proof.
  intros H. apply Qnot_le_lt. intros Hle. apply Qle_bool_iff in Hle. congruence.
Qed.




Lemma clamped_in_range (lo hi : Z) (q : Q) :
  (lo <= hi)%Z -> in_range lo hi (clamped lo hi q).
Proof.
  intros Hlh. unfold clamped, Math_min, Math_max, num, in_range.
  assert (Hq : (inject_Z lo <= inject_Z hi)%Q) by (rewrite <- Zle_Qle; exact Hlh).
  destruct (Qle_bool (inject_Z lo) q) eqn:E1.
  - apply Qle_bool_iff in E1.
    destruct (Qle_bool (inject_Z hi) q) eqn:E2.
    + split; [exact Hq | apply Qle_refl].
    + apply Qle_bool_false in E2. split; [exact E1 | now apply Qlt_le_weak].
  - apply Qle_bool_false in E1.
    destruct (Qle_bool (inject_Z hi) (inject_Z lo)) eqn:E2.
    + apply Qle_bool_iff in E2. split; [exact Hq | apply Qle_refl].
    + split; [apply Qle_refl | exact Hq].
Qed.






End NumberFacts.

(** ** ClaudeAIService *)

Section ClaudeFacts.
Import Errors JS Claude.

Lemma randomChallenge_in_pool (random : Q) :
  (0 <= random)%Q -> (random < 1)%Q ->
  exists name, name ∈ fallback_challenges /\ randomChallenge random = Some (JStr name).
Proof.
  intros H0 H1. unfold randomChallenge.
  assert (Hlo : 0 <= Qfloor (random * 3)).
  { change 0 with (Qfloor 0). apply Qfloor_resp_le.
    apply Qmult_le_0_compat; [exact H0 | discriminate]. }
  assert (Hhi : Qfloor (random * 3) < 3).
  { rewrite Zlt_Qlt. apply Qle_lt_trans with (random * 3)%Q; [apply Qfloor_le|].
    change (inject_Z 3) with (1 * 3)%Q.
    apply Qmult_lt_compat_r; [reflexivity | exact H1]. }
  rewrite (proj2 (Z.ltb_ge _ _) Hlo).
  assert (Hcase : Qfloor (random * 3) = 0 \/ Qfloor (random * 3) = 1
                  \/ Qfloor (random * 3) = 2) by lia.
  destruct Hcase as [-> | [-> | ->]]; cbn; eexists; (split; [|reflexivity]);
    unfold fallback_challenges; set_solver.
Qed.


End ClaudeFacts.

Example match_object_greedy :
  JS.match_object "Sure: {a {b} c} and } more" = Some "{a {b} c} and }"%string.
Proof. reflexivity. Qed.

Example match_object_none : JS.match_object "no closing { brace" = None.
Proof. reflexivity. Qed.

Example generateInsight_unconfigured :
  Claude.generateInsight (Samples.unconfigured 0) Samples.first_batch_request
  = Ok (Claude.getFallbackInsight 0 Samples.first_batch_request).
Proof. reflexivity. Qed.

Example generateInsight_parsed :
  Claude.confidence
    <$> (match Claude.generateInsight
                 (Samples.answering (Samples.insight_payload 88) 0)
                 Samples.first_batch_request with
         | Ok i => Some i
         | Throw _ => None
         end)
  = Some (Some 88%Q).
Proof. reflexivity. Qed.

(** C1.  [generateInsight] always returns an insight and never throws,
    whatever the request and whatever the credential, the endpoint, the
    parser and the random source do.  The insight is the fallback one when
    the service has no credential, when the call to the endpoint throws
    (network failure, timeout, non-2xx status, unreadable body), and when
    the returned text cannot be parsed. *)
Theorem generateInsight_never_raises
    (env : Claude.Env) (request : Claude.AssessmentInsightRequest) :
  exists i : Claude.AIInsightResponse,
    Claude.generateInsight env request = Ok i
    /\ (Claude.isConfigured env = false ->
        i = Claude.getFallbackInsight (Claude.Math_random env) request)
    /\ (forall e, Claude.callClaudeAPI env (Claude.buildInsightPrompt env request) Claude.insight_options = Throw e ->
        i = Claude.getFallbackInsight (Claude.Math_random env) request)
    /\ (forall text e,
          Claude.callClaudeAPI env (Claude.buildInsightPrompt env request) Claude.insight_options = Ok text ->
          Claude.parseInsightResponse_try (Claude.runtime env) text = Throw e ->
          i = Claude.getFallbackInsight (Claude.Math_random env) request).
Proof.
  unfold Claude.generateInsight.
  destruct (Claude.isConfigured env) eqn:Hconf; cbn [negb].
  - destruct (Claude.callClaudeAPI env (Claude.buildInsightPrompt env request) Claude.insight_options)
      as [text|e] eqn:Hcall; cbn.
    + eexists. split; [reflexivity|]. repeat split.
      * discriminate.
      * discriminate.
      * intros text' e' [= <-] Hparse. unfold Claude.parseInsightResponse.
        now rewrite Hparse.
    + eexists. split; [reflexivity|]. repeat split; discriminate.
  - eexists. split; [reflexivity|]. repeat split.
Qed.

(** C9 (as amended).  Two invocations of the fallback, on any two
    requests and with any two random draws, return the same insight text,
    business impact, confidence (70) and reasoning; [challengeIdentified]
    is the entry of the three-name pool selected by the random draw, so the
    two results are identical when the draws select the same entry. *)
Theorem fallback_insight_fixed_but_for_challenge
    (random1 random2 : Q) (request1 request2 : Claude.AssessmentInsightRequest) :
  let a := Claude.getFallbackInsight random1 request1 in
  let b := Claude.getFallbackInsight random2 request2 in
  Claude.insight a = Claude.insight b
  /\ Claude.businessImpact a = Claude.businessImpact b
  /\ Claude.confidence a = JS.num 70
  /\ Claude.confidence b = JS.num 70
  /\ Claude.reasoning a = Claude.reasoning b
  /\ Claude.challengeIdentified a = Claude.randomChallenge random1
  /\ (Qfloor (random1 * 3) = Qfloor (random2 * 3) -> a = b)
  /\ ((0 <= random1)%Q /\ (random1 < 1)%Q ->
      exists name, name ∈ Claude.fallback_challenges
                   /\ Claude.challengeIdentified a = Some (JS.JStr name)).
Proof.
  intros a b. subst a b. unfold Claude.getFallbackInsight.
  cbn [Claude.insight Claude.businessImpact Claude.confidence Claude.reasoning
       Claude.challengeIdentified].
  repeat split.
  - intros H. unfold Claude.randomChallenge. now rewrite H.
  - intros [H0 H1]. now apply randomChallenge_in_pool.
Qed.

(** C9 as stated fails: on the same request, a draw of 0 names the
    Technical Translation challenge and a draw of 1/2 the Buyer
    Conversations challenge. *)
Lemma fallback_insight_not_deterministic :
  Claude.challengeIdentified
    (Claude.getFallbackInsight 0 Samples.first_batch_request)
  = Some (JS.JStr "Technical Translation Challenge")
  /\ Claude.challengeIdentified
       (Claude.getFallbackInsight (1 # 2) Samples.first_batch_request)
     = Some (JS.JStr "Buyer Conversations Challenge")
  /\ Claude.getFallbackInsight 0 Samples.first_batch_request
     <> Claude.getFallbackInsight (1 # 2) Samples.first_batch_request.
Proof.
  repeat split. intros H.
  apply (f_equal Claude.challengeIdentified) in H. vm_compute in H. discriminate H.
Qed.

Section ConfidenceFacts.
Import Errors JS.

(** The confidence [parseAIResponse] returns for a numeric payload value. *)
Lemma service_clamp (c : Q) :
  let v := if lt (Some c) (num 70) || lt (num 95) (Some c)
           then Math_max (num 70) (Math_min (num 95) (Some c))
           else Some c in
  in_range 70 95 v
  /\ ((70 <= c)%Q -> (c <= 95)%Q -> v = Some c)
  /\ ((c < 70)%Q -> exists q, v = Some q /\ (q == 70)%Q)
  /\ ((95 < c)%Q -> exists q, v = Some q /\ (q == 95)%Q).
Proof.
  unfold lt, Math_max, Math_min, num, in_range, inject_Z.
  destruct (Qle_bool (70 # 1) c) eqn:E1'; destruct (Qle_bool c (95 # 1)) eqn:E2;
    cbn [negb orb]; pose proof E1' as E1;
    try apply Qle_bool_iff in E1; try apply Qle_bool_iff in E2;
    try apply Qle_bool_false in E1; try apply Qle_bool_false in E2.
  - repeat split; intros; try lra; reflexivity.
  - destruct (Qle_bool (95 # 1) c) eqn:E3;
      [apply Qle_bool_iff in E3 | apply Qle_bool_false in E3; lra].
    replace (Qle_bool (70 # 1) (95 # 1)) with true by reflexivity.
    repeat split; intros; try lra; eexists; (split; [reflexivity | lra]).
  - destruct (Qle_bool (95 # 1) c) eqn:E3;
      [apply Qle_bool_iff in E3; lra | apply Qle_bool_false in E3].
    rewrite E1'.
    repeat split; intros; try lra; eexists; (split; [reflexivity | lra]).
  - lra.
Qed.

End ConfidenceFacts.







(** ** AssessmentServiceLite *)

Section EngineFacts.
Import Errors JS Types.

Lemma claude_generateInsight_ok (env : Claude.Env) (request : Claude.AssessmentInsightRequest) :
  exists i, Claude.generateInsight env request = Ok i.
Proof.
  unfold Claude.generateInsight. destruct (negb (Claude.isConfigured env)); [eauto|].
  destruct (Claude.callClaudeAPI env (Claude.buildInsightPrompt env request) Claude.insight_options); cbn; eauto.
Qed.

Lemma analyzeBatch1_ok (env : InsightEngine.Env) (batch : InsightEngine.BatchAnalysis) :
  exists i, InsightEngine.analyzeBatch1 env batch = Ok i
            /\ batchNumber i = Batch1
            /\ sessionId i = InsightEngine.b_sessionId batch.
Proof.
  unfold InsightEngine.analyzeBatch1.
  destruct (claude_generateInsight_ok (InsightEngine.ai env)
              (Claude.mkInsightRequest (InsightEngine.responses batch) Batch1 None
                 (InsightEngine.insight_user_info (InsightEngine.b_userInfo batch))))
    as [ai ->].
  cbn. eauto.
Qed.

Lemma analyzeBatch2_ok (env : InsightEngine.Env) (batch : InsightEngine.BatchAnalysis) :
  exists i, InsightEngine.analyzeBatch2 env batch = Ok i
            /\ batchNumber i = Batch2
            /\ sessionId i = InsightEngine.b_sessionId batch.
Proof.
  unfold InsightEngine.analyzeBatch2.
  destruct (claude_generateInsight_ok (InsightEngine.ai env)
              (Claude.mkInsightRequest (InsightEngine.responses batch) Batch2
                 (InsightEngine.previousInsights batch)
                 (InsightEngine.insight_user_info (InsightEngine.b_userInfo batch))))
    as [ai ->].
  cbn. eauto.
Qed.

Lemma analyzeBatch3_ok (env : InsightEngine.Env) (batch : InsightEngine.BatchAnalysis) :
  exists i, InsightEngine.analyzeBatch3 env batch = Ok i
            /\ batchNumber i = Batch3
            /\ sessionId i = InsightEngine.b_sessionId batch.
Proof.
  unfold InsightEngine.analyzeBatch3.
  destruct (claude_generateInsight_ok (InsightEngine.ai env)
              (Claude.mkInsightRequest (InsightEngine.responses batch) Batch3
                 (InsightEngine.previousInsights batch)
                 (InsightEngine.insight_user_info (InsightEngine.b_userInfo batch))))
    as [ai ->].
  cbn. eauto.
Qed.

End EngineFacts.

Section LiteFacts.
Import Errors JS Types Lite.

(** [generateInsight] calls the engine with the slice of its batch and
    always appends the insight it gets back, which carries the batch number
    asked for. *)
Lemma generateInsight_spec (env : Env) (session : AssessmentSession)
    (b : BatchNumber) (range : string) :
  exists i,
    batchNumber i = b
    /\ sessionId i = s_sessionId session
    /\ generateInsight env session b range
       = (set_insight session i, Some (b, batch_of session b)).
Proof.
  unfold generateInsight, batch_of.
  destruct b; cbn [milestone].
  - destruct (analyzeBatch1_ok (engine env)
                (InsightEngine.mkBatch (slice (s_responses session) 0 4) None
                   (s_sessionId session) (Some (s_userInfo session)))) as (i & -> & Hb & Hsid).
    now exists i.
  - destruct (analyzeBatch2_ok (engine env)
                (InsightEngine.mkBatch (slice (s_responses session) 4 9)
                   (Some (s_insights session))
                   (s_sessionId session) (Some (s_userInfo session)))) as (i & -> & Hb & Hsid).
    now exists i.
  - destruct (analyzeBatch3_ok (engine env)
                (InsightEngine.mkBatch (slice (s_responses session) 9 12)
                   (Some (s_insights session))
                   (s_sessionId session) (Some (s_userInfo session)))) as (i & -> & Hb & Hsid).
    now exists i.
Qed.

Lemma has_batch_false (b : BatchNumber) (insights : list Insight) :
  has_batch b insights = false <-> b ∉ batchNumber <$> insights.
Proof.
  unfold has_batch. induction insights as [|i l IH]; cbn.
  - split; [intros _; apply not_elem_of_nil | reflexivity].
  - rewrite orb_false_iff, IH, not_elem_of_cons, bool_decide_eq_false.
    intuition congruence.
Qed.


Lemma set_insight_consistent (session : AssessmentSession) (i : Insight) :
  insights_consistent session ->
  has_batch (batchNumber i) (s_insights session) = false ->
  (milestone (batchNumber i) <= length (s_responses session))%nat ->
  sessionId i = s_sessionId session ->
  insights_consistent (set_insight session i).
Proof.
  intros (Hnd & Hall & Hsid) Hnew Hms Hi. unfold insights_consistent, set_insight. cbn.
  repeat apply conj.
  - rewrite fmap_app. apply NoDup_app. split; [exact Hnd|]. split.
    + intros x Hx Hx'. apply list_elem_of_singleton in Hx'. subst x.
      now apply has_batch_false in Hnew.
    + apply NoDup_singleton.
  - apply Forall_app. split; [exact Hall|]. now constructor.
  - apply Forall_app. split; [exact Hsid|]. now constructor.
Qed.

Lemma push_response_consistent (session : AssessmentSession) (r : AssessmentResponse) :
  insights_consistent session -> insights_consistent (push_response session r).
Proof.
  intros (Hnd & Hall & Hsid). unfold insights_consistent, push_response. cbn.
  split; [exact Hnd|]. split; [|exact Hsid].
  eapply Forall_impl; [exact Hall|]. cbn. intros i Hi. rewrite length_app. lia.
Qed.

Lemma checkForInsightGeneration_sessionId (env : Env) (session : AssessmentSession) :
  s_sessionId (checkForInsightGeneration env session).1 = s_sessionId session.
Proof.
  unfold checkForInsightGeneration.
  repeat match goal with
         | |- context [if ?c then _ else _] => destruct c
         | |- context [generateInsight env session ?b ?r] =>
             destruct (generateInsight_spec env session b r) as (i & _ & _ & ->)
         end; reflexivity.
Qed.

Lemma checkForInsightGeneration_consistent (env : Env) (session : AssessmentSession) :
  insights_consistent session ->
  insights_consistent (checkForInsightGeneration env session).1.
Proof.
  intros Hinv. unfold checkForInsightGeneration.
  destruct (length (s_responses session) =? 4)%nat eqn:E4;
    [destruct (has_batch Batch1 (s_insights session)) eqn:H1|]; cbn [negb andb].
  2:{ destruct (generateInsight_spec env session Batch1 "1-4") as (i & Hb & Hsid & ->).
      apply Nat.eqb_eq in E4. cbn [fst].
      apply set_insight_consistent; rewrite ?Hb; [assumption|assumption|cbn; lia|exact Hsid]. }
  all: destruct (length (s_responses session) =? 9)%nat eqn:E9;
    [destruct (has_batch Batch2 (s_insights session)) eqn:H2|]; cbn [negb andb].
  all: try (destruct (generateInsight_spec env session Batch2 "5-9") as (i & Hb & Hsid & ->);
            apply Nat.eqb_eq in E9; cbn [fst];
            apply set_insight_consistent; rewrite ?Hb;
            [assumption|assumption|cbn; lia|exact Hsid]).
  all: destruct (length (s_responses session) =? 12)%nat eqn:E12;
    [destruct (has_batch Batch3 (s_insights session)) eqn:H3|]; cbn [negb andb].
  all: try (destruct (generateInsight_spec env session Batch3 "10-12") as (i & Hb & Hsid & ->);
            apply Nat.eqb_eq in E12; cbn [fst];
            apply set_insight_consistent; rewrite ?Hb;
            [assumption|assumption|cbn; lia|exact Hsid]).
  all: exact Hinv.
Qed.

Lemma step_consistent (sessions : gmap string AssessmentSession) (o : operation) :
  map_Forall stored_consistent sessions ->
  map_Forall stored_consistent (step sessions o).
Proof.
  intros Hinv. destruct o as [env userInfo | env sid response | env sid]; cbn [step].
  - unfold startAssessment.
    assert (Hnew : map_Forall stored_consistent
                     (<[generated_sessionId env :=
                          mkSession (generated_sessionId env) userInfo [] [] in_progress
                            (InsightEngine.now_iso (engine env)) None]> sessions)).
    { apply map_Forall_insert_2; [|exact Hinv].
      split; [reflexivity|]. repeat split; cbn; [apply NoDup_nil_2 | constructor | constructor]. }
    now destruct (Supabase.createAssessmentSession _).
  - unfold addResponse. destruct (sessions !! sid) as [session|] eqn:Hs; [|exact Hinv].
    destruct (Hinv _ _ Hs) as [Hkey Hcons].
    pose proof (push_response_consistent session response Hcons) as Hpush.
    destruct (Supabase.storeAssessmentResponse _); cbn [fst].
    + apply map_Forall_insert_2; [|exact Hinv]. split.
      * now rewrite checkForInsightGeneration_sessionId.
      * now apply checkForInsightGeneration_consistent.
    + apply map_Forall_insert_2; [|exact Hinv]. now split.
  - unfold completeAssessment. destruct (sessions !! sid) as [session|] eqn:Hs; [|exact Hinv].
    destruct (length (s_responses session) <? 12)%nat; [exact Hinv|].
    destruct (SkillEngine.generateFinalResults _ _); cbn [fst]; [|exact Hinv].
    apply map_Forall_insert_2; [|exact Hinv]. exact (Hinv _ _ Hs).
Qed.

Lemma fold_step_consistent (ops : list operation) :
  forall sessions,
    map_Forall stored_consistent sessions ->
    map_Forall stored_consistent (fold_left step ops sessions).
Proof.
  induction ops as [|o ops IH]; intros sessions Hinv; cbn; [exact Hinv|].
  apply IH. now apply step_consistent.
Qed.

Lemma reachable_consistent (sessions : gmap string AssessmentSession) :
  reachable sessions -> map_Forall stored_consistent sessions.
Proof.
  intros [ops ->]. apply fold_step_consistent. apply map_Forall_empty.
Qed.

Lemma distinct_batches_at_most_three (l : list BatchNumber) :
  NoDup l -> (length l <= 3)%nat.
Proof.
  intros Hnd.
  change 3%nat with (length [Batch1; Batch2; Batch3]).
  apply submseteq_length, NoDup_submseteq; [exact Hnd|].
  intros b _. destruct b; set_solver.
Qed.

End LiteFacts.

Example slice_second_batch :
  Lite.slice [1; 2; 3; 4; 5; 6; 7; 8; 9; 10; 11; 12] 4 9 = [5; 6; 7; 8; 9].
Proof. reflexivity. Qed.

Example slice_short : Lite.slice [1; 2; 3] 0 4 = [1; 2; 3].
Proof. reflexivity. Qed.

(** C3.  In every session of a session map reached by any sequence of
    startAssessment, addResponse and completeAssessment operations, in any
    environment, there are at most three insights, no two of them carry
    the same batch number, and each names the session it is stored in (so
    there is at most one insight per pair of session identifier and batch
    number). *)
Theorem insights_unique_per_batch
    (ops : list Lite.operation) (sessionId : string) (session : Lite.AssessmentSession) :
  Lite.run ops !! sessionId = Some session ->
  (length (Lite.s_insights session) <= 3)%nat
  /\ NoDup (Types.batchNumber <$> Lite.s_insights session)
  /\ Forall (fun i => Types.sessionId i = sessionId) (Lite.s_insights session)
  /\ forall (i j : nat) (a b : Types.Insight),
      Lite.s_insights session !! i = Some a ->
      Lite.s_insights session !! j = Some b ->
      Types.batchNumber a = Types.batchNumber b -> i = j.
Proof.
  intros Hs.
  assert (Hreach : Lite.reachable (Lite.run ops)) by (now exists ops).
  destruct (reachable_consistent _ Hreach _ _ Hs) as (Hkey & Hnd & _ & Hsid).
  split; [|split; [exact Hnd|split; [now rewrite <- Hkey|]]].
  - rewrite <- (length_fmap Types.batchNumber). now apply distinct_batches_at_most_three.
  - intros i j a b Ha Hb Hab.
    apply (NoDup_lookup _ i j (Types.batchNumber a) Hnd).
    + now rewrite list_lookup_fmap, Ha.
    + now rewrite list_lookup_fmap, Hb, Hab.
Qed.

Lemma insights_unique_per_batch_witness :
  exists session,
    Lite.run Samples.twelve_answers !! Samples.session_key = Some session
    /\ length (Lite.s_responses session) = 12%nat
    /\ Types.batchNumber <$> Lite.s_insights session
       = [Types.Batch1; Types.Batch2; Types.Batch3]
    /\ (length (Lite.s_insights session) <= 3)%nat.
Proof.
  destruct (Lite.run Samples.twelve_answers !! Samples.session_key) as [session|] eqn:Hs;
    [|vm_compute in Hs; discriminate Hs].
  exists session.
  pose proof (insights_unique_per_batch _ _ _ Hs) as (Hlen & _).
  assert (Hv : Some session = Lite.run Samples.twelve_answers !! Samples.session_key)
    by (now rewrite Hs).
  vm_compute in Hv. injection Hv as Hv.
  split; [reflexivity|]. split; [now rewrite Hv|]. split; [now rewrite Hv|exact Hlen].
Defined.




Section CompletionFacts.
Import Errors JS Types.

(** When the call to the endpoint throws, the final assessment is the
    fixed baseline. *)
Lemma generateFinalAssessment_outage (env : Claude.Env)
    (request : Claude.FinalAssessmentRequest) (e : JsError) :
  Claude.callClaudeAPI env (Claude.buildFinalAssessmentPrompt env request) Claude.final_options = Throw e ->
  Claude.generateFinalAssessment env request = Ok (Claude.getFallbackAssessment request).
Proof.
  intros Hcall. unfold Claude.generateFinalAssessment.
  destruct (negb (Claude.isConfigured env)); [reflexivity|]. now rewrite Hcall.
Qed.

Lemma generateFinalResults_outage (env : InsightEngine.Env)
    (assessmentData : SkillEngine.AssessmentData) :
  (forall request, exists e,
      Claude.callClaudeAPI (InsightEngine.ai env)
        (Claude.buildFinalAssessmentPrompt (InsightEngine.ai env) request)
        Claude.final_options = Throw e) ->
  exists results,
    SkillEngine.generateFinalResults env assessmentData = Ok results
    /\ SkillEngine.overallScore results = num 70
    /\ SkillEngine.level (SkillEngine.performanceLevel results) = JStr "Competent"
    /\ SkillEngine.score (SkillEngine.performanceLevel results) = num 70
    /\ SkillEngine.roiMultiplier results = num 3
    /\ SkillEngine.confidence results = num 75
    /\ SkillEngine.isHighPriority results = false
    /\ SkillEngine.leadPriority results = SkillEngine.lead_medium
    /\ SkillEngine.impactTimeline results = SkillEngine.short_term.
Proof.
  intros Hfail. unfold SkillEngine.generateFinalResults.
  match goal with
  | |- context [Claude.generateFinalAssessment ?env' ?req] =>
      destruct (Hfail req) as [e He];
      rewrite (generateFinalAssessment_outage env' req e He)
  end.
  eexists. split; [reflexivity|]. repeat split.
Qed.

End CompletionFacts.

(** C2.  For a session that holds at least 12 responses, when every call
    to the AI endpoint fails, [completeAssessment] succeeds: the session is
    stored with status [completed], and the results are present with an
    overall score of 70, the level Competent and an ROI multiplier of 3
    (at least 2). *)
Theorem completeAssessment_survives_ai_outage
    (env : Lite.Env) (sessions : gmap string Lite.AssessmentSession)
    (sessionId : string) (session : Lite.AssessmentSession) :
  sessions !! sessionId = Some session ->
  (12 <= length (Lite.s_responses session))%nat ->
  (forall request, exists e,
      Claude.callClaudeAPI (InsightEngine.ai (Lite.engine env))
        (Claude.buildFinalAssessmentPrompt (InsightEngine.ai (Lite.engine env)) request)
        Claude.final_options = Throw e) ->
  exists (results : SkillEngine.AssessmentResults) (session' : Lite.AssessmentSession),
    Lite.completeAssessment env sessions sessionId
    = (<[sessionId := session']> sessions, Lite.mkCompleteResult true (Some results) None)
    /\ Lite.s_status session' = Lite.completed
    /\ Lite.s_responses session' = Lite.s_responses session
    /\ Lite.s_insights session' = Lite.s_insights session
    /\ SkillEngine.overallScore results = JS.num 70
    /\ SkillEngine.level (SkillEngine.performanceLevel results) = JS.JStr "Competent"
    /\ exists roi, SkillEngine.roiMultiplier results = Some roi /\ (2 <= roi)%Q.
Proof.
  intros Hs Hlen Hfail.
  destruct (generateFinalResults_outage (Lite.engine env)
              (SkillEngine.mkData (Lite.s_sessionId session) (Lite.s_responses session)
                 (Lite.s_insights session) (Lite.s_userInfo session)) Hfail)
    as (results & Hgen & Hscore & Hlevel & _ & Hroi & _).
  exists results, (Lite.set_completed session (InsightEngine.now_iso (Lite.engine env))).
  unfold Lite.completeAssessment. rewrite Hs.
  rewrite (proj2 (Nat.ltb_ge _ _) Hlen), Hgen.
  repeat split; try assumption.
  exists 3%Q. split; [exact Hroi | discriminate].
Qed.

Lemma completeAssessment_survives_ai_outage_witness :
  exists session results session',
    Lite.run Samples.twelve_answers !! Samples.session_key = Some session
    /\ (12 <= length (Lite.s_responses session))%nat
    /\ Lite.completeAssessment Samples.ai_outage (Lite.run Samples.twelve_answers)
                               Samples.session_key
       = (<[Samples.session_key := session']> (Lite.run Samples.twelve_answers),
          Lite.mkCompleteResult true (Some results) None)
    /\ Lite.s_status session' = Lite.completed
    /\ SkillEngine.overallScore results = JS.num 70.
Proof.
  destruct (Lite.run Samples.twelve_answers !! Samples.session_key) as [session|] eqn:Hs;
    [|vm_compute in Hs; discriminate Hs].
  assert (Hlen : (12 <= length (Lite.s_responses session))%nat).
  { assert (Hv : Some session = Lite.run Samples.twelve_answers !! Samples.session_key)
      by (now rewrite Hs).
    vm_compute in Hv. injection Hv as ->. cbn. lia. }
  destruct (completeAssessment_survives_ai_outage Samples.ai_outage _ _ _ Hs Hlen)
    as (results & session' & Hdone & Hstatus & _ & _ & Hscore & _).
  { intros request. now exists Samples.external_error. }
  exists session, results, session'. auto.
Defined.

(** * Further properties *)

(** ** RateLimiter *)

Section LimiterFacts.
Import Limiter.
Variable key : string.
Variables (maxRequests windowMs : Z).

Lemma checkLimit_other (limits : gmap string window) (now : Z) (other : string) :
  other <> key ->
  (checkLimit limits key maxRequests windowMs now).1 !! other = limits !! other.
Proof.
  intros Hne. unfold checkLimit.
  destruct (limits !! key) as [limit|]; cbn.
  - destruct (now >? resetTime limit); cbn; [now rewrite lookup_insert_ne|].
    destruct (count limit >=? maxRequests); cbn; [reflexivity|].
    now rewrite lookup_insert_ne.
  - now rewrite lookup_insert_ne.
Qed.

Lemma checkLimit_in_window (limits : gmap string window) (n reset now : Z) :
  limits !! key = Some (mkWindow n reset) ->
  now <= reset ->
  checkLimit limits key maxRequests windowMs now
  = if n >=? maxRequests then (limits, false)
    else (<[key := mkWindow (n + 1) reset]> limits, true).
Proof.
  intros Hk Hnow. unfold checkLimit. rewrite Hk. cbn [count resetTime].
  now rewrite gtb_false by exact Hnow.
Qed.

(** Inside a window that holds [n] requests, the calls made before its end
    are allowed while [n] is below [maxRequests], and refused afterwards. *)
Lemma checkLimit_all_in_window (clock : list Z) :
  forall (limits : gmap string window) (n reset : Z),
    limits !! key = Some (mkWindow n reset) ->
    Forall (fun now => now <= reset) clock ->
    let r := checkLimit_all limits key maxRequests windowMs clock in
    r.2 = (fun i => bool_decide (n + Z.of_nat i < maxRequests)) <$> seq 0 (length clock)
    /\ r.1 !! key
       = Some (mkWindow (Z.max n (Z.min (n + Z.of_nat (length clock)) maxRequests)) reset).
Proof.
  induction clock as [|now clock IH]; intros limits n reset Hk Hin; cbn.
  - split; [reflexivity|]. rewrite Hk. do 2 f_equal. lia.
  - apply Forall_cons in Hin as [Hnow Hrest].
    rewrite (checkLimit_in_window limits n reset now Hk Hnow).
    destruct (Z.geb_spec n maxRequests) as [Hfull|Hroom]; cbn [fst snd].
    + destruct (IH limits n reset Hk Hrest) as [Hres Hst]. cbn in Hres, Hst.
      rewrite Hres, Hst. split.
      * f_equal; [rewrite bool_decide_eq_false_2 by lia; reflexivity|].
        rewrite <- fmap_S_seq, <- list_fmap_compose. apply list_fmap_ext.
        intros i x _. cbn. apply bool_decide_ext. lia.
      * do 2 f_equal. lia.
    + destruct (IH (<[key := mkWindow (n + 1) reset]> limits) (n + 1) reset) as [Hres Hst];
        [apply lookup_insert_eq | exact Hrest |].
      cbn in Hres, Hst. rewrite Hres, Hst. split.
      * f_equal; [rewrite bool_decide_eq_true_2 by lia; reflexivity|].
        rewrite <- fmap_S_seq, <- list_fmap_compose. apply list_fmap_ext.
        intros i x _. cbn. apply bool_decide_ext. lia.
      * do 2 f_equal. lia.
Qed.

End LimiterFacts.

(** X1.  When a key has no window or its window has ended, the call made
    then is allowed and opens a window ending [windowMs] later; of the
    calls that follow before that end, those that bring the count up to
    [maxRequests] are allowed and all later ones are refused.  So a window
    admits [maxRequests] calls, and one call even if [maxRequests] is 0 or
    negative. *)
Theorem rate_limit_window_quota
    (limits : gmap string Limiter.window) (key : string)
    (maxRequests windowMs now : Z) (clock : list Z) :
  Limiter.expired limits key now = true ->
  Forall (fun t => t <= now + windowMs) clock ->
  let r := Limiter.checkLimit_all limits key maxRequests windowMs (now :: clock) in
  r.2 = true :: ((fun i => bool_decide (1 + Z.of_nat i < maxRequests))
                   <$> seq 0 (length clock))
  /\ r.1 !! key
     = Some (Limiter.mkWindow
               (Z.max 1 (Z.min (1 + Z.of_nat (length clock)) maxRequests))
               (now + windowMs))
  /\ forall other, other <> key -> r.1 !! other = limits !! other.
Proof.
  intros Hexp Hin r.
  assert (Hfirst : Limiter.checkLimit limits key maxRequests windowMs now
                   = (<[key := Limiter.mkWindow 1 (now + windowMs)]> limits, true)).
  { unfold Limiter.checkLimit. unfold Limiter.expired in Hexp.
    destruct (limits !! key) as [limit|]; [|reflexivity]. now rewrite Hexp. }
  subst r. cbn [Limiter.checkLimit_all]. rewrite Hfirst. cbn [fst snd].
  destruct (checkLimit_all_in_window key maxRequests windowMs clock
              (<[key := Limiter.mkWindow 1 (now + windowMs)]> limits) 1 (now + windowMs))
    as [Hres Hst]; [apply lookup_insert_eq | exact Hin |].
  cbn in Hres, Hst. split; [now rewrite Hres|]. split; [exact Hst|].
  intros other Hne.
  assert (Hframe : forall (clock' : list Z) (m : gmap string Limiter.window),
             (Limiter.checkLimit_all m key maxRequests windowMs clock').1 !! other
             = m !! other).
  { induction clock' as [|t clock' IH]; intros m; cbn; [reflexivity|].
    rewrite IH. now apply checkLimit_other. }
  rewrite Hframe. now rewrite lookup_insert_ne.
Qed.

Lemma rate_limit_window_quota_witness :
  Limiter.expired ∅ "203.0.113.7" 0 = true
  /\ (Limiter.checkLimit_all ∅ "203.0.113.7" 3 1000 [0; 10; 20; 1000]).2
     = [true; true; true; false].
Proof.
  assert (Hexp : Limiter.expired ∅ "203.0.113.7" 0 = true) by (vm_compute; reflexivity).
  split; [exact Hexp|].
  apply (rate_limit_window_quota ∅ "203.0.113.7" 3 1000 0 [10; 20; 1000] Hexp).
  repeat constructor; vm_compute; discriminate.
Defined.



(** ** RetryHandler, in general *)

Section RetryRuns.
Import Errors Retry.
Context {T : Type}.
Variable operation : nat -> Res JsError T.
Variables (maxRetries delayMs backoffMultiplier : Z).



End RetryRuns.




(** ** CircuitBreaker, in general *)

Section BreakerRuns.
Import Errors Breaker.
Context {T : Type}.
Variable opts : options.

Lemma execute_other_key (states : gmap string entry) (key other : string) (c : call T) :
  other <> key ->
  states_after (execute states key c opts) !! other = states !! other.
Proof.
  intros Hne. unfold execute.
  destruct (gate opts (now_at_entry c) (default fresh (states !! key))); [|reflexivity].
  destruct (operation c); cbn; now rewrite lookup_insert_ne.
Qed.

Lemma execute_all_other_key (key other : string) (calls : list (call T)) :
  forall states : gmap string entry,
    other <> key ->
    (execute_all states key calls opts).1 !! other = states !! other.
Proof.
  induction calls as [|c calls IH]; intros states Hne; cbn; [reflexivity|].
  rewrite IH by exact Hne. now apply execute_other_key.
Qed.

(** What a call does is decided by the entry of its own key alone. *)
Lemma execute_reads_own_key (states1 states2 : gmap string entry) (key : string) (c : call T) :
  states1 !! key = states2 !! key ->
  returned (execute states1 key c opts) = returned (execute states2 key c opts)
  /\ invoked (execute states1 key c opts) = invoked (execute states2 key c opts)
  /\ states_after (execute states1 key c opts) !! key
     = states_after (execute states2 key c opts) !! key.
Proof.
  intros Heq. unfold execute. rewrite Heq.
  destruct (gate opts (now_at_entry c) (default fresh (states2 !! key))); cbn.
  - destruct (operation c); cbn; rewrite !lookup_insert_eq; auto.
  - auto.
Qed.

Lemma execute_all_reads_own_key (key : string) (calls : list (call T)) :
  forall states1 states2 : gmap string entry,
    states1 !! key = states2 !! key ->
    returned <$> (execute_all states1 key calls opts).2
    = returned <$> (execute_all states2 key calls opts).2
    /\ invoked <$> (execute_all states1 key calls opts).2
       = invoked <$> (execute_all states2 key calls opts).2
    /\ (execute_all states1 key calls opts).1 !! key
       = (execute_all states2 key calls opts).1 !! key.
Proof.
  induction calls as [|c calls IH]; intros states1 states2 Heq; cbn; [auto|].
  destruct (execute_reads_own_key states1 states2 key c Heq) as (Hret & Hinv & Hst).
  destruct (IH _ _ Hst) as (Hrets & Hinvs & Hsts).
  rewrite Hret, Hinv, Hrets, Hinvs. auto.
Qed.

Lemma execute_admitted (states : gmap string entry) (key : string) (c : call T) :
  state (current states key) <> open ->
  execute states key c opts
  = match operation c with
    | Ok v => mkResult (<[key := on_success opts (current states key)]> states) (Ok v) true
    | Throw e =>
        mkResult (<[key := on_failure opts (now_at_failure c) (current states key)]> states)
                 (Throw e) true
    end.
Proof.
  intros Hs. unfold execute. fold (current states key). now rewrite gate_passes.
Qed.

(** While fewer than [failureThreshold] failures occur in a row, a closed
    circuit stays closed and lets every call through. *)
Lemma closed_stays_closed (key : string) (calls : list (call T)) :
  forall states : gmap string entry,
    state (current states key) = closed ->
    BreakerInstance.failures_stay_below (failureThreshold opts)
      (failureCount (current states key)) calls = true ->
    let run := execute_all states key calls opts in
    state (current run.1 key) = closed
    /\ Forall (fun r => invoked r = true) run.2
    /\ (returned <$> run.2) = (operation <$> calls).
Proof.
  induction calls as [|c calls IH]; intros states Hclosed Hbelow; cbn.
  - repeat split; [exact Hclosed | constructor].
  - cbn in Hbelow.
    rewrite (execute_admitted states key c) by (rewrite Hclosed; discriminate).
    destruct (operation c) as [v|e] eqn:Hop; cbn in Hbelow |- *.
    + destruct (IH (<[key := on_success opts (current states key)]> states)) as (Hst & Hinv & Hret).
      * rewrite current_insert.
        destruct (on_success_spec opts (current states key)) as (_ & _ & ->).
        now rewrite Hclosed.
      * rewrite current_insert.
        destruct (on_success_spec opts (current states key)) as (-> & _). exact Hbelow.
      * repeat split; [exact Hst | now constructor | now rewrite Hret].
    + apply andb_true_iff in Hbelow as [Hlt Hbelow]. apply Z.ltb_lt in Hlt.
      destruct (on_failure_spec opts (now_at_failure c) (current states key))
        as (Hfc & _ & _ & Hstate).
      destruct (IH (<[key := on_failure opts (now_at_failure c) (current states key)]> states))
        as (Hst & Hinv & Hret).
      * rewrite current_insert, Hstate. now rewrite geb_false by lia.
      * rewrite current_insert, Hfc. exact Hbelow.
      * repeat split; [exact Hst | now constructor | now rewrite Hret].
Qed.

End BreakerRuns.

(** X5.  A closed circuit counts failures in a row only: as long as fewer
    than [failureThreshold] calls fail consecutively (any success resets
    the count), every call is let through, each gets the outcome of its
    operation, and the circuit is still closed at the end, however many
    failures there were in total. *)
Theorem closed_circuit_tolerates_separated_failures
    (T : Type) (opts : Breaker.options) (key : string)
    (states : gmap string Breaker.entry) (calls : list (Breaker.call T)) :
  Breaker.state (Breaker.current states key) = Breaker.closed ->
  BreakerInstance.failures_stay_below (Breaker.failureThreshold opts)
    (Breaker.failureCount (Breaker.current states key)) calls = true ->
  let run := Breaker.execute_all states key calls opts in
  Breaker.state (Breaker.current run.1 key) = Breaker.closed
  /\ Forall (fun r => Breaker.invoked r = true) run.2
  /\ (Breaker.returned <$> run.2) = (Breaker.operation <$> calls).
Proof. intros Hclosed Hbelow. now apply closed_stays_closed. Qed.

Lemma closed_circuit_tolerates_separated_failures_witness :
  Breaker.state (Breaker.current ∅ "ai-insight") = Breaker.closed
  /\ length (filter (fun c => is_ok (Breaker.operation c) = false) Cases.flaky) = 8%nat
  /\ Breaker.state
       (Breaker.current
          (Breaker.execute_all ∅ "ai-insight" Cases.flaky Breaker.default_options).1
          "ai-insight")
     = Breaker.closed.
Proof.
  assert (Hc : Breaker.state (Breaker.current ∅ "ai-insight") = Breaker.closed)
    by (vm_compute; reflexivity).
  split; [exact Hc|]. split; [vm_compute; reflexivity|].
  apply (closed_circuit_tolerates_separated_failures unit Breaker.default_options
           "ai-insight" ∅ Cases.flaky Hc).
  vm_compute. reflexivity.
Defined.

(** X6.  Circuits are partitioned by key: calls made on one key leave the
    entry of every other key untouched, so the calls made afterwards on
    another key are let through or refused, return, and leave their entry
    exactly as if the first calls had never been made. *)
Theorem circuit_keys_do_not_interfere
    (T : Type) (opts1 opts2 : Breaker.options) (key1 key2 : string)
    (states : gmap string Breaker.entry)
    (calls1 calls2 : list (Breaker.call T)) :
  key1 <> key2 ->
  let after1 := (Breaker.execute_all states key1 calls1 opts1).1 in
  let alone := Breaker.execute_all states key2 calls2 opts2 in
  let later := Breaker.execute_all after1 key2 calls2 opts2 in
  after1 !! key2 = states !! key2
  /\ (Breaker.invoked <$> later.2) = (Breaker.invoked <$> alone.2)
  /\ (Breaker.returned <$> later.2) = (Breaker.returned <$> alone.2)
  /\ later.1 !! key2 = alone.1 !! key2
  /\ later.1 !! key1 = after1 !! key1.
Proof.
  intros Hne after1 alone later.
  assert (H2 : after1 !! key2 = states !! key2)
    by (apply execute_all_other_key; congruence).
  destruct (execute_all_reads_own_key opts2 key2 calls2 after1 states H2)
    as (Hret & Hinv & Hst).
  repeat split; try assumption.
  apply execute_all_other_key. exact Hne.
Qed.

Lemma circuit_keys_do_not_interfere_witness :
  "ai-insight" <> "ai-final"
  /\ Breaker.invoked
       <$> (Breaker.execute_all
              (Breaker.execute_all ∅ "ai-insight" (Samples.failing_call <$> [1; 2; 3; 4; 5])
                                   Breaker.default_options).1
              "ai-final" [Samples.succeeding_call 6] Breaker.default_options).2
     = [true].
Proof.
  assert (Hne : "ai-insight" <> "ai-final") by discriminate.
  split; [exact Hne|].
  destruct (circuit_keys_do_not_interfere unit Breaker.default_options Breaker.default_options
              "ai-insight" "ai-final" ∅ (Samples.failing_call <$> [1; 2; 3; 4; 5])
              [Samples.succeeding_call 6] Hne) as (_ & Hinv & _).
  rewrite Hinv. vm_compute. reflexivity.
Defined.

(** X7.  Every object built by [new CircuitBreaker(...)] works on the key
    ['default'] of the one static map, so separately constructed breakers
    share a circuit: once calls through one breaker have failed often
    enough to open it, a call through another breaker that never failed is
    refused without its operation being invoked, for as long as that
    other breaker's own recovery timeout has not passed. *)
Theorem breaker_instances_share_one_circuit
    (T : Type) (f1 r1 s1 f2 r2 s2 : Z)
    (states : gmap string Breaker.entry)
    (calls : list (Breaker.call T)) (c next : Breaker.call T) :
  let first := BreakerInstance.new f1 r1 s1 in
  let second := BreakerInstance.new f2 r2 s2 in
  let run := Breaker.execute_all states (BreakerInstance.key first) (calls ++ [c])
                                 (BreakerInstance.options first) in
  0 <= Breaker.failureCount (Breaker.current states "default") ->
  f1 <= Z.of_nat (length (calls ++ [c])) ->
  Forall Breaker.invoked_and_failed run.2 ->
  Breaker.now_at_entry next - Breaker.now_at_failure c <= r2 ->
  BreakerInstance.execute second run.1 next
  = Breaker.mkResult run.1 (Throw Breaker.circuit_open_error) false.
Proof.
  intros first second run Hf Hlen Hall Hwait.
  destruct (failures_accumulate (BreakerInstance.options first) "default" calls states c Hall)
    as (Hfc & Hlast & Hstate).
  unfold BreakerInstance.execute. cbn [BreakerInstance.key second BreakerInstance.new].
  apply execute_refused.
  - apply Hstate. rewrite Hfc. rewrite length_app in Hlen. cbn in Hlen |- *. lia.
  - cbn [BreakerInstance.options Breaker.recoveryTimeout]. subst run. cbn in Hlast |- *.
    rewrite Hlast. exact Hwait.
Qed.

Lemma breaker_instances_share_one_circuit_witness :
  let first := BreakerInstance.new 2 1000 1 in
  let second := BreakerInstance.new 50 60000 3 in
  let run := Breaker.execute_all ∅ "default" (Samples.failing_call <$> [1; 2])
                                 (BreakerInstance.options first) in
  Breaker.invoked (BreakerInstance.execute second run.1 (Samples.succeeding_call 3)) = false.
Proof.
  intros first second run.
  assert (H0 : 0 <= Breaker.failureCount (Breaker.current ∅ "default"))
    by (vm_compute; discriminate).
  assert (H1 : 2 <= Z.of_nat (length ([Samples.failing_call 1] ++ [Samples.failing_call 2])))
    by (vm_compute; discriminate).
  assert (H2 : Forall Breaker.invoked_and_failed
                 (Breaker.execute_all ∅ "default"
                    ([Samples.failing_call 1] ++ [Samples.failing_call 2])
                    (Breaker.mkOptions 2 1000 1)).2)
    by (vm_compute; repeat (constructor; [split; reflexivity|]); constructor).
  assert (H3 : Breaker.now_at_entry (Samples.succeeding_call 3)
               - Breaker.now_at_failure (Samples.failing_call 2) <= 60000)
    by (vm_compute; discriminate).
  exact (f_equal Breaker.invoked
           (breaker_instances_share_one_circuit unit 2 1000 1 50 60000 3 ∅
              [Samples.failing_call 1] (Samples.failing_call 2)
              (Samples.succeeding_call 3) H0 H1 H2 H3)).
Defined.

(** ** ClaudeAIService, in general *)

Section PayloadFacts.
Import Errors JS Payload.

Lemma get_is_field (parsed : json) (k : string) (v : value) :
  get parsed k = Ok v -> v = field parsed k.
Proof. destruct parsed; cbn; intros H; try discriminate; now injection H as <-. Qed.

(** The number a primitive value becomes after [|| d]. *)
Lemma ToNumber_or_default_primitive (rt : Runtime) (v : value) (d : Q) :
  primitive v = true ->
  exists q, ToNumber (ToNumber_other rt) (or_default v (JNum d)) = Some q.
Proof.
  intros Hp. destruct v as [[| b | q | s | l | l]|]; try discriminate; cbn.
  - eauto.
  - destruct b; cbn; eauto.
  - destruct (negb (Qeq_bool q 0)); cbn; eauto.
  - eauto.
Qed.

Lemma clamp_or_primitive_in_range (rt : Runtime) (lo hi : Z) (v : value) (d : Q) :
  (lo <= hi)%Z -> primitive v = true ->
  in_range lo hi (Claude.clamp_or rt (num lo) (num hi) v (JNum d)).
Proof.
  intros Hlh Hp. unfold Claude.clamp_or.
  destruct (ToNumber_or_default_primitive rt v d Hp) as [q ->].
  now apply clamped_in_range.
Qed.

Lemma Math_max_at_least (lo : Z) (q : Q) : at_least lo (Math_max (num lo) (Some q)).
Proof.
  unfold at_least, Math_max, num.
  destruct (Qle_bool (inject_Z lo) q) eqn:E; [now apply Qle_bool_iff | apply Qle_refl].
Qed.

End PayloadFacts.

Section StringFacts.
Import JS Payload.

Lemma contains_cons (a c : ascii) (s : string) :
  contains a (String c s) = Ascii.eqb a c || contains a s.
Proof. reflexivity. Qed.

Lemma from_first_open_spec (s rest : string) :
  from_first_open s = Some rest <->
  exists pre, s = (pre ++ String "{"%char rest)%string /\ contains "{"%char pre = false.
Proof.
  revert rest. induction s as [|c s IH]; intros rest.
  - split; [discriminate|]. intros (pre & H & _). destruct pre; discriminate.
  - change (from_first_open (String c s))
      with (if Ascii.eqb c "{"%char then Some s else from_first_open s).
    destruct (Ascii.eqb_spec c "{"%char) as [->|Hne].
    + split.
      * intros [= <-]. exists EmptyString. split; reflexivity.
      * intros (pre & H & Hpre). destruct pre as [|c' pre].
        -- now injection H as ->.
        -- injection H as <- _. rewrite contains_cons, Ascii.eqb_refl in Hpre.
           discriminate.
    + rewrite IH. split.
      * intros (pre & -> & Hpre). exists (String c pre). split; [reflexivity|].
        rewrite contains_cons, Hpre, orb_false_r.
        apply Ascii.eqb_neq. congruence.
      * intros (pre & H & Hpre). destruct pre as [|c' pre].
        -- injection H as -> _. congruence.
        -- injection H as <- ->. exists pre. split; [reflexivity|].
           rewrite contains_cons in Hpre. now apply orb_false_iff in Hpre as [_ Hpre].
Qed.

Lemma upto_last_close_cons (c : ascii) (s : string) :
  upto_last_close (String c s)
  = match upto_last_close s with
    | Some p => Some (String c p)
    | None => if Ascii.eqb c "}"%char then Some (String c EmptyString) else None
    end.
Proof. reflexivity. Qed.

Lemma upto_last_close_none (s : string) :
  upto_last_close s = None <-> contains "}"%char s = false.
Proof.
  induction s as [|c s IH]; [cbn; tauto|].
  rewrite upto_last_close_cons, contains_cons.
  destruct (upto_last_close s) as [p|].
  - split; [discriminate|]. intros H. apply orb_false_iff in H as [_ H].
    apply IH in H. discriminate.
  - rewrite (proj1 IH eq_refl), orb_false_r.
    rewrite (Ascii.eqb_sym "}"%char c).
    destruct (Ascii.eqb c "}"%char); split; congruence.
Qed.

Lemma upto_last_close_app (body post : string) :
  contains "}"%char post = false ->
  upto_last_close (body ++ String "}"%char post)
  = Some (body ++ String "}"%char EmptyString)%string.
Proof.
  intros Hpost. induction body as [|c body IH].
  - change (EmptyString ++ String "}"%char post)%string with (String "}"%char post).
    rewrite upto_last_close_cons, (proj2 (upto_last_close_none post) Hpost). reflexivity.
  - change (String c body ++ String "}"%char post)%string
      with (String c (body ++ String "}"%char post)).
    now rewrite upto_last_close_cons, IH.
Qed.

Lemma upto_last_close_some (s : string) :
  forall p, upto_last_close s = Some p ->
    exists body post,
      s = (body ++ String "}"%char post)%string
      /\ contains "}"%char post = false
      /\ p = (body ++ String "}"%char EmptyString)%string.
Proof.
  induction s as [|c s IH]; intros p; [discriminate|].
  rewrite upto_last_close_cons.
  destruct (upto_last_close s) as [p'|] eqn:Hp.
  - intros [= <-]. destruct (IH p' eq_refl) as (body & post & -> & Hpost & ->).
    exists (String c body), post. repeat split; assumption.
  - destruct (Ascii.eqb_spec c "}"%char) as [->|Hne]; [|discriminate].
    intros [= <-]. exists EmptyString, s. repeat split.
    now apply upto_last_close_none.
Qed.

End StringFacts.

(** X8.  The text handed to [JSON.parse] is the span from the first
    opening brace to the last closing brace: [match_object] answers [m]
    exactly when the response is some text without opening brace, then
    [m], which starts with an opening and ends with a closing brace, then
    some text without closing brace.  In particular prose around the
    object, also prose containing closing braces before it or opening
    braces after it, is dropped. *)
Theorem match_object_is_first_open_to_last_close (response m : string) :
  JS.match_object response = Some m <->
  exists pre body post : string,
    response = (pre ++ String "{"%char (body ++ String "}"%char post))%string
    /\ Payload.contains "{"%char pre = false
    /\ Payload.contains "}"%char post = false
    /\ m = String "{"%char (body ++ String "}"%char EmptyString).
Proof.
  unfold JS.match_object. split.
  - destruct (JS.from_first_open response) as [rest|] eqn:Hopen; [|discriminate].
    destruct (JS.upto_last_close rest) as [p|] eqn:Hclose; [|discriminate].
    intros [= <-].
    apply from_first_open_spec in Hopen as (pre & -> & Hpre).
    apply upto_last_close_some in Hclose as (body & post & -> & Hpost & ->).
    now exists pre, body, post.
  - intros (pre & body & post & -> & Hpre & Hpost & ->).
    rewrite (proj2 (from_first_open_spec _ _)) by (now exists pre).
    now rewrite upto_last_close_app.
Qed.

Lemma generateFinalAssessment_never_fails
    (env : Claude.Env) (request : Claude.FinalAssessmentRequest) :
  exists a, Claude.generateFinalAssessment env request = Ok a.
Proof.
  unfold Claude.generateFinalAssessment.
  destruct (negb (Claude.isConfigured env)); [eauto|].
  destruct (Claude.callClaudeAPI env (Claude.buildFinalAssessmentPrompt env request)
                                 Claude.final_options); cbn; eauto.
Qed.

(** X9.  [generateFinalAssessment] always returns an assessment and never
    throws: the fixed baseline (score 70, Competent, confidence 75, ROI 3)
    when the service has no credential, when the call to the endpoint
    throws, and when the returned text cannot be parsed; otherwise the
    parsed payload with its defaults and clamps. *)
Theorem generateFinalAssessment_never_raises
    (env : Claude.Env) (request : Claude.FinalAssessmentRequest) :
  exists a : Claude.AIAssessmentResponse,
    Claude.generateFinalAssessment env request = Ok a
    /\ (Claude.isConfigured env = false -> a = Claude.getFallbackAssessment request)
    /\ (forall e,
          Claude.callClaudeAPI env (Claude.buildFinalAssessmentPrompt env request)
                               Claude.final_options = Throw e ->
          a = Claude.getFallbackAssessment request)
    /\ (forall text,
          Claude.callClaudeAPI env (Claude.buildFinalAssessmentPrompt env request)
                               Claude.final_options = Ok text ->
          match Claude.parseFinalAssessmentResponse_try (Claude.runtime env) text with
          | Ok parsed => a = parsed
          | Throw _ => a = Claude.getFallbackAssessment Claude.empty_final_request
          end)
    /\ Claude.overallScore (Claude.getFallbackAssessment request) = JS.num 70
    /\ Claude.getFallbackAssessment request
       = Claude.getFallbackAssessment Claude.empty_final_request.
Proof.
  unfold Claude.generateFinalAssessment.
  destruct (Claude.isConfigured env) eqn:Hconf; cbn [negb].
  - destruct (Claude.callClaudeAPI env (Claude.buildFinalAssessmentPrompt env request)
                                   Claude.final_options) as [text|e] eqn:Hcall; cbn.
    + eexists. split; [reflexivity|].
      repeat apply conj; try discriminate; try (intros; reflexivity).
      intros text' [= <-]. unfold Claude.parseFinalAssessmentResponse.
      now destruct (Claude.parseFinalAssessmentResponse_try (Claude.runtime env) text).
    + eexists. split; [reflexivity|].
      repeat apply conj; try discriminate; intros; reflexivity.
  - eexists. split; [reflexivity|].
    repeat apply conj; try (intros; reflexivity).
    intros text. unfold Claude.callClaudeAPI. rewrite Hconf. discriminate.
Qed.

Section RangeFacts.
Import Errors JS Payload.

Lemma fallback_assessment_in_ranges (request : Claude.FinalAssessmentRequest) :
  let a := Claude.getFallbackAssessment request in
  in_range 0 100 (Claude.overallScore a)
  /\ in_range 0 10 (Claude.customerAnalysis (Claude.skillLevels a))
  /\ in_range 0 10 (Claude.businessCommunication (Claude.skillLevels a))
  /\ in_range 0 10 (Claude.revenueStrategy (Claude.skillLevels a))
  /\ in_range 0 10 (Claude.valueArticulation (Claude.skillLevels a))
  /\ in_range 0 10 (Claude.strategicThinking (Claude.skillLevels a))
  /\ in_range 70 95 (Claude.a_confidence a)
  /\ at_least 2 (Claude.roiMultiplier a).
Proof. cbn. repeat split; discriminate. Qed.

Lemma parsed_assessment_in_ranges (rt : Runtime) (text : option string)
    (parsed : json) (a : Claude.AIAssessmentResponse) :
  Claude.extract_json rt text = Ok parsed ->
  numeric_fields_primitive parsed ->
  Claude.parseFinalAssessmentResponse_try rt text = Ok a ->
  in_range 0 100 (Claude.overallScore a)
  /\ in_range 0 10 (Claude.customerAnalysis (Claude.skillLevels a))
  /\ in_range 0 10 (Claude.businessCommunication (Claude.skillLevels a))
  /\ in_range 0 10 (Claude.revenueStrategy (Claude.skillLevels a))
  /\ in_range 0 10 (Claude.valueArticulation (Claude.skillLevels a))
  /\ in_range 0 10 (Claude.strategicThinking (Claude.skillLevels a))
  /\ in_range 70 95 (Claude.a_confidence a)
  /\ at_least 2 (Claude.roiMultiplier a).
Proof.
  intros Hextract [Htop Hskills] Hparse.
  unfold Claude.parseFinalAssessmentResponse_try in Hparse. rewrite Hextract in Hparse.
  repeat match goal with
         | H : Forall _ (_ :: _) |- _ => apply Forall_cons in H as [? H]
         end.
  cbn [res_bind mbind] in Hparse.
  repeat match type of Hparse with
         | context [get parsed ?k] =>
             let v := fresh "v" in let E := fresh "E" in
             destruct (get parsed k) as [v|] eqn:E;
             [apply get_is_field in E; subst v | discriminate Hparse];
             cbn [res_bind mbind] in Hparse
         end.
  injection Hparse as <-.
  cbn [Claude.overallScore Claude.skillLevels Claude.a_confidence Claude.roiMultiplier
       Claude.customerAnalysis Claude.businessCommunication Claude.revenueStrategy
       Claude.valueArticulation Claude.strategicThinking].
  repeat match goal with |- _ /\ _ => split end;
    try (apply clamp_or_primitive_in_range; [lia | assumption]).
  destruct (ToNumber_or_default_primitive rt (field parsed "roiMultiplier") 3) as [q' ->];
    [assumption | apply Math_max_at_least].
Qed.

End RangeFacts.

(** X10.  Every number in the assessment [generateFinalAssessment] returns
    is inside its declared range (overall score in [0, 100], the five
    skill levels in [0, 10], confidence in [70, 95], ROI multiplier at
    least 2), provided the numeric fields of the payload, where one was
    received and parsed, are numbers, booleans, null or absent, so that
    no string-to-number conversion is involved. *)
Theorem final_assessment_within_ranges
    (env : Claude.Env) (request : Claude.FinalAssessmentRequest)
    (a : Claude.AIAssessmentResponse) :
  Claude.generateFinalAssessment env request = Ok a ->
  (forall text parsed,
      Claude.callClaudeAPI env (Claude.buildFinalAssessmentPrompt env request)
                           Claude.final_options = Ok text ->
      Claude.extract_json (Claude.runtime env) text = Ok parsed ->
      Payload.numeric_fields_primitive parsed) ->
  JS.in_range 0 100 (Claude.overallScore a)
  /\ JS.in_range 0 10 (Claude.customerAnalysis (Claude.skillLevels a))
  /\ JS.in_range 0 10 (Claude.businessCommunication (Claude.skillLevels a))
  /\ JS.in_range 0 10 (Claude.revenueStrategy (Claude.skillLevels a))
  /\ JS.in_range 0 10 (Claude.valueArticulation (Claude.skillLevels a))
  /\ JS.in_range 0 10 (Claude.strategicThinking (Claude.skillLevels a))
  /\ JS.in_range 70 95 (Claude.a_confidence a)
  /\ Payload.at_least 2 (Claude.roiMultiplier a).
Proof.
  intros Hgen Hprim. unfold Claude.generateFinalAssessment in Hgen.
  destruct (negb (Claude.isConfigured env)).
  { injection Hgen as <-. apply fallback_assessment_in_ranges. }
  destruct (Claude.callClaudeAPI env (Claude.buildFinalAssessmentPrompt env request)
                                 Claude.final_options) as [text|e] eqn:Hcall;
    cbn in Hgen; injection Hgen as <-.
  2:{ apply fallback_assessment_in_ranges. }
  unfold Claude.parseFinalAssessmentResponse.
  destruct (Claude.parseFinalAssessmentResponse_try (Claude.runtime env) text)
    as [parsed_a|e] eqn:Hparse; [|apply fallback_assessment_in_ranges].
  destruct (Claude.extract_json (Claude.runtime env) text) as [parsed|e] eqn:Hextract.
  - apply (parsed_assessment_in_ranges (Claude.runtime env) text parsed parsed_a
             Hextract (Hprim text parsed eq_refl Hextract) Hparse).
  - unfold Claude.parseFinalAssessmentResponse_try in Hparse.
    rewrite Hextract in Hparse. discriminate.
Qed.

Lemma final_assessment_within_ranges_witness :
  let env := Samples.answering Cases.overreaching_payload 0 in
  Payload.numeric_fields_primitive Cases.overreaching_payload
  /\ exists a,
       Claude.generateFinalAssessment env Claude.empty_final_request = Ok a
       /\ Claude.overallScore a = JS.num 100
       /\ JS.in_range 0 100 (Claude.overallScore a)
       /\ JS.in_range 70 95 (Claude.a_confidence a)
       /\ Payload.at_least 2 (Claude.roiMultiplier a).
Proof.
  intros env.
  assert (Hprim : Payload.numeric_fields_primitive Cases.overreaching_payload).
  { split; repeat constructor. }
  split; [exact Hprim|].
  eexists. split; [vm_compute; reflexivity|]. split; [reflexivity|].
  refine ((fun H => conj (proj1 H) (proj2 (proj2 (proj2 (proj2 (proj2 (proj2 H)))))))
            (final_assessment_within_ranges env Claude.empty_final_request _ _ _)).
  - vm_compute. reflexivity.
  - intros text parsed Hcall Hextract.
    vm_compute in Hcall. injection Hcall as <-.
    vm_compute in Hextract. injection Hextract as <-.
    exact Hprim.
Defined.

(** ** AssessmentServiceLite, in general *)

Section SessionFacts.
Import Errors JS Types Lite LiteQueries.

Lemma checkForInsightGeneration_cases (env : Env) (session : AssessmentSession) :
  (checkForInsightGeneration env session).1 = session
  \/ exists b i,
       batchNumber i = b
       /\ length (s_responses session) = milestone b
       /\ has_batch b (s_insights session) = false
       /\ (checkForInsightGeneration env session).1 = set_insight session i.
Proof.
  unfold checkForInsightGeneration.
  destruct (length (s_responses session) =? 4)%nat eqn:E4;
    [destruct (has_batch Batch1 (s_insights session)) eqn:H1|]; cbn [negb andb].
  2:{ destruct (generateInsight_spec env session Batch1 "1-4") as (i & Hb & _ & ->).
      apply Nat.eqb_eq in E4. right. now exists Batch1, i. }
  all: destruct (length (s_responses session) =? 9)%nat eqn:E9;
    [destruct (has_batch Batch2 (s_insights session)) eqn:H2|]; cbn [negb andb].
  all: try (destruct (generateInsight_spec env session Batch2 "5-9") as (i & Hb & _ & ->);
            apply Nat.eqb_eq in E9; right; now exists Batch2, i).
  all: destruct (length (s_responses session) =? 12)%nat eqn:E12;
    [destruct (has_batch Batch3 (s_insights session)) eqn:H3|]; cbn [negb andb].
  all: try (destruct (generateInsight_spec env session Batch3 "10-12") as (i & Hb & _ & ->);
            apply Nat.eqb_eq in E12; right; now exists Batch3, i).
  all: now left.
Qed.

Lemma checkForInsightGeneration_responses (env : Env) (session : AssessmentSession) :
  s_responses (checkForInsightGeneration env session).1 = s_responses session.
Proof.
  destruct (checkForInsightGeneration_cases env session)
    as [-> | (b & i & _ & _ & _ & ->)]; reflexivity.
Qed.

Lemma checkForInsightGeneration_status (env : Env) (session : AssessmentSession) :
  status_consistent session ->
  (s_status session = completed -> (13 <= length (s_responses session))%nat) ->
  status_consistent (checkForInsightGeneration env session).1.
Proof.
  intros Hst Hdone.
  destruct (checkForInsightGeneration_cases env session)
    as [-> | (b & i & _ & Hlen & _ & ->)]; [exact Hst|].
  unfold status_consistent, set_insight. cbn. split.
  - now destruct (s_insights session).
  - unfold status_consistent in Hst.
    destruct (s_status session); try tauto.
    specialize (Hdone eq_refl). destruct b; cbn in Hlen; lia.
Qed.

Lemma step_status (sessions : gmap string AssessmentSession) (o : operation) :
  map_Forall (fun _ => status_consistent) sessions ->
  map_Forall (fun _ => status_consistent) (step sessions o).
Proof.
  intros Hinv. destruct o as [env userInfo | env sid response | env sid]; cbn [step].
  - unfold startAssessment.
    assert (Hnew : map_Forall (fun _ => status_consistent)
                     (<[generated_sessionId env :=
                          mkSession (generated_sessionId env) userInfo [] [] in_progress
                            (InsightEngine.now_iso (engine env)) None]> sessions)).
    { apply map_Forall_insert_2; [|exact Hinv]. now split. }
    now destruct (Supabase.createAssessmentSession _).
  - unfold addResponse. destruct (sessions !! sid) as [session|] eqn:Hs; [|exact Hinv].
    pose proof (Hinv _ _ Hs) as Hst. cbn beta in Hst.
    assert (Hpush : status_consistent (push_response session response)).
    { unfold status_consistent in *. cbn.
      destruct (s_status session); try tauto.
      destruct Hst as [Hlen Hat]. split; [rewrite length_app; cbn; lia | exact Hat]. }
    assert (Hdone : s_status (push_response session response) = completed ->
                    (13 <= length (s_responses (push_response session response)))%nat).
    { cbn. intros Hc. unfold status_consistent in Hst. rewrite Hc in Hst.
      rewrite length_app. cbn. lia. }
    destruct (Supabase.storeAssessmentResponse _); cbn [fst].
    + apply map_Forall_insert_2; [|exact Hinv].
      now apply checkForInsightGeneration_status.
    + now apply map_Forall_insert_2.
  - unfold completeAssessment. destruct (sessions !! sid) as [session|] eqn:Hs; [|exact Hinv].
    destruct (length (s_responses session) <? 12)%nat eqn:Hlen; [exact Hinv|].
    destruct (SkillEngine.generateFinalResults _ _); cbn [fst]; [|exact Hinv].
    apply map_Forall_insert_2; [|exact Hinv].
    apply Nat.ltb_ge in Hlen. unfold status_consistent, set_completed. cbn.
    split; [exact Hlen | discriminate].
Qed.

Lemma fold_step_status (ops : list operation) :
  forall sessions,
    map_Forall (fun _ => status_consistent) sessions ->
    map_Forall (fun _ => status_consistent) (fold_left step ops sessions).
Proof.
  induction ops as [|o ops IH]; intros sessions Hinv; cbn; [exact Hinv|].
  apply IH. now apply step_status.
Qed.

End SessionFacts.

(** X11.  In every state the three operations can reach, the status of a
    stored session agrees with its content: an in-progress session has no
    insight, a session marked insight_generated has at least one, neither
    of the two has a completion date, a completed session has a completion
    date and at least 12 responses, and no session is ever given the
    status results_generated. *)
Theorem session_status_consistent
    (sessions : gmap string Lite.AssessmentSession)
    (sessionId : string) (session : Lite.AssessmentSession) :
  Lite.reachable sessions ->
  LiteQueries.getSession sessions sessionId = Some session ->
  LiteQueries.status_consistent session
  /\ Lite.s_status session <> Lite.results_generated
  /\ (Lite.s_completedAt session <> None <-> Lite.s_status session = Lite.completed).
Proof.
  intros [ops ->] Hs.
  assert (Hst : LiteQueries.status_consistent session).
  { exact (fold_step_status ops ∅ (map_Forall_empty _) _ _ Hs). }
  split; [exact Hst|]. unfold LiteQueries.status_consistent in Hst.
  destruct (Lite.s_status session); intuition congruence.
Qed.

Lemma session_status_consistent_witness :
  exists session,
    LiteQueries.getSession (Lite.run Cases.completed_run) Samples.session_key = Some session
    /\ Lite.s_status session = Lite.completed
    /\ LiteQueries.status_consistent session.
Proof.
  eexists. split; [vm_compute; reflexivity|]. split; [reflexivity|].
  refine (proj1 (session_status_consistent (Lite.run Cases.completed_run)
                   Samples.session_key _ _ _)).
  - now exists Cases.completed_run.
  - vm_compute. reflexivity.
Defined.

Section HistoryFacts.
Import Errors JS Types Lite LiteQueries.

Lemma checkForInsightGeneration_insights (env : Env) (session : AssessmentSession) :
  exists more,
    s_insights (checkForInsightGeneration env session).1 = s_insights session ++ more
    /\ (length more <= 1)%nat.
Proof.
  destruct (checkForInsightGeneration_cases env session)
    as [-> | (b & i & _ & _ & _ & ->)].
  - exists []. rewrite app_nil_r. split; [reflexivity | cbn; lia].
  - exists [i]. split; [reflexivity | cbn; lia].
Qed.

Lemma checkForInsightGeneration_identity (env : Env) (session : AssessmentSession) :
  s_userInfo (checkForInsightGeneration env session).1 = s_userInfo session
  /\ s_startedAt (checkForInsightGeneration env session).1 = s_startedAt session.
Proof.
  destruct (checkForInsightGeneration_cases env session)
    as [-> | (b & i & _ & _ & _ & ->)]; now split.
Qed.

Lemma has_batch_fmap (b : BatchNumber) (insights : list Insight) :
  has_batch b insights
  = existsb (fun x => bool_decide (x = b)) (batchNumber <$> insights).
Proof.
  unfold has_batch. induction insights as [|i l IH]; cbn; [reflexivity|]. now rewrite IH.
Qed.

Lemma batches_due_between (n : nat) :
  S n <> 4%nat -> S n <> 9%nat -> S n <> 12%nat -> batches_due (S n) = batches_due n.
Proof.
  intros H4 H9 H12. unfold batches_due.
  destruct (Nat.leb_spec 4 (S n)), (Nat.leb_spec 4 n); try lia.
  all: destruct (Nat.leb_spec 9 (S n)), (Nat.leb_spec 9 n); try lia.
  all: destruct (Nat.leb_spec 12 (S n)), (Nat.leb_spec 12 n); try lia.
  all: reflexivity.
Qed.

Lemma checkForInsightGeneration_due (env : Env) (session : AssessmentSession) (n : nat) :
  length (s_responses session) = S n ->
  batchNumber <$> s_insights session = batches_due n ->
  batchNumber <$> s_insights (checkForInsightGeneration env session).1 = batches_due (S n).
Proof.
  intros Hlen Hdue. unfold checkForInsightGeneration.
  rewrite !has_batch_fmap, Hdue, Hlen.
  destruct (Nat.eqb_spec (S n) 4) as [E4|E4].
  { injection E4 as ->. cbn [batches_due Nat.leb app existsb negb andb].
    destruct (generateInsight_spec env session Batch1 "1-4") as (i & Hb & _ & ->).
    cbn [fst set_insight s_insights]. rewrite fmap_app, Hdue. cbn. now rewrite Hb. }
  destruct (Nat.eqb_spec (S n) 9) as [E9|E9].
  { injection E9 as ->.
    cbn [andb]. change (existsb _ (batches_due 8)) with false. cbn [negb andb].
    destruct (generateInsight_spec env session Batch2 "5-9") as (i & Hb & _ & ->).
    cbn [fst set_insight s_insights]. rewrite fmap_app, Hdue. cbn. now rewrite Hb. }
  destruct (Nat.eqb_spec (S n) 12) as [E12|E12].
  { injection E12 as ->.
    cbn [andb]. change (existsb _ (batches_due 11)) with false. cbn [negb andb].
    destruct (generateInsight_spec env session Batch3 "10-12") as (i & Hb & _ & ->).
    cbn [fst set_insight s_insights]. rewrite fmap_app, Hdue. cbn. now rewrite Hb. }
  cbn [andb fst]. rewrite Hdue. symmetry. now apply batches_due_between.
Qed.

Lemma step_due (sessions : gmap string AssessmentSession) (o : operation) :
  write_succeeds o ->
  map_Forall (fun _ => due) sessions ->
  map_Forall (fun _ => due) (step sessions o).
Proof.
  intros Hw Hinv. destruct o as [env userInfo | env sid response | env sid]; cbn [step].
  - unfold startAssessment.
    assert (Hnew : map_Forall (fun _ => due)
                     (<[generated_sessionId env :=
                          mkSession (generated_sessionId env) userInfo [] [] in_progress
                            (InsightEngine.now_iso (engine env)) None]> sessions)).
    { apply map_Forall_insert_2; [reflexivity | exact Hinv]. }
    now destruct (Supabase.createAssessmentSession _).
  - unfold addResponse. destruct (sessions !! sid) as [session|] eqn:Hs; [|exact Hinv].
    cbn in Hw. rewrite Hw. cbn [fst].
    apply map_Forall_insert_2; [|exact Hinv].
    unfold due. rewrite checkForInsightGeneration_responses.
    cbn [push_response s_responses]. rewrite length_app, Nat.add_comm. cbn [length Nat.add].
    apply checkForInsightGeneration_due.
    + cbn. rewrite length_app. cbn. lia.
    + exact (Hinv _ _ Hs).
  - unfold completeAssessment. destruct (sessions !! sid) as [session|] eqn:Hs; [|exact Hinv].
    destruct (length (s_responses session) <? 12)%nat; [exact Hinv|].
    destruct (SkillEngine.generateFinalResults _ _); cbn [fst]; [|exact Hinv].
    apply map_Forall_insert_2; [|exact Hinv]. exact (Hinv _ _ Hs).
Qed.

Lemma fold_step_due (ops : list operation) :
  forall sessions,
    Forall write_succeeds ops ->
    map_Forall (fun _ => due) sessions ->
    map_Forall (fun _ => due) (fold_left step ops sessions).
Proof.
  induction ops as [|o ops IH]; intros sessions Hw Hinv; cbn; [exact Hinv|].
  apply Forall_cons in Hw as [Ho Hw]. apply IH; [exact Hw|]. now apply step_due.
Qed.

Lemma addResponse_records_step (env : Env) (sessions : gmap string AssessmentSession)
    (key : string) (response : AssessmentResponse) :
  match sessions !! key with
  | None => True
  | Some session =>
      exists stored more,
        (addResponse env sessions key response).1 !! key = Some stored
        /\ s_responses stored = s_responses session ++ [response]
        /\ s_insights stored = s_insights session ++ more
        /\ s_userInfo stored = s_userInfo session
        /\ s_startedAt stored = s_startedAt session
  end.
Proof.
  unfold addResponse. destruct (sessions !! key) as [session|] eqn:Hs; [|exact I].
  destruct (Supabase.storeAssessmentResponse (InsightEngine.db (engine env)))
    as [[]|e]; cbn [fst].
  - destruct (checkForInsightGeneration_insights env (push_response session response))
      as (more & Hmore & _).
    destruct (checkForInsightGeneration_identity env (push_response session response))
      as [Hu Ha].
    eexists _, more. rewrite lookup_insert_eq. split; [reflexivity|].
    rewrite checkForInsightGeneration_responses, Hmore, Hu, Ha. now repeat split.
  - eexists _, []. rewrite lookup_insert_eq. split; [reflexivity|].
    cbn. rewrite app_nil_r. now repeat split.
Qed.

End HistoryFacts.

(** X12.  [addResponse] on a known session records the response whether
    or not it reports success: the stored session has the response
    appended as its last one and at most one insight more than before,
    under the same identifier and user, and the call fails exactly when the
    persistence write throws.  On an unknown session it changes nothing and
    reports that the session was not found.  No other session is touched
    in either case. *)
Theorem addResponse_records_even_on_failure
    (env : Lite.Env) (sessions : gmap string Lite.AssessmentSession)
    (sessionId : string) (response : Types.AssessmentResponse) :
  let after := (Lite.addResponse env sessions sessionId response).1 in
  let result := (Lite.addResponse env sessions sessionId response).2 in
  (forall other, other <> sessionId -> after !! other = sessions !! other)
  /\ match LiteQueries.getSession sessions sessionId with
     | None =>
         after = sessions
         /\ result = Lite.mkAddResult false (Some "Session not found"%string) None
     | Some session =>
         (exists stored more,
             LiteQueries.getSession after sessionId = Some stored
             /\ Lite.s_responses stored = Lite.s_responses session ++ [response]
             /\ Lite.s_insights stored = Lite.s_insights session ++ more
             /\ (length more <= 1)%nat
             /\ Lite.s_sessionId stored = Lite.s_sessionId session
             /\ Lite.s_userInfo stored = Lite.s_userInfo session)
         /\ (Lite.add_success result = false
             <-> exists e,
                 Supabase.storeAssessmentResponse (InsightEngine.db (Lite.engine env))
                 = Throw e)
     end.
Proof.
  unfold LiteQueries.getSession, Lite.addResponse.
  destruct (sessions !! sessionId) as [session|] eqn:Hs; cbn zeta.
  2:{ now repeat split. }
  destruct (Supabase.storeAssessmentResponse (InsightEngine.db (Lite.engine env)))
    as [[]|e]; cbn [fst snd Lite.add_success].
  - split; [intros other Hne; now rewrite lookup_insert_ne|]. split.
    + destruct (checkForInsightGeneration_insights env (Lite.push_response session response))
        as (more & Hmore & Hlen).
      eexists _, more. rewrite lookup_insert_eq. split; [reflexivity|].
      rewrite checkForInsightGeneration_responses, checkForInsightGeneration_sessionId.
      rewrite Hmore.
      destruct (checkForInsightGeneration_identity env (Lite.push_response session response))
        as [-> _].
      now repeat split.
    + split; [discriminate | intros [e He]; discriminate].
  - split; [intros other Hne; now rewrite lookup_insert_ne|]. split.
    + eexists _, []. rewrite lookup_insert_eq. split; [reflexivity|].
      cbn. rewrite app_nil_r. repeat split. lia.
    + split; [intros _; now exists e | reflexivity].
Qed.

(** X13.  While every response write returns normally, the insights of a
    stored session are exactly those of the milestones its response count
    has reached, each once and in the order of the batches: none below 4
    responses, batch 1 from 4, batches 1 and 2 from 9, all three from 12
    on. *)
Theorem insights_follow_milestones
    (ops : list Lite.operation) (sessionId : string) (session : Lite.AssessmentSession) :
  Forall LiteQueries.write_succeeds ops ->
  LiteQueries.getSession (Lite.run ops) sessionId = Some session ->
  Types.batchNumber <$> LiteQueries.getSessionInsights (Lite.run ops) sessionId
  = LiteQueries.batches_due (length (Lite.s_responses session)).
Proof.
  intros Hw Hs. unfold LiteQueries.getSessionInsights, LiteQueries.getSession in *.
  rewrite Hs.
  exact (fold_step_due ops ∅ Hw (map_Forall_empty _) _ _ Hs).
Qed.

Lemma insights_follow_milestones_witness :
  Types.batchNumber
    <$> LiteQueries.getSessionInsights (Lite.run Samples.twelve_answers) Samples.session_key
  = [Types.Batch1; Types.Batch2; Types.Batch3].
Proof.
  refine (eq_trans (insights_follow_milestones Samples.twelve_answers Samples.session_key
                      _ _ _) _).
  - repeat constructor.
  - vm_compute. reflexivity.
  - reflexivity.
Defined.

Section AppendOnly.
Import Errors JS Types Lite LiteQueries.

(** What a later state of a session keeps of an earlier one. *)
Lemma step_extends (sessions : gmap string AssessmentSession) (o : operation)
    (key : string) (session : AssessmentSession) :
  restarts key o = false ->
  sessions !! key = Some session ->
  exists later,
    step sessions o !! key = Some later
    /\ s_responses session `prefix_of` s_responses later
    /\ s_insights session `prefix_of` s_insights later
    /\ s_userInfo later = s_userInfo session
    /\ s_startedAt later = s_startedAt session.
Proof.
  intros Hr Hs.
  assert (Hsame : exists later,
             Some session = Some later
             /\ s_responses session `prefix_of` s_responses later
             /\ s_insights session `prefix_of` s_insights later
             /\ s_userInfo later = s_userInfo session
             /\ s_startedAt later = s_startedAt session).
  { exists session. now repeat split. }
  destruct o as [env userInfo | env sid response | env sid]; cbn [step].
  - cbn in Hr. apply String.eqb_neq in Hr. unfold startAssessment.
    destruct (Supabase.createAssessmentSession _); cbn [fst];
      rewrite lookup_insert_ne by exact Hr; (cbn [fst]; rewrite Hs; exact Hsame).
  - destruct (decide (sid = key)) as [->|Hne].
    + pose proof (addResponse_records_step env sessions key response) as H.
      rewrite Hs in H. destruct H as (stored & more & Hl & Hresp & Hins & Hu & Ha).
      exists stored. split; [exact Hl|].
      split; [rewrite Hresp; now apply prefix_app_r|].
      split; [rewrite Hins; now apply prefix_app_r|]. now split.
    + unfold addResponse. destruct (sessions !! sid) as [other|]; [|(cbn [fst]; rewrite Hs; exact Hsame)].
      destruct (Supabase.storeAssessmentResponse _); cbn [fst];
        rewrite lookup_insert_ne by exact Hne; (cbn [fst]; rewrite Hs; exact Hsame).
  - unfold completeAssessment. destruct (sessions !! sid) as [other|] eqn:Ho; [|(cbn [fst]; rewrite Hs; exact Hsame)].
    destruct (length (s_responses other) <? 12)%nat; [(cbn [fst]; rewrite Hs; exact Hsame)|].
    destruct (SkillEngine.generateFinalResults _ _); cbn [fst]; [|(cbn [fst]; rewrite Hs; exact Hsame)].
    destruct (decide (sid = key)) as [->|Hne].
    + rewrite lookup_insert_eq. rewrite Hs in Ho. injection Ho as <-.
      eexists. split; [reflexivity|]. now repeat split.
    + rewrite lookup_insert_ne by exact Hne. (cbn [fst]; rewrite Hs; exact Hsame).
Qed.

End AppendOnly.

(** X14.  No operation removes a session or anything recorded in it: as
    long as no session is started again under the same identifier, a
    stored session stays stored through any sequence of operations, with
    the same user and start date, and its earlier responses and insights
    remain, in order, the first ones of the later lists. *)
Theorem sessions_are_append_only
    (ops : list Lite.operation) (sessions : gmap string Lite.AssessmentSession)
    (key : string) (session : Lite.AssessmentSession) :
  Forall (fun o => LiteQueries.restarts key o = false) ops ->
  LiteQueries.getSession sessions key = Some session ->
  exists later,
    LiteQueries.getSession (fold_left Lite.step ops sessions) key = Some later
    /\ Lite.s_responses session `prefix_of` Lite.s_responses later
    /\ Lite.s_insights session `prefix_of` Lite.s_insights later
    /\ Lite.s_userInfo later = Lite.s_userInfo session
    /\ Lite.s_startedAt later = Lite.s_startedAt session.
Proof.
  unfold LiteQueries.getSession.
  revert sessions session.
  induction ops as [|o ops IH]; intros sessions session Hr Hs; cbn [fold_left].
  - exists session. now repeat split.
  - apply Forall_cons in Hr as [Ho Hr].
    destruct (step_extends sessions o key session Ho Hs)
      as (mid & Hmid & Hresp & Hins & Hu & Ha).
    destruct (IH _ mid Hr Hmid) as (later & Hl & Hresp' & Hins' & Hu' & Ha').
    exists later. split; [exact Hl|].
    split; [now transitivity (Lite.s_responses mid)|].
    split; [now transitivity (Lite.s_insights mid)|].
    split; congruence.
Qed.

Lemma sessions_are_append_only_witness :
  exists earlier later,
    LiteQueries.getSession (Lite.run Samples.three_answers) Samples.session_key = Some earlier
    /\ LiteQueries.getSession
         (fold_left Lite.step [Samples.add 4; Samples.add 5] (Lite.run Samples.three_answers))
         Samples.session_key = Some later
    /\ Lite.s_responses earlier `prefix_of` Lite.s_responses later.
Proof.
  eexists.
  destruct (sessions_are_append_only [Samples.add 4; Samples.add 5]
              (Lite.run Samples.three_answers) Samples.session_key _
              ltac:(repeat constructor) ltac:(vm_compute; reflexivity))
    as (later & Hl & Hresp & _).
  exists later. split; [vm_compute; reflexivity|]. now split.
Defined.

Section ProgressFacts.
Import LiteQueries.

Lemma Math_round_percentage (n : Z) :
  Math_round (inject_Z n / 12 * 100) = (200 * n + 12) / 24.
Proof.
  unfold Math_round, Qfloor, Qdiv, Qmult, Qplus, Qinv, inject_Z. cbn.
  f_equal. lia.
Qed.

Lemma Math_ceil_quarter (n : Z) : Math_ceil (inject_Z n / 4) = (n + 3) / 4.
Proof.
  unfold Math_ceil, Qceiling, Qfloor, Qopp, Qdiv, Qmult, Qinv, inject_Z. cbn.
  Z.div_mod_to_equations. lia.
Qed.

End ProgressFacts.

(** X15.  [getAssessmentProgress] of a stored session with n responses
    reports n answered questions, a percentage within a third of 25n/3,
    which is at most 100 exactly when n is at most 12 (the service accepts
    further responses, and the percentage then exceeds 100), and as
    current batch the number of started groups of four, at most 3: 0 for a
    session without responses.  For an unknown session it reports nothing
    answered and current batch 1. *)
Theorem progress_of_session
    (sessions : gmap string Lite.AssessmentSession) (sessionId : string) :
  let p := LiteQueries.getAssessmentProgress sessions sessionId in
  match LiteQueries.getSession sessions sessionId with
  | None => p = LiteQueries.mkProgress 12 0 0 1 0
  | Some session =>
      let n := Z.of_nat (length (Lite.s_responses session)) in
      LiteQueries.answeredQuestions p = n
      /\ 3 * LiteQueries.progressPercentage p - 1 <= 25 * n
         <= 3 * LiteQueries.progressPercentage p + 1
      /\ (LiteQueries.progressPercentage p <= 100 <-> n <= 12)
      /\ LiteQueries.currentBatch p = Z.min 3 ((n + 3) / 4)
      /\ (LiteQueries.currentBatch p = 0 <-> n = 0)
      /\ 0 <= LiteQueries.currentBatch p <= 3
      /\ LiteQueries.insightsGenerated p = Z.of_nat (length (Lite.s_insights session))
  end.
Proof.
  unfold LiteQueries.getAssessmentProgress, LiteQueries.getSession.
  destruct (sessions !! sessionId) as [session|]; cbn zeta; [|reflexivity].
  cbn [LiteQueries.answeredQuestions LiteQueries.progressPercentage
       LiteQueries.currentBatch LiteQueries.insightsGenerated].
  rewrite Math_round_percentage, Math_ceil_quarter.
  pose proof (Nat2Z.is_nonneg (length (Lite.s_responses session))) as Hn.
  set (n := Z.of_nat (length (Lite.s_responses session))) in *.
  repeat apply conj; try reflexivity; try (Z.div_mod_to_equations; lia).
Qed.

(** X16.  [cleanupCompletedSessions] alters no session and adds none; it
    keeps every session that is not completed, and a session it drops is
    completed with a completion date that lies more than an hour before
    the clock.  Running it again at the same clock changes nothing. *)
Theorem cleanup_drops_only_stale_completed
    (clock : LiteQueries.Clock) (sessions : gmap string Lite.AssessmentSession)
    (key : string) :
  let after := LiteQueries.cleanupCompletedSessions clock sessions in
  (LiteQueries.getSession after key = None
   \/ LiteQueries.getSession after key = LiteQueries.getSession sessions key)
  /\ (forall session,
         LiteQueries.getSession sessions key = Some session ->
         Lite.s_status session <> Lite.completed ->
         LiteQueries.getSession after key = Some session)
  /\ (forall session,
         LiteQueries.getSession sessions key = Some session ->
         LiteQueries.getSession after key = None ->
         Lite.s_status session = Lite.completed
         /\ exists completedAt t,
              Lite.s_completedAt session = Some completedAt
              /\ LiteQueries.Date_time clock completedAt = Some t
              /\ t < LiteQueries.now_ms clock - 3600000)
  /\ LiteQueries.cleanupCompletedSessions clock after = after.
Proof.
  unfold LiteQueries.getSession, LiteQueries.cleanupCompletedSessions. cbn zeta.
  repeat apply conj.
  - destruct (filter _ sessions !! key) as [session|] eqn:Hf; [right | now left].
    apply map_lookup_filter_Some in Hf as [Hs _]. now rewrite Hs.
  - intros session Hs Hst. apply map_lookup_filter_Some. split; [exact Hs|].
    cbn. unfold LiteQueries.stale. now destruct (Lite.s_status session).
  - intros session Hs Hf.
    destruct (LiteQueries.stale clock session) eqn:Hstale.
    + unfold LiteQueries.stale in Hstale.
      destruct (Lite.s_status session); try discriminate.
      destruct (Lite.s_completedAt session) as [completedAt|]; try discriminate.
      apply andb_true_iff in Hstale as [_ Ht].
      destruct (LiteQueries.Date_time clock completedAt) as [t|] eqn:Hd; try discriminate.
      apply Z.ltb_lt in Ht. split; [reflexivity|]. exists completedAt, t.
      repeat split; [exact Hd | lia].
    + assert (Hkept : filter (fun entry => LiteQueries.stale clock entry.2 = false) sessions
                      !! key = Some session).
      { apply map_lookup_filter_Some. now split. }
      rewrite Hkept in Hf. discriminate.
  - apply map_eq. intros i. apply option_eq. intros session.
    rewrite !map_lookup_filter_Some. tauto.
Qed.

(** ** SkillAssessmentEngine, in general *)

Section PriorityFacts.
Import Errors JS Types SkillEngine.

Lemma lt_weaken (x : jsnum) (a b : Z) :
  (a <= b)%Z -> lt x (num a) = true -> lt x (num b) = true.
Proof.
  intros Hab. unfold lt, num. destruct x as [q|]; [|discriminate].
  rewrite !negb_true_iff. intros Hq.
  destruct (Qle_bool (inject_Z b) q) eqn:Hb; [|reflexivity].
  apply Qle_bool_iff in Hb.
  assert (Ha : Qle_bool (inject_Z a) q = true).
  { apply Qle_bool_iff. apply Qle_trans with (inject_Z b); [|exact Hb].
    now rewrite <- Zle_Qle. }
  congruence.
Qed.






Lemma determineLeadPriority_agrees (l : CompetencyLevel) (challenges : json)
    (p : LeadPriority) :
  determineLeadPriority l challenges = Ok p ->
  (lt (score l) (num 40) = true -> p = lead_high)
  /\ (lt (score l) (num 60) = true -> p <> lead_low).
Proof.
  unfold determineLeadPriority. intros H. split.
  - intros H40. rewrite H40 in H. cbn in H. congruence.
  - intros H60. destruct (lt (score l) (num 40)); cbn in H; [congruence|].
    destruct (some_priority "critical" challenges) as [[]|]; cbn in H; try congruence.
    rewrite H60 in H. cbn in H. congruence.
Qed.

Lemma generateFinalResults_inv (env : InsightEngine.Env) (d : AssessmentData) :
  exists a,
    Claude.generateFinalAssessment (InsightEngine.ai env) (SkillRequest.final_request d) = Ok a
    /\ match determineLeadPriority (mkLevel (Claude.performanceLevel a) (Claude.overallScore a))
                                   (Claude.challenges a) with
       | Throw e => generateFinalResults env d = Throw e
       | Ok lead =>
           exists r,
             generateFinalResults env d = Ok r
             /\ overallScore r = Claude.overallScore a
             /\ score (performanceLevel r) = Claude.overallScore a
             /\ isHighPriority r = lt (Claude.overallScore a) (num 60)
             /\ leadPriority r = lead
             /\ impactTimeline r
                = determineImpactTimeline
                    (mkLevel (Claude.performanceLevel a) (Claude.overallScore a))
             /\ challenges r = Claude.challenges a
       end.
Proof.
  destruct (generateFinalAssessment_never_fails (InsightEngine.ai env)
              (SkillRequest.final_request d)) as [a Ha].
  exists a. split; [exact Ha|].
  unfold generateFinalResults. fold (SkillRequest.final_request d). rewrite Ha.
  cbn [res_bind mbind].
  destruct (determineLeadPriority _ _) as [lead|e]; cbn; [|reflexivity].
  eexists. split; [reflexivity|]. now repeat split.
Qed.

End PriorityFacts.

(** X17.  The three urgency marks of a final result agree with one
    another: a result flagged high priority (score below 60) never has lead
    priority low, a long-term impact timeline (score below 40) comes with
    lead priority high and the high-priority flag, and a short-term
    timeline is never flagged.  The score of the performance level is the
    overall score. *)
Theorem final_results_priorities_agree
    (env : InsightEngine.Env) (assessmentData : SkillEngine.AssessmentData)
    (results : SkillEngine.AssessmentResults) :
  SkillEngine.generateFinalResults env assessmentData = Ok results ->
  SkillEngine.score (SkillEngine.performanceLevel results) = SkillEngine.overallScore results
  /\ (SkillEngine.isHighPriority results = true ->
      SkillEngine.leadPriority results <> SkillEngine.lead_low)
  /\ (SkillEngine.impactTimeline results = SkillEngine.long_term ->
      SkillEngine.leadPriority results = SkillEngine.lead_high
      /\ SkillEngine.isHighPriority results = true)
  /\ (SkillEngine.impactTimeline results = SkillEngine.short_term ->
      SkillEngine.isHighPriority results = false).
Proof.
  intros Hgen.
  destruct (generateFinalResults_inv env assessmentData) as (a & _ & Hinv).
  destruct (SkillEngine.determineLeadPriority _ _) as [lead|e] eqn:Hlead;
    [|rewrite Hinv in Hgen; discriminate].
  destruct Hinv as (r & Hr & Hscore & Hlevel & Hhigh & Hl & Htime & _).
  rewrite Hr in Hgen. injection Hgen as <-.
  apply determineLeadPriority_agrees in Hlead as [H40 H60]. cbn [SkillEngine.score] in *.
  rewrite Hlevel, Hscore, Hhigh, Hl, Htime. unfold SkillEngine.determineImpactTimeline.
  cbn [SkillEngine.score].
  split; [reflexivity|]. split; [exact H60|]. split.
  - destruct (JS.lt (Claude.overallScore a) (JS.num 40)) eqn:E40.
    + intros _. split; [now apply H40|]. now apply (lt_weaken _ 40 60).
    + now destruct (JS.lt (Claude.overallScore a) (JS.num 70)).
  - destruct (JS.lt (Claude.overallScore a) (JS.num 40)) eqn:E40; [discriminate|].
    destruct (JS.lt (Claude.overallScore a) (JS.num 70)) eqn:E70; [discriminate|].
    intros _. destruct (JS.lt (Claude.overallScore a) (JS.num 60)) eqn:E60; [|reflexivity].
    apply (lt_weaken _ 60 70) in E60; [congruence | lia].
Qed.

Lemma final_results_priorities_agree_witness :
  exists results,
    SkillEngine.generateFinalResults (Cases.engine_answering Cases.struggling_payload)
                                     Cases.twelve_responses = Ok results
    /\ SkillEngine.impactTimeline results = SkillEngine.long_term
    /\ SkillEngine.leadPriority results = SkillEngine.lead_high
    /\ SkillEngine.isHighPriority results = true.
Proof.
  eexists. split; [vm_compute; reflexivity|]. split; [reflexivity|].
  refine (proj1 (proj2 (proj2 (final_results_priorities_agree
                                 (Cases.engine_answering Cases.struggling_payload)
                                 Cases.twelve_responses _ _))) _).
  - vm_compute. reflexivity.
  - reflexivity.
Defined.


Example challenges_as_text_fail :
  SkillEngine.generateFinalResults (Cases.engine_answering Cases.challenges_as_text)
                                   Cases.twelve_responses
  = Throw (JS.type_error "challenges.some is not a function").
Proof. vm_compute. reflexivity. Qed.

(** ** RealTimeInsightService, in general *)

Section ServiceFacts.
Import Errors JS Types.

Lemma service_parse_wellformed (rt : Runtime) (aiText : string)
    (p : InsightService.ParsedInsight) :
  InsightService.parseAIResponse rt aiText = Ok p ->
  in_range 70 95 (InsightService.confidence p)
  /\ truthy (InsightService.challengeIdentified p) = true
  /\ truthy (InsightService.insight p) = true
  /\ truthy (InsightService.businessImpact p) = true
  /\ truthy (InsightService.reasoning p) = true.
Proof.
  unfold InsightService.parseAIResponse.
  destruct (Claude.extract_json rt (Some aiText)) as [parsed|]; cbn [res_bind mbind];
    [|discriminate].
  repeat match goal with
         | |- context [get parsed ?k] =>
             let v := fresh "v" in
             destruct (get parsed k) as [v|]; cbn [res_bind mbind]; [|discriminate]
         end.
  destruct (InsightService.as_number _) as [c|]; [|discriminate].
  destruct (truthy v) eqn:T1; cbn [negb orb]; [|discriminate].
  destruct (truthy v0) eqn:T2; cbn [negb orb]; [|discriminate].
  destruct (truthy v1) eqn:T3; cbn [negb orb]; [|discriminate].
  destruct (truthy v3) eqn:T4; cbn [negb orb]; [|discriminate].
  intros [= <-]. cbn [InsightService.confidence InsightService.challengeIdentified
                      InsightService.insight InsightService.businessImpact
                      InsightService.reasoning].
  split; [apply (service_clamp c)|]. now repeat split.
Qed.

Lemma analyzeBatch_unfold (b : BatchNumber) (env : RealTime.Env) (batch : RealTime.Batch) :
  RealTime.analyzeBatch b env batch
  = (aiText ← RealTime.callClaudeAPI env (RealTime.prompt_of b env batch);
     aiInsight ← RealTime.parseAIResponse env aiText;
     Ok (RealTime.insightData env batch
           (match b with Batch1 => "_1" | Batch2 => "_2" | Batch3 => "_3" end)
           (RealTime.range_of b) b aiInsight)).
Proof. now destruct b. Qed.

End ServiceFacts.

(** X19.  An insight returned by [analyzeBatch1], [analyzeBatch2] or
    [analyzeBatch3] of RealTimeInsightService comes from the AI endpoint
    and is well formed: the service is configured, the endpoint answered
    with a text, the insight carries the number of the batch asked for,
    the session identifier of the request and the question range 1-4, 5-9
    or 10-14, its confidence lies in [70, 95], and its challenge, insight
    text and business impact are all present and non-empty. *)
Theorem service_insight_is_well_formed
    (b : Types.BatchNumber) (env : RealTime.Env) (batch : RealTime.Batch)
    (i : RealTime.InsightData) :
  RealTime.analyzeBatch b env batch = Ok i ->
  RealTime.isAIConfigured env = true
  /\ (exists text,
        RealTime.callClaudeAPI_try env (RealTime.prompt_of b env batch)
        = Ok (JS.JStr text))
  /\ RealTime.batchNumber i = b
  /\ RealTime.sessionId i = RealTime.b_sessionId batch
  /\ RealTime.questionRange i = RealTime.range_of b
  /\ RealTime.generatedAt i = RealTime.now_iso env
  /\ JS.in_range 70 95 (RealTime.confidence i)
  /\ JS.truthy (RealTime.challengeIdentified i) = true
  /\ JS.truthy (RealTime.insight i) = true
  /\ JS.truthy (RealTime.businessImpact i) = true.
Proof.
  rewrite analyzeBatch_unfold. unfold RealTime.callClaudeAPI.
  destruct (RealTime.isAIConfigured env); cbn [negb]; [|discriminate].
  destruct (RealTime.callClaudeAPI_try env (RealTime.prompt_of b env batch))
    as [aiText|[|e]]; cbn [res_bind mbind]; try discriminate.
  destruct aiText as [| | |s| |]; cbn [RealTime.parseAIResponse res_bind mbind];
    try discriminate.
  destruct (InsightService.parseAIResponse (RealTime.runtime env) s) as [p|] eqn:Hp;
    cbn [res_bind mbind]; [|discriminate].
  intros [= <-]. apply service_parse_wellformed in Hp as (Hc & H1 & H2 & H3 & _).
  cbn. split; [reflexivity|]. split; [now exists s|]. now repeat split.
Qed.

Lemma service_insight_is_well_formed_witness :
  exists i,
    RealTime.analyzeBatch Types.Batch3
      (Cases.service_answering (Samples.insight_payload 99)) Cases.first_batch = Ok i
    /\ RealTime.questionRange i = "10-14"%string
    /\ JS.in_range 70 95 (RealTime.confidence i).
Proof.
  eexists. split; [vm_compute; reflexivity|]. split; [reflexivity|].
  refine (proj1 (proj2 (proj2 (proj2 (proj2 (proj2 (proj2
            (service_insight_is_well_formed Types.Batch3
               (Cases.service_answering (Samples.insight_payload 99))
               Cases.first_batch _ _))))))) ).
  vm_compute. reflexivity.
Defined.

(** X20.  RealTimeInsightService has no fallback: whatever goes wrong on
    the way is thrown to the caller of [analyzeBatch1], [analyzeBatch2] or
    [analyzeBatch3].  Without a credential, or with the placeholder
    credential, the call throws that the key is not configured; an aborted
    request is reported as a time-out after 30 seconds; any other failure
    of the request, of reading the body, or of parsing the text is thrown
    as it is; and an answer that is not ok is thrown with its status and
    body text. *)
Theorem service_propagates_failures
    (b : Types.BatchNumber) (env : RealTime.Env) (batch : RealTime.Batch) :
  let prompt := RealTime.prompt_of b env batch in
  let outcome := RealTime.analyzeBatch b env batch in
  (RealTime.apiKey env = None \/ RealTime.apiKey env = Some "sk-ant-api03-placeholder"%string
   \/ RealTime.apiKey env = Some ""%string ->
   outcome = Throw (Errors.mkError Errors.PlainError "ClaudeAI API key not configured"))
  /\ (RealTime.isAIConfigured env = true ->
      (RealTime.fetch env prompt = Throw RealTime.AbortError ->
       outcome = Throw (Errors.mkError Errors.PlainError
                          "Anthropic API call timed out after 30 seconds"))
      /\ (forall e, RealTime.fetch env prompt = Throw (RealTime.Other e) ->
                    outcome = Throw e)
      /\ (forall response errorText,
             RealTime.fetch env prompt = Ok response ->
             RealTime.ok response = false ->
             RealTime.text response = Ok errorText ->
             outcome = Throw (Errors.mkError Errors.PlainError
                                ("ClaudeAI API error (" ++ RealTime.status response
                                 ++ "): " ++ errorText)))
      /\ (forall response e,
             RealTime.fetch env prompt = Ok response ->
             RealTime.ok response = true ->
             RealTime.json_body response = Throw (RealTime.Other e) ->
             outcome = Throw e)
      /\ (forall text e,
             RealTime.callClaudeAPI_try env prompt = Ok (JS.JStr text) ->
             InsightService.parseAIResponse (RealTime.runtime env) text = Throw e ->
             outcome = Throw e)).
Proof.
  cbn zeta. rewrite analyzeBatch_unfold. unfold RealTime.callClaudeAPI. split.
  - unfold RealTime.isAIConfigured. now intros [-> | [-> | ->]].
  - intros ->. cbn [negb]. unfold RealTime.callClaudeAPI_try. repeat apply conj.
    + now intros ->.
    + now intros e ->.
    + intros response errorText -> Hok Htext. cbn [res_bind mbind].
      now rewrite Hok, Htext.
    + intros response e -> Hok Hbody. cbn [res_bind mbind].
      now rewrite Hok, Hbody.
    + intros text e Htry Hparse. unfold RealTime.callClaudeAPI_try in Htry.
      rewrite Htry. cbn [res_bind mbind RealTime.parseAIResponse]. now rewrite Hparse.
Qed.

Lemma service_propagates_failures_witness :
  RealTime.analyzeBatch Types.Batch1 Cases.service_with_placeholder Cases.first_batch
  = Throw (Errors.mkError Errors.PlainError "ClaudeAI API key not configured").
Proof.
  refine (proj1 (service_propagates_failures Types.Batch1 Cases.service_with_placeholder
                   Cases.first_batch) _).
  right. left. reflexivity.
Defined.

(** ** ValidationService, in general *)

Section TrimFacts.
Import Validation.

Lemma trimStart_head (s : jsstring) :
  match trimStart s with
  | [] => True
  | u :: _ => is_space u = false
  end.
Proof.
  induction s as [|u s IH]; cbn; [exact I|].
  destruct (is_space u) eqn:E; [exact IH | exact E].
Qed.

Lemma trimEnd_cons (u : Z) (s : jsstring) :
  trimEnd (u :: s)
  = match trimEnd s with
    | [] => if is_space u then [] else [u]
    | t => u :: t
    end.
Proof. reflexivity. Qed.

Lemma trimEnd_head (u : Z) (s : jsstring) :
  is_space u = false -> exists t, trimEnd (u :: s) = u :: t.
Proof.
  intros Hu. rewrite trimEnd_cons. destruct (trimEnd s) as [|v t]; [|eauto].
  rewrite Hu. eauto.
Qed.

Lemma trimEnd_last (s : jsstring) :
  match trimEnd s with
  | [] => True
  | _ :: _ => exists v, last (trimEnd s) = Some v /\ is_space v = false
  end.
Proof.
  induction s as [|u s IH]; [exact I|]. rewrite trimEnd_cons.
  destruct (trimEnd s) as [|v t] eqn:Ht.
  - destruct (is_space u) eqn:E; [exact I|]. exists u. now split.
  - destruct IH as (w & Hlast & Hw). exists w. split; [|exact Hw].
    now rewrite last_cons, Hlast.
Qed.

Lemma trimEnd_idempotent (s : jsstring) : trimEnd (trimEnd s) = trimEnd s.
Proof.
  induction s as [|u s IH]; [reflexivity|]. rewrite trimEnd_cons.
  destruct (trimEnd s) as [|v t] eqn:Ht.
  - destruct (is_space u) eqn:E; [reflexivity|]. cbn. now rewrite E.
  - rewrite trimEnd_cons, IH. reflexivity.
Qed.

Lemma trimEnd_length (s : jsstring) : (length (trimEnd s) <= length s)%nat.
Proof.
  induction s as [|u s IH]; [reflexivity|]. rewrite trimEnd_cons.
  destruct (trimEnd s) as [|v t]; [destruct (is_space u)|]; cbn in *; lia.
Qed.

Lemma trim_trimmed (s : jsstring) : trimmed (trim s).
Proof.
  unfold trim. pose proof (trimStart_head s) as Hh.
  destruct (trimStart s) as [|u t] eqn:Hs; [exact I|].
  destruct (trimEnd_head u t Hh) as [t' Ht'].
  pose proof (trimEnd_last (u :: t)) as Hl. rewrite Ht' in *.
  cbn [trimmed]. now split.
Qed.

Lemma trimStart_fixed (s : jsstring) :
  match s with [] => True | u :: _ => is_space u = false end -> trimStart s = s.
Proof. destruct s as [|u s]; [reflexivity|]. cbn. now intros ->. Qed.

Lemma trim_idempotent (s : jsstring) : trim (trim s) = trim s.
Proof.
  pose proof (trim_trimmed s) as Ht. unfold trim at 1.
  rewrite (trimStart_fixed (trim s)).
  - unfold trim. apply trimEnd_idempotent.
  - destruct (trim s); [exact I | apply Ht].
Qed.

End TrimFacts.

Section ValidatorFacts.
Import Validation.

Lemma validateString_inv (value : option jsstring) (fieldName : string)
    (minLength maxLength : Z) (d : jsstring) :
  validateString value fieldName minLength maxLength = Success d ->
  exists s, value = Some s /\ s <> [] /\ d = trim s
            /\ minLength <= Z.of_nat (length d) <= maxLength.
Proof.
  unfold validateString. destruct value as [[|u s]|]; try discriminate. cbn zeta.
  destruct (Z.ltb_spec (Z.of_nat (length (trim (u :: s)))) minLength); [discriminate|].
  destruct (Z.ltb_spec maxLength (Z.of_nat (length (trim (u :: s))))); [discriminate|].
  intros [= <-]. exists (u :: s). repeat split; try lia. discriminate.
Qed.

Lemma validateScore_inv (score : option number) (fieldName : string) (d : number) :
  validateScore score fieldName = Success d -> score = Some d /\ valid_score d.
Proof.
  unfold validateScore. destruct score as [[q| | |]|]; try discriminate.
  destruct (Qle_bool 0 q) eqn:H0; cbn [negb orb]; [|discriminate].
  destruct (Qle_bool q 100) eqn:H100; cbn [negb orb]; [|discriminate].
  destruct (is_integer q) eqn:Hi; cbn [negb]; [|discriminate].
  intros [= <-]. split; [reflexivity|]. exists (Qfloor q).
  apply Qeq_bool_iff in Hi. apply Qle_bool_iff in H0, H100.
  split; [exact Hi|]. rewrite Hi in H0, H100.
  change 0%Q with (inject_Z 0) in H0. change 100%Q with (inject_Z 100) in H100.
  rewrite <- Zle_Qle in H0, H100. lia.
Qed.

Lemma validateScore_errors (score : option number) (fieldName : string) :
  (length (errors_of (validateScore score fieldName)) <= 1)%nat.
Proof.
  unfold validateScore. destruct score as [[q| | |]|]; cbn; try lia.
  destruct (negb (Qle_bool 0 q) || negb (Qle_bool q 100)); cbn; [lia|].
  destruct (negb (is_integer q)); cbn; lia.
Qed.

Lemma validateString_errors (value : option jsstring) (fieldName : string)
    (minLength maxLength : Z) :
  (length (errors_of (validateString value fieldName minLength maxLength)) <= 1)%nat.
Proof.
  unfold validateString. destruct value as [[|u s]|]; cbn; try lia.
  destruct (_ <? minLength); cbn; [lia|]. destruct (maxLength <? _); cbn; lia.
Qed.

Lemma failure_has_error {A} (r : Result A) (errors : list string) :
  r = Failure errors -> errors_of r = errors.
Proof. now intros ->. Qed.

Lemma validateScore_failure (score : option number) (fieldName : string)
    (errors : list string) :
  validateScore score fieldName = Failure errors -> length errors = 1%nat.
Proof.
  unfold validateScore. destruct score as [[q| | |]|]; try (now intros [= <-]).
  destruct (negb (Qle_bool 0 q) || negb (Qle_bool q 100)); [now intros [= <-]|].
  destruct (negb (is_integer q)); [now intros [= <-] | discriminate].
Qed.

Lemma validateString_failure (value : option jsstring) (fieldName : string)
    (minLength maxLength : Z) (errors : list string) :
  validateString value fieldName minLength maxLength = Failure errors ->
  length errors = 1%nat.
Proof.
  unfold validateString. destruct value as [[|u s]|]; try (now intros [= <-]).
  cbn zeta. destruct (_ <? minLength); [now intros [= <-]|].
  destruct (maxLength <? _); [now intros [= <-] | discriminate].
Qed.

End ValidatorFacts.

(** X21.  A value [validateString] accepts is returned trimmed: without
    white space at either end, and with a length within the two bounds.
    Validating the returned value again under the same bounds accepts it
    unchanged, except when it is empty, which a minimum length of 0 allows
    for an input of white space only: the empty string is then rejected as
    missing. *)
Theorem validated_string_revalidates
    (value : option Validation.jsstring) (fieldName : string) (minLength maxLength : Z)
    (d : Validation.jsstring) :
  Validation.validateString value fieldName minLength maxLength = Validation.Success d ->
  (exists s, value = Some s /\ d = Validation.trim s)
  /\ minLength <= Z.of_nat (length d) <= maxLength
  /\ Validation.trimmed d
  /\ (d <> [] ->
      Validation.validateString (Some d) fieldName minLength maxLength
      = Validation.Success d)
  /\ (d = [] ->
      minLength <= 0
      /\ Validation.validateString (Some d) fieldName minLength maxLength
         = Validation.Failure [fieldName +:+ " is required and must be a string"]).
Proof.
  intros Hv. destruct (validateString_inv _ _ _ _ _ Hv) as (s & -> & Hs & -> & Hlen).
  split; [now exists s|]. split; [exact Hlen|]. split; [apply trim_trimmed|]. split.
  - intros Hne. unfold Validation.validateString.
    destruct (Validation.trim s) as [|u t] eqn:Ht; [contradiction|].
    cbn zeta. rewrite <- Ht in Hlen |- *. rewrite trim_idempotent.
    destruct (Z.ltb_spec (Z.of_nat (length (Validation.trim s))) minLength); [lia|].
    destruct (Z.ltb_spec maxLength (Z.of_nat (length (Validation.trim s)))); [lia|].
    reflexivity.
  - intros He. rewrite He in *. cbn in Hlen. split; [lia | reflexivity].
Qed.

Lemma validated_string_revalidates_witness :
  Validation.validateString (Some Cases.padded_company) "Company" 1 200
  = Validation.Success [65; 99; 109; 101]
  /\ Validation.validateString (Some [65; 99; 109; 101]) "Company" 1 200
     = Validation.Success [65; 99; 109; 101].
Proof.
  assert (H : Validation.validateString (Some Cases.padded_company) "Company" 1 200
              = Validation.Success [65; 99; 109; 101]) by reflexivity.
  split; [exact H|].
  apply (validated_string_revalidates _ _ _ _ _ H). discriminate.
Defined.

(** X22.  Results that [validateAssessmentResults] accepts carry the three
    submitted scores unchanged, each an integer from 0 to 100, and the
    submitted qualification trimmed, of 1 to 100 code units.  When it
    rejects results that are present, it reports one error for each of the
    four fields that is invalid, and so between one and four errors. *)
Theorem validated_results_are_in_range
    (results : option Validation.ResultsInput) :
  (forall d,
      Validation.validateAssessmentResults (Some tt) results = Ok (Validation.Success d) ->
      exists r,
        results = Some r
        /\ Validation.buyerScore r = Some (Validation.d_buyerScore d)
        /\ Validation.techScore r = Some (Validation.d_techScore d)
        /\ Validation.overallScore r = Some (Validation.d_overallScore d)
        /\ Validation.valid_score (Validation.d_buyerScore d)
        /\ Validation.valid_score (Validation.d_techScore d)
        /\ Validation.valid_score (Validation.d_overallScore d)
        /\ (exists s, Validation.qualification r = Some s
                      /\ Validation.d_qualification d = Validation.trim s)
        /\ 1 <= Z.of_nat (length (Validation.d_qualification d)) <= 100)
  /\ (forall r errors,
         results = Some r ->
         Validation.validateAssessmentResults (Some tt) results
         = Ok (Validation.Failure errors) ->
         (1 <= length errors <= 4)%nat
         /\ length errors
            = (length (Validation.errors_of
                         (Validation.validateScore (Validation.buyerScore r) "Buyer Score"))
               + length (Validation.errors_of
                           (Validation.validateScore (Validation.techScore r) "Tech Score"))
               + length (Validation.errors_of
                           (Validation.validateScore (Validation.overallScore r)
                                                     "Overall Score"))
               + length (Validation.errors_of
                           (Validation.validateString (Validation.qualification r)
                                                      "Qualification" 1 100)))%nat).
Proof.
  split.
  - intros d. unfold Validation.validateAssessmentResults.
    destruct results as [r|]; [|discriminate]. cbn [Validation.this_method res_bind mbind].
    destruct (Validation.validateScore (Validation.buyerScore r) _) as [b|] eqn:Hb;
      [|discriminate].
    destruct (Validation.validateScore (Validation.techScore r) _) as [t|] eqn:Ht;
      [|discriminate].
    destruct (Validation.validateScore (Validation.overallScore r) _) as [o|] eqn:Ho;
      [|discriminate].
    destruct (Validation.validateString (Validation.qualification r) _ _ _) as [q|] eqn:Hq;
      [|discriminate].
    intros [= <-]. cbn.
    apply validateScore_inv in Hb as [Hb Hb'], Ht as [Ht Ht'], Ho as [Ho Ho'].
    apply validateString_inv in Hq as (s & Hs & _ & Hq & Hlen).
    exists r. repeat split; try assumption; try lia. now exists s.
  - intros r errors -> . unfold Validation.validateAssessmentResults.
    cbn [Validation.this_method res_bind mbind].
    pose proof (validateScore_errors (Validation.buyerScore r) "Buyer Score") as Eb.
    pose proof (validateScore_errors (Validation.techScore r) "Tech Score") as Et.
    pose proof (validateScore_errors (Validation.overallScore r) "Overall Score") as Eo.
    pose proof (validateString_errors (Validation.qualification r) "Qualification" 1 100)
      as Eq.
    destruct (Validation.validateScore (Validation.buyerScore r) _) as [b|eb] eqn:Hb;
      destruct (Validation.validateScore (Validation.techScore r) _) as [t|et] eqn:Ht;
      destruct (Validation.validateScore (Validation.overallScore r) _) as [o|eo] eqn:Ho;
      destruct (Validation.validateString (Validation.qualification r) _ _ _)
        as [q|eq'] eqn:Hq;
      try discriminate; intros [= <-];
      repeat match goal with
             | H : Validation.validateScore _ _ = Validation.Failure _ |- _ =>
                 apply validateScore_failure in H
             | H : Validation.validateString _ _ _ _ = Validation.Failure _ |- _ =>
                 apply validateString_failure in H
             end;
      cbn [Validation.errors_of] in *; rewrite ?length_app; cbn [length]; lia.
Qed.

(** X23.  [validate] returns the data of an accepted request and throws
    the middleware's ValidationError, with the errors joined into its
    message, for a rejected one, provided the validator is bound to the
    service.  Given the method [validateAssessmentStart] unbound, as the
    start handler beside the insight controller passes it, [validate]
    throws a TypeError for every request, valid or not. *)
Theorem validate_needs_bound_method
    (toISOString : Validation.jsstring -> option Validation.jsstring)
    (data : Validation.StartInput) :
  (exists msg,
      Validation.validate data (Validation.validateAssessmentStart toISOString None)
      = Throw (Validation.TypeError msg))
  /\ (forall d,
         Validation.validate data (Validation.validateAssessmentStart toISOString (Some tt))
         = Ok d
         <-> Validation.validateSessionId (Validation.sessionId data)
             = Validation.Success (Validation.d_sessionId d)
             /\ Validation.validateISODate toISOString (Validation.startTime data)
                = Validation.Success (Validation.d_startTime d))
  /\ (forall e,
         Validation.validate data (Validation.validateAssessmentStart toISOString (Some tt))
         = Throw e ->
         exists errors,
           errors <> []
           /\ errors = Validation.errors_of
                         (Validation.validateSessionId (Validation.sessionId data))
                       ++ Validation.errors_of
                            (Validation.validateISODate toISOString
                               (Validation.startTime data))
           /\ e = Validation.ValidationError
                    ("Validation failed: " +:+ Validation.join errors)).
Proof.
  unfold Validation.validate, Validation.validateAssessmentStart.
  cbn [Validation.this_method res_bind mbind]. split; [eauto|].
  destruct (Validation.validateSessionId (Validation.sessionId data)) as [s|es] eqn:Hs;
    destruct (Validation.validateISODate toISOString (Validation.startTime data))
      as [t|et] eqn:Ht; cbn [Validation.errors_of app].
  - split.
    + intros [s' t']. cbn. split; [intros [= <- <-]; now split | now intros [[= ->] [= ->]]].
    + discriminate.
  - split; [intros d; split; [discriminate | now intros [_ ?]]|].
    intros e [= <-]. exists et. repeat split.
    unfold Validation.validateISODate in Ht.
    destruct (Validation.startTime data) as [[|u w]|]; try (injection Ht as <-; discriminate).
    destruct (toISOString (u :: w)); [|injection Ht as <-; discriminate].
    destruct (bool_decide _); [discriminate | injection Ht as <-; discriminate].
  - split; [intros d; split; [discriminate | now intros [? _]]|].
    intros e [= <-]. exists (es ++ []). repeat split.
    rewrite app_nil_r. unfold Validation.validateSessionId in Hs.
    destruct (Validation.sessionId data) as [[|u w]|]; try (injection Hs as <-; discriminate).
    destruct (_ || _); [injection Hs as <-; discriminate|].
    destruct (negb _); [injection Hs as <-; discriminate | discriminate].
  - split; [intros d; split; [discriminate | now intros [? _]]|].
    intros e [= <-]. exists (es ++ et). repeat split.
    unfold Validation.validateSessionId in Hs.
    destruct (Validation.sessionId data) as [[|u w]|]; try (injection Hs as <-; discriminate).
    destruct (_ || _); [injection Hs as <-; discriminate|].
    destruct (negb _); [injection Hs as <-; discriminate | discriminate].
Qed.

Lemma validated_results_are_in_range_witness :
  exists d,
    Validation.validateAssessmentResults (Some tt) (Some Cases.submitted_results)
    = Ok (Validation.Success d)
    /\ Validation.d_qualification d = [72; 111; 116]
    /\ Validation.valid_score (Validation.d_overallScore d).
Proof.
  eexists. split; [reflexivity|]. split; [reflexivity|].
  destruct (proj1 (validated_results_are_in_range (Some Cases.submitted_results)) _ eq_refl)
    as (r & _ & _ & _ & _ & _ & _ & Ho & _).
  exact Ho.
Defined.
